(** * Shallow embedding of [google/cloud/bigquery/_helpers.py]

    The module converts between BigQuery's JSON wire values and native
    Python values.  Python values are embedded as the inductive [pyval],
    raising an exception as the [Err] branch of [result], Python [str] as
    [string] (read as a sequence of Latin-1 code points), Python [int] as
    [Z], and the nested-property helpers over an explicit heap of
    dictionary objects. *)

From Stdlib Require Import ZArith Lia List String Ascii Bool.
From Stdlib Require Import Floats.SpecFloat.
From stdpp Require Import gmap strings list fin_maps.
Import ListNotations.

Local Open Scope Z_scope.
#[local] Arguments String.append _ _ : simpl nomatch.

(** ** Exceptions and the error monad *)

Inductive exn_kind :=
| TypeError | ValueError | AttributeError | KeyError | IndexError
| OverflowError | InvalidOperation.

(** An exception is its class and, where the source builds the message
    itself, the message text ([None] for messages produced inside the
    interpreter or a library). *)
Record exn := Raise { exn_class : exn_kind; exn_msg : option string }.

Inductive result (A : Type) :=
| Ok (a : A)
| Err (e : exn).
Arguments Ok {A} a.
Arguments Err {A} e.

Definition bind {A B} (m : result A) (k : A -> result B) : result B :=
  match m with
  | Ok a => k a
  | Err e => Err e
  end.

Notation "'let*' x ':=' m 'in' k" := (bind m (fun x => k))
  (at level 10, x name, m at level 100, k at level 200).
Notation "'let*' ' p ':=' m 'in' k" := (bind m (fun 'p => k))
  (at level 10, p strict pattern, m at level 100, k at level 200).

Definition raise {A} (k : exn_kind) : result A := Err (Raise k None).
Definition raise_msg {A} (k : exn_kind) (msg : string) : result A :=
  Err (Raise k (Some msg)).

Definition raises {A} (k : exn_kind) (r : result A) : Prop :=
  exists m, r = Err (Raise k m).

(** [[f(x) for x in l]]. *)
Fixpoint mapM {A B} (f : A -> result B) (l : list A) : result (list B) :=
  match l with
  | [] => Ok []
  | x :: l' => let* y := f x in let* ys := mapM f l' in Ok (y :: ys)
  end.

(** ** Characters and strings *)

Definition char_code (c : ascii) : Z := Z.of_N (N_of_ascii c).

Definition is_digit (c : ascii) : bool :=
  (48 <=? char_code c) && (char_code c <=? 57).

(** [str.isspace] on one character, which is also the class [\s] of a
    [str] pattern. *)
Definition is_space (c : ascii) : bool :=
  let n := char_code c in
  ((9 <=? n) && (n <=? 13)) || ((28 <=? n) && (n <=? 32))
  || (n =? 133) || (n =? 160).

(** The characters [int] skips around a numeral: of the ASCII range the C
    whitespace only, so not the separators 28 to 31 that [str.isspace]
    accepts. *)
Definition is_int_space (c : ascii) : bool :=
  let n := char_code c in
  ((9 <=? n) && (n <=? 13)) || (n =? 32) || (n =? 133) || (n =? 160).

Definition digit_char (d : Z) : ascii := ascii_of_N (Z.to_N (48 + d)).
Definition digit_val (c : ascii) : Z := char_code c - 48.

Definition lower_char (c : ascii) : ascii :=
  let n := char_code c in
  if ((65 <=? n) && (n <=? 90))
     || ((192 <=? n) && (n <=? 222) && negb (n =? 215))
  then ascii_of_N (Z.to_N (n + 32)) else c.

Fixpoint lower (s : string) : string :=
  match s with
  | EmptyString => EmptyString
  | String c s' => String (lower_char c) (lower s')
  end.

(** Dropping the characters of a class [sp] from the left end, from the
    right end and from both. *)
Fixpoint lstrip (sp : ascii -> bool) (s : string) : string :=
  match s with
  | String c s' => if sp c then lstrip sp s' else s
  | EmptyString => EmptyString
  end.

Fixpoint rstrip (sp : ascii -> bool) (s : string) : string :=
  match s with
  | EmptyString => EmptyString
  | String c s' =>
      match rstrip sp s' with
      | EmptyString => if sp c then EmptyString else String c EmptyString
      | r => String c r
      end
  end.

Definition strip (sp : ascii -> bool) (s : string) : string :=
  rstrip sp (lstrip sp s).

(** [s.startswith(p)] *)
Fixpoint starts_with (s p : string) {struct p} : bool :=
  match p with
  | EmptyString => true
  | String c p' =>
      match s with
      | String c' s' => Ascii.eqb c c' && starts_with s' p'
      | EmptyString => false
      end
  end.

(** [needle in haystack] for two strings. *)
Fixpoint contains (haystack needle : string) : bool :=
  starts_with haystack needle
  || match haystack with
     | EmptyString => false
     | String _ h' => contains h' needle
     end.

Fixpoint repeat_char (c : ascii) (n : nat) : string :=
  match n with
  | O => EmptyString
  | S n' => String c (repeat_char c n')
  end.

(** ** Decimal text of integers *)

Fixpoint digits_fuel (fuel : nat) (n : Z) (acc : string) : string :=
  match fuel with
  | O => acc
  | S fuel' =>
      let acc' := String (digit_char (n mod 10)) acc in
      if n <? 10 then acc' else digits_fuel fuel' (n / 10) acc'
  end.

Definition str_of_nonneg (n : Z) : string :=
  digits_fuel (S (Z.to_nat (Z.log2 n))) n EmptyString.

(** [str(z)] for an [int]. *)
Definition str_of_int (z : Z) : string :=
  if z <? 0 then String "-" (str_of_nonneg (- z)) else str_of_nonneg z.

(** ["%0<w>d" % z]: zero padding up to width [w], the sign first. *)
Definition fmt_d0 (w : nat) (z : Z) : string :=
  let body := str_of_nonneg (Z.abs z) in
  let sign := if z <? 0 then String "-" EmptyString else EmptyString in
  let used := (String.length sign + String.length body)%nat in
  sign +:+ repeat_char "0" (w - used) +:+ body.

(** Exactly [w] digits of [n], the least significant last. *)
Fixpoint fixed_digits (w : nat) (n : Z) : string :=
  match w with
  | O => EmptyString
  | S w' =>
      fixed_digits w' (n / 10) +:+ String (digit_char (n mod 10)) EmptyString
  end.

Fixpoint all_chars (p : ascii -> bool) (s : string) : bool :=
  match s with
  | EmptyString => true
  | String c s' => p c && all_chars p s'
  end.

(** The digits of [int(s)]: decimal digits, single underscores allowed
    between two digits. *)
Fixpoint int_digits (s : string) (acc : Z) (after_digit : bool) : option Z :=
  match s with
  | EmptyString => if after_digit then Some acc else None
  | String c s' =>
      if is_digit c then int_digits s' (10 * acc + digit_val c) true
      else if Ascii.eqb c "_" && after_digit then int_digits s' acc false
      else None
  end.

(** [int(s)] for a [str]: surrounding whitespace, an optional sign. *)
Definition int_of_string (s : string) : option Z :=
  match strip is_int_space s with
  | String "-" r => option_map Z.opp (int_digits r 0 false)
  | String "+" r => int_digits r 0 false
  | t => int_digits t 0 false
  end.

(** The interpreter refuses to convert between an [int] and a decimal
    text of more than [sys.get_int_max_str_digits()] digits; this is
    the default of that limit.  The digits are counted without sign,
    whitespace and underscores. *)
Definition INT_MAX_STR_DIGITS : nat := 4300.

Fixpoint count_digits (s : string) : nat :=
  match s with
  | EmptyString => O
  | String c s' => ((if is_digit c then 1 else 0) + count_digits s')%nat
  end.

Definition over_digit_limit (s : string) : bool :=
  (INT_MAX_STR_DIGITS <? count_digits s)%nat.

(** ** Regular expressions

    The fragment of [re] that the module's patterns and [strptime] use,
    with the backtracking order of the interpreter: alternatives left to
    right, repetition greedy.  The continuation receives the text the
    expression consumed, the rest of the input and the groups so far. *)

Inductive regex :=
| REps
| RChar (p : ascii -> bool)
| RRep (p : ascii -> bool) (lo : nat) (hi : option nat)
| RSeq (r1 r2 : regex)
| RAlt (r1 r2 : regex)
| ROpt (r : regex)
| RGroup (name : string) (r : regex)
| REnd.

Definition groups := list (string * string).

Fixpoint group (g : groups) (name : string) : option string :=
  match g with
  | [] => None
  | (n, v) :: g' => if String.eqb n name then Some v else group g' name
  end.

Section Matcher.
Context {R : Type}.

Definition kont := string -> string -> groups -> option R.

Definition or_else (a b : option R) : option R :=
  match a with Some x => Some x | None => b end.

Fixpoint rep_greedy (p : ascii -> bool) (lo : nat) (hi : option nat)
    (acc s : string) (g : groups) (k : kont) {struct s} : option R :=
  let stop := match lo with O => k acc s g | S _ => None end in
  match s with
  | String c s' =>
      if p c && match hi with Some O => false | _ => true end
      then or_else (rep_greedy p (Nat.pred lo) (option_map Nat.pred hi)
                      (acc +:+ String c EmptyString) s' g k)
                   stop
      else stop
  | EmptyString => stop
  end.

Fixpoint rmatch (r : regex) (s : string) (g : groups) (k : kont)
  : option R :=
  match r with
  | REps => k EmptyString s g
  | RChar p =>
      match s with
      | String c s' => if p c then k (String c EmptyString) s' g else None
      | EmptyString => None
      end
  | RRep p lo hi => rep_greedy p lo hi EmptyString s g k
  | RSeq r1 r2 =>
      rmatch r1 s g (fun c1 s1 g1 =>
        rmatch r2 s1 g1 (fun c2 s2 g2 => k (c1 +:+ c2) s2 g2))
  | RAlt r1 r2 => or_else (rmatch r1 s g k) (rmatch r2 s g k)
  | ROpt r1 => or_else (rmatch r1 s g k) (k EmptyString s g)
  | RGroup n r1 => rmatch r1 s g (fun c s' g' => k c s' ((n, c) :: g'))
  | REnd =>
      match s with
      | EmptyString => k EmptyString s g
      | String c EmptyString =>
          if Ascii.eqb c "010" then k EmptyString s g else None
      | _ => None
      end
  end.
End Matcher.

(** The result of [pattern.match(s)]: the matched text, what follows it
    and the named groups; [None] when there is no match. *)
Definition re_match (r : regex) (s : string)
  : option (string * string * groups) :=
  rmatch r s [] (fun c rest g => Some (c, rest, g)).

Definition rlit (c : ascii) : regex := RChar (Ascii.eqb c).
Definition rlit_nocase (c : ascii) : regex :=
  RChar (fun x => Ascii.eqb (lower_char x) (lower_char c)).
Definition rrange (lo hi : ascii) : regex :=
  RChar (fun x => (char_code lo <=? char_code x)
                  && (char_code x <=? char_code hi)).
Definition rdigit : regex := RChar is_digit.

Fixpoint rseq (rs : list regex) : regex :=
  match rs with
  | [] => REps
  | [r] => r
  | r :: rs' => RSeq r (rseq rs')
  end.

Fixpoint ralt (rs : list regex) : regex :=
  match rs with
  | [] => RChar (fun _ => false)
  | [r] => r
  | r :: rs' => RAlt r (ralt rs')
  end.

(** [_INTERVAL_PATTERN] *)
Definition _INTERVAL_PATTERN : regex :=
  rseq [ RGroup "calendar_sign" (ROpt (rlit "-"));
         RGroup "years" (RRep is_digit 1 None); rlit "-";
         RGroup "months" (RRep is_digit 1 None); rlit " ";
         RGroup "days" (RSeq (ROpt (rlit "-")) (RRep is_digit 1 None));
         rlit " ";
         RGroup "time_sign" (ROpt (rlit "-"));
         RGroup "hours" (RRep is_digit 1 None); rlit ":";
         RGroup "minutes" (RRep is_digit 1 None); rlit ":";
         RGroup "seconds" (RRep is_digit 1 None);
         ROpt (rlit ".");
         ROpt (RGroup "fraction" (RRep is_digit 0 None));
         REnd ].

(** ** Dates and times

    [datetime.date], [datetime.time] and [datetime.datetime] of the
    standard library, with the proleptic Gregorian arithmetic of that
    module.  A [tzinfo] is a fixed offset from UTC in microseconds;
    [Some 0] is [UTC]. *)

Record date := mkDate { year : Z; month : Z; day : Z }.

Record time := mkTime {
  hour : Z; minute : Z; second : Z; microsecond : Z;
  tzinfo : option Z }.

Record datetime := mkDatetime {
  dt_year : Z; dt_month : Z; dt_day : Z;
  dt_hour : Z; dt_minute : Z; dt_second : Z; dt_microsecond : Z;
  dt_tzinfo : option Z }.

Definition MINYEAR : Z := 1.
Definition MAXYEAR : Z := 9999.
Definition MAXORDINAL : Z := 3652059.

Definition is_leap (y : Z) : bool :=
  (y mod 4 =? 0) && (negb (y mod 100 =? 0) || (y mod 400 =? 0)).

Definition DAYS_IN_MONTH (m : Z) : Z :=
  match m with
  | 1 => 31 | 2 => 28 | 3 => 31 | 4 => 30 | 5 => 31 | 6 => 30
  | 7 => 31 | 8 => 31 | 9 => 30 | 10 => 31 | 11 => 30 | 12 => 31
  | _ => -1
  end.

Definition DAYS_BEFORE_MONTH (m : Z) : Z :=
  match m with
  | 1 => 0 | 2 => 31 | 3 => 59 | 4 => 90 | 5 => 120 | 6 => 151
  | 7 => 181 | 8 => 212 | 9 => 243 | 10 => 273 | 11 => 304 | 12 => 334
  | _ => -1
  end.

Definition days_in_month (y m : Z) : Z :=
  if (m =? 2) && is_leap y then 29 else DAYS_IN_MONTH m.

Definition days_before_year (y : Z) : Z :=
  let y1 := y - 1 in y1 * 365 + y1 / 4 - y1 / 100 + y1 / 400.

Definition days_before_month (y m : Z) : Z :=
  DAYS_BEFORE_MONTH m + (if (2 <? m) && is_leap y then 1 else 0).

Definition ymd2ord (y m d : Z) : Z :=
  days_before_year y + days_before_month y m + d.

Definition DI400Y : Z := 146097.
Definition DI100Y : Z := 36524.
Definition DI4Y : Z := 1461.

(** The month and the day of the month of day [n] of a year, counted
    from 0: the closing lines of [_ord2ymd]. *)
Definition month_of_day (n : Z) (leapyear : bool) : Z * Z :=
  let m := Z.shiftr (n + 50) 5 in
  let preceding :=
    DAYS_BEFORE_MONTH m + (if (2 <? m) && leapyear then 1 else 0) in
  if n <? preceding then
    let m' := m - 1 in
    let preceding' :=
      preceding
      - (DAYS_IN_MONTH m' + (if (m' =? 2) && leapyear then 1 else 0)) in
    (m', n - preceding' + 1)
  else (m, n - preceding + 1).

Definition ord2ymd (n0 : Z) : Z * Z * Z :=
  let n := n0 - 1 in
  let n400 := n / DI400Y in
  let n := n mod DI400Y in
  let y := n400 * 400 + 1 in
  let n100 := n / DI100Y in
  let n := n mod DI100Y in
  let n4 := n / DI4Y in
  let n := n mod DI4Y in
  let n1 := n / 365 in
  let n := n mod 365 in
  let y := y + n100 * 100 + n4 * 4 + n1 in
  if (n1 =? 4) || (n100 =? 4) then (y - 1, 12, 31)
  else
    let leapyear := (n1 =? 3) && (negb (n4 =? 24) || (n100 =? 3)) in
    let '(m, d) := month_of_day n leapyear in
    (y, m, d).

Definition valid_ymd (y m d : Z) : bool :=
  (MINYEAR <=? y) && (y <=? MAXYEAR) && (1 <=? m) && (m <=? 12)
  && (1 <=? d) && (d <=? days_in_month y m).

Definition valid_hmsu (h mi s us : Z) : bool :=
  (0 <=? h) && (h <=? 23) && (0 <=? mi) && (mi <=? 59)
  && (0 <=? s) && (s <=? 59) && (0 <=? us) && (us <=? 999999).

Definition DAY_US : Z := 86400000000.

(** A [utcoffset] is strictly between minus and plus one day. *)
Definition valid_tz (tz : option Z) : bool :=
  match tz with
  | None => true
  | Some off => (- DAY_US <? off) && (off <? DAY_US)
  end.

Definition valid_date (d : date) : bool :=
  valid_ymd (year d) (month d) (day d).

Definition valid_time (t : time) : bool :=
  valid_hmsu (hour t) (minute t) (second t) (microsecond t)
  && valid_tz (tzinfo t).

Definition valid_datetime (v : datetime) : bool :=
  valid_ymd (dt_year v) (dt_month v) (dt_day v)
  && valid_hmsu (dt_hour v) (dt_minute v) (dt_second v) (dt_microsecond v)
  && valid_tz (dt_tzinfo v).

(** [datetime(y, m, d, h, mi, s, us)], which rejects fields out of
    range with a [ValueError]. *)
Definition make_datetime (y m d h mi s us : Z) (tz : option Z)
  : result datetime :=
  if valid_ymd y m d && valid_hmsu h mi s us
  then Ok (mkDatetime y m d h mi s us tz)
  else raise ValueError.

(** [value.date()], [value.time()] (which drops the zone) and
    [value.replace(tzinfo=tz)]. *)
Definition datetime_date (v : datetime) : date :=
  mkDate (dt_year v) (dt_month v) (dt_day v).
Definition datetime_time (v : datetime) : time :=
  mkTime (dt_hour v) (dt_minute v) (dt_second v) (dt_microsecond v) None.
Definition replace_tzinfo (v : datetime) (tz : option Z) : datetime :=
  mkDatetime (dt_year v) (dt_month v) (dt_day v)
             (dt_hour v) (dt_minute v) (dt_second v) (dt_microsecond v) tz.

(** Microseconds from the start of day 0 of the ordinal calendar to the
    wall-clock reading of [v]. *)
Definition wall_us (v : datetime) : Z :=
  ((ymd2ord (dt_year v) (dt_month v) (dt_day v) * 86400
    + dt_hour v * 3600 + dt_minute v * 60 + dt_second v) * 1000000)
  + dt_microsecond v.

(** [v + timedelta(microseconds=delta)]; the zone is kept, and a result
    outside the years 1..9999 is an [OverflowError]. *)
Definition datetime_add_us (v : datetime) (delta : Z) : result datetime :=
  let t := wall_us v + delta in
  let days := t / DAY_US in
  let rest := t mod DAY_US in
  if (0 <? days) && (days <=? MAXORDINAL) then
    let '(y, m, d) := ord2ymd days in
    let secs := rest / 1000000 in
    Ok (mkDatetime y m d (secs / 3600) ((secs mod 3600) / 60) (secs mod 60)
                   (rest mod 1000000) (dt_tzinfo v))
  else raise OverflowError.

(** [value.astimezone(UTC)] for a zone-carrying [value]. *)
Definition astimezone_utc (v : datetime) (off : Z) : result datetime :=
  let* u := datetime_add_us (replace_tzinfo v None) (- off) in
  Ok (replace_tzinfo u (Some 0)).

(** *** [isoformat] *)

Definition format_time (h mi s us : Z) : string :=
  fmt_d0 2 h +:+ ":" +:+ fmt_d0 2 mi +:+ ":" +:+ fmt_d0 2 s
  +:+ (if us =? 0 then EmptyString else "." +:+ fmt_d0 6 us).

Definition format_offset (tz : option Z) : string :=
  match tz with
  | None => EmptyString
  | Some off =>
      let sign := if off <? 0 then "-" else "+" in
      let a := Z.abs off in
      let hh := a / 3600000000 in
      let r := a mod 3600000000 in
      let mm := r / 60000000 in
      let ss := r mod 60000000 in
      sign +:+ fmt_d0 2 hh +:+ ":" +:+ fmt_d0 2 mm
      +:+ (if ss =? 0 then EmptyString
           else ":" +:+ fmt_d0 2 (ss / 1000000)
                +:+ (if ss mod 1000000 =? 0 then EmptyString
                     else "." +:+ fmt_d0 6 (ss mod 1000000)))
  end.

Definition date_isoformat (d : date) : string :=
  fmt_d0 4 (year d) +:+ "-" +:+ fmt_d0 2 (month d) +:+ "-"
  +:+ fmt_d0 2 (day d).

Definition time_isoformat (t : time) : string :=
  format_time (hour t) (minute t) (second t) (microsecond t)
  +:+ format_offset (tzinfo t).

Definition datetime_isoformat (sep : ascii) (v : datetime) : string :=
  date_isoformat (datetime_date v) +:+ String sep EmptyString
  +:+ format_time (dt_hour v) (dt_minute v) (dt_second v) (dt_microsecond v)
  +:+ format_offset (dt_tzinfo v).

(** *** [strftime] and [strptime]

    A format is read as literal characters and [%x] directives.  The
    directives the module's formats use are interpreted: [%Y %m %d %H %M
    %S %f].  [strftime] hands [%Y] to the C library, which pads the year
    to four digits on some platforms and prints it as it is on others
    (glibc); [pads_year] says which. *)

Inductive fmt_item :=
| FLit (c : ascii)
| FDir (c : ascii).

Fixpoint parse_format (s : string) : list fmt_item :=
  match s with
  | String "%" (String c s') => FDir c :: parse_format s'
  | String c s' => FLit c :: parse_format s'
  | EmptyString => []
  end.

Definition strftime_item (pads_year : bool) (v : datetime) (i : fmt_item)
  : string :=
  match i with
  | FLit c => String c EmptyString
  | FDir "Y" =>
      if pads_year then fmt_d0 4 (dt_year v) else str_of_int (dt_year v)
  | FDir "m" => fmt_d0 2 (dt_month v)
  | FDir "d" => fmt_d0 2 (dt_day v)
  | FDir "H" => fmt_d0 2 (dt_hour v)
  | FDir "M" => fmt_d0 2 (dt_minute v)
  | FDir "S" => fmt_d0 2 (dt_second v)
  | FDir "f" => fmt_d0 6 (dt_microsecond v)
  | FDir "%" => "%"
  | FDir c => String "%" (String c EmptyString)
  end.

Fixpoint concat_map {A} (f : A -> string) (l : list A) : string :=
  match l with
  | [] => EmptyString
  | x :: l' => f x +:+ concat_map f l'
  end.

(** [value.strftime(fmt)] *)
Definition strftime (pads_year : bool) (v : datetime) (fmt : string)
  : string :=
  concat_map (strftime_item pads_year v) (parse_format fmt).

(** The regular expressions of the directives, as [_strptime] has them. *)
Definition re_d : regex :=
  ralt [ RSeq (rlit "3") (rrange "0" "1");
         RSeq (rrange "1" "2") rdigit;
         RSeq (rlit "0") (rrange "1" "9");
         rrange "1" "9";
         RSeq (rlit " ") (rrange "1" "9") ].
Definition re_f : regex := RRep is_digit 1 (Some 6%nat).
Definition re_H : regex :=
  ralt [ RSeq (rlit "2") (rrange "0" "3");
         RSeq (rrange "0" "1") rdigit;
         rdigit ].
Definition re_m : regex :=
  ralt [ RSeq (rlit "1") (rrange "0" "2");
         RSeq (rlit "0") (rrange "1" "9");
         rrange "1" "9" ].
Definition re_M : regex := ralt [ RSeq (rrange "0" "5") rdigit; rdigit ].
Definition re_S : regex :=
  ralt [ RSeq (rlit "6") (rrange "0" "1");
         RSeq (rrange "0" "5") rdigit;
         rdigit ].
Definition re_Y : regex := rseq [ rdigit; rdigit; rdigit; rdigit ].

Definition directive_regex (c : ascii) : option regex :=
  match c with
  | "d" => Some re_d
  | "f" => Some re_f
  | "H" => Some re_H
  | "m" => Some re_m
  | "M" => Some re_M
  | "S" => Some re_S
  | "Y" => Some re_Y
  | _ => None
  end%char.

(** The expression of a whole format: a run of whitespace in the format
    matches any run of whitespace, other literals match themselves
    without regard to case, a directive is a named group. *)
Fixpoint format_regex (items : list fmt_item) (after_space : bool)
  : option regex :=
  match items with
  | [] => Some REps
  | FLit c :: items' =>
      if is_space c then
        if after_space then format_regex items' true
        else option_map (RSeq (RRep is_space 1 None)) (format_regex items' true)
      else option_map (RSeq (rlit_nocase c)) (format_regex items' false)
  | FDir c :: items' =>
      match directive_regex c, format_regex items' false with
      | Some r, Some rest =>
          Some (RSeq (RGroup (String c EmptyString) r) rest)
      | _, _ => None
      end
  end.

Definition group_int (g : groups) (name : string) (default : Z) : option Z :=
  match group g name with
  | None => Some default
  | Some s => int_of_string s
  end.

Definition group_fraction (g : groups) : option Z :=
  match group g "f" with
  | None => Some 0
  | Some s => int_of_string (s +:+ repeat_char "0" (6 - String.length s))
  end.

(** [datetime.datetime.strptime(data, fmt)] for a [str]; every failure
    is a [ValueError]. *)
Definition strptime (data fmt : string) : result datetime :=
  match format_regex (parse_format fmt) false with
  | None => raise ValueError
  | Some r =>
      match re_match r data with
      | Some (_, EmptyString, g) =>
          match group_int g "m" 1, group_int g "d" 1, group_int g "H" 0,
                group_int g "M" 0, group_int g "S" 0, group_fraction g with
          | Some m, Some d, Some h, Some mi, Some s, Some us =>
              let default_year :=
                if (m =? 2) && (d =? 29) then 1904 else 1900 in
              match group_int g "Y" default_year with
              | Some y => make_datetime y m d h mi s us None
              | None => raise ValueError
              end
          | _, _, _, _, _, _ => raise ValueError
          end
      | _ => raise ValueError
      end
  end.

(** ** Python values *)

Inductive decimal :=
| DecFinite (neg : bool) (coeff : Z) (exp : Z)
| DecInf (neg : bool)
| DecNaN.

(** [dateutil.relativedelta.relativedelta], its relative fields. *)
Record relativedelta := mkDelta {
  years : Z; months : Z; days : Z;
  hours : Z; minutes : Z; seconds : Z; microseconds : Z }.

#[warnings="-register-all"] Inductive pyval :=
| VNone
| VBool (b : bool)
| VInt (z : Z)
| VFloat (f : spec_float)
| VStr (s : string)
| VBytes (b : string)
| VDecimal (d : decimal)
| VDate (d : date)
| VTime (t : time)
| VDatetime (v : datetime)
| VInterval (r : relativedelta)
| VList (l : list pyval)
| VTuple (l : list pyval)
| VDict (d : list (string * pyval)).

Definition is_none (v : pyval) : bool :=
  match v with VNone => true | _ => false end.

(** Dictionaries keep insertion order; keys are unique. *)
Definition pydict := list (string * pyval).

Fixpoint dict_get (d : pydict) (k : string) : option pyval :=
  match d with
  | [] => None
  | (k', v) :: d' => if String.eqb k' k then Some v else dict_get d' k
  end.

Fixpoint dict_set (d : pydict) (k : string) (v : pyval) : pydict :=
  match d with
  | [] => [(k, v)]
  | (k', v') :: d' =>
      if String.eqb k' k then (k', v) :: d' else (k', v') :: dict_set d' k v
  end.

Definition dict_keys (d : pydict) : list string := map fst d.

Definition mem (k : string) (l : list string) : bool :=
  existsb (String.eqb k) l.

(** ** Interpreter and library operations

    The operations on floating-point text, decimals and base64 are taken
    as an interface: the module only passes values through them.  The
    interface also says how the platform's [strftime] writes a year. *)

Class PyRuntime := {
  (** [float(s)] for text; [None] is a [ValueError] *)
  float_of_string : string -> option spec_float;
  (** [float(n)] for an [int]; [None] is an [OverflowError] *)
  float_of_int : Z -> option spec_float;
  (** [repr] of a finite float *)
  float_repr : spec_float -> string;
  (** [decimal.Decimal(s)]; [None] is [decimal.InvalidOperation] *)
  decimal_of_string : string -> option decimal;
  (** [decimal.Decimal(f)] for a float, and for a tuple or list *)
  decimal_of_float : spec_float -> decimal;
  decimal_of_sequence : list pyval -> option decimal;
  (** [str(d)] for a decimal *)
  str_of_decimal : decimal -> string;
  (** [base64.standard_b64encode] and [base64.standard_b64decode] *)
  b64encode : string -> string;
  b64decode : string -> option string;
  (** [str(v)] for bytes, intervals and containers *)
  str_of_object : pyval -> string;
  (** whether [strftime] writes [%Y] with four digits for a year below
      1000 *)
  strftime_pads_year : bool
}.

Definition is_nan (f : spec_float) : bool :=
  match f with S754_nan => true | _ => false end.
Definition is_inf (f : spec_float) : bool :=
  match f with S754_infinity _ => true | _ => false end.

(** [int(f)] for a float: truncation toward zero. *)
Definition int_of_float (f : spec_float) : result Z :=
  match f with
  | S754_zero _ => Ok 0
  | S754_infinity _ => raise OverflowError
  | S754_nan => raise ValueError
  | S754_finite s m e =>
      let a := if 0 <=? e then Z.pos m * 2 ^ e else Z.pos m / 2 ^ (- e) in
      Ok (if s then - a else a)
  end.

Definition int_of_decimal (d : decimal) : result Z :=
  match d with
  | DecFinite neg c e =>
      let a := if 0 <=? e then c * 10 ^ e else c / 10 ^ (- e) in
      Ok (if neg then - a else a)
  | DecInf _ => raise OverflowError
  | DecNaN => raise ValueError
  end.

Definition is_ascii_space (c : ascii) : bool :=
  let n := char_code c in ((9 <=? n) && (n <=? 13)) || (n =? 32).

Fixpoint lstrip_by (sp : ascii -> bool) (s : string) : string :=
  match s with
  | String c s' => if sp c then lstrip_by sp s' else s
  | EmptyString => EmptyString
  end.

Fixpoint rstrip_by (sp : ascii -> bool) (s : string) : string :=
  match s with
  | EmptyString => EmptyString
  | String c s' =>
      match rstrip_by sp s' with
      | EmptyString => if sp c then EmptyString else String c EmptyString
      | r => String c r
      end
  end.

(** [int(b)] for [bytes]: as for text, with ASCII whitespace only. *)
Definition int_of_bytes (b : string) : option Z :=
  match rstrip_by is_ascii_space (lstrip_by is_ascii_space b) with
  | String "-" r => option_map Z.opp (int_digits r 0 false)
  | String "+" r => int_digits r 0 false
  | t => int_digits t 0 false
  end.

Definition of_option {A} (k : exn_kind) (o : option A) : result A :=
  match o with Some a => Ok a | None => raise k end.

Section Builtins.
Context `{PyRuntime}.

(** [int(v)]; a text or [bytes] of more digits than the limit is a
    [ValueError], like one that is no numeral. *)
Definition py_int (v : pyval) : result Z :=
  match v with
  | VInt z => Ok z
  | VBool b => Ok (if b then 1 else 0)
  | VStr s =>
      if over_digit_limit s then raise ValueError
      else of_option ValueError (int_of_string s)
  | VBytes b =>
      if over_digit_limit b then raise ValueError
      else of_option ValueError (int_of_bytes b)
  | VFloat f => int_of_float f
  | VDecimal d => int_of_decimal d
  | _ => raise TypeError
  end.

(** [float(v)] *)
Definition py_float (v : pyval) : result spec_float :=
  match v with
  | VFloat f => Ok f
  | VInt z => of_option OverflowError (float_of_int z)
  | VBool b => of_option OverflowError (float_of_int (if b then 1 else 0))
  | VStr s => of_option ValueError (float_of_string s)
  | VBytes b => of_option ValueError (float_of_string b)
  | VDecimal d => of_option ValueError (float_of_string (str_of_decimal d))
  | _ => raise TypeError
  end.

(** The argument conversion of [math.isnan] and [math.isinf], which
    accept numbers only. *)
Definition math_float (v : pyval) : result spec_float :=
  match v with
  | VStr _ | VBytes _ => raise TypeError
  | _ => py_float v
  end.

(** [decimal.Decimal(v)] *)
Definition py_decimal (v : pyval) : result decimal :=
  match v with
  | VDecimal d => Ok d
  | VInt z => Ok (DecFinite (z <? 0) (Z.abs z) 0)
  | VBool b => Ok (DecFinite false (if b then 1 else 0) 0)
  | VStr s => of_option InvalidOperation (decimal_of_string s)
  | VFloat f => Ok (decimal_of_float f)
  | VList l | VTuple l => of_option ValueError (decimal_of_sequence l)
  | _ => raise TypeError
  end.

Definition str_of_float (f : spec_float) : string :=
  match f with
  | S754_nan => "nan"
  | S754_infinity true => "-inf"
  | S754_infinity false => "inf"
  | _ => float_repr f
  end.

(** [str(z)] for an [int]: a [ValueError] when [z] has more digits than
    the limit. *)
Definition int_to_text (z : Z) : result string :=
  if over_digit_limit (str_of_int z) then raise ValueError
  else Ok (str_of_int z).

(** [str(v)]; for an [int] this is the text [int_to_text] returns
    within the digit limit. *)
Definition py_str (v : pyval) : string :=
  match v with
  | VNone => "None"
  | VBool true => "True"
  | VBool false => "False"
  | VInt z => str_of_int z
  | VFloat f => str_of_float f
  | VStr s => s
  | VDecimal d => str_of_decimal d
  | VDate d => date_isoformat d
  | VTime t => time_isoformat t
  | VDatetime v => datetime_isoformat " " v
  | _ => str_of_object v
  end.
End Builtins.

(** [len(v)] *)
Definition py_len (v : pyval) : result Z :=
  match v with
  | VStr s | VBytes s => Ok (Z.of_nat (String.length s))
  | VList l | VTuple l => Ok (Z.of_nat (List.length l))
  | VDict d => Ok (Z.of_nat (List.length d))
  | _ => raise TypeError
  end.

Definition is_str (s : string) (v : pyval) : bool :=
  match v with VStr t => String.eqb t s | _ => false end.

(** [s in v] for a text [s]. *)
Definition py_contains (v : pyval) (s : string) : result bool :=
  match v with
  | VStr t => Ok (contains t s)
  | VList l | VTuple l => Ok (existsb (is_str s) l)
  | VDict d => Ok (mem s (dict_keys d))
  | _ => raise TypeError
  end.

(** [v[k]] for a text key [k]. *)
Definition py_getitem (v : pyval) (k : string) : result pyval :=
  match v with
  | VDict d => of_option KeyError (dict_get d k)
  | _ => raise TypeError
  end.

Fixpoint chars (s : string) : list pyval :=
  match s with
  | EmptyString => []
  | String c s' => VStr (String c EmptyString) :: chars s'
  end.

Fixpoint byte_values (s : string) : list pyval :=
  match s with
  | EmptyString => []
  | String c s' => VInt (char_code c) :: byte_values s'
  end.

(** The items [for x in v] visits. *)
Definition py_iter (v : pyval) : result (list pyval) :=
  match v with
  | VList l | VTuple l => Ok l
  | VStr s => Ok (chars s)
  | VBytes b => Ok (byte_values b)
  | VDict d => Ok (map VStr (dict_keys d))
  | _ => raise TypeError
  end.

(** [google.cloud._helpers._to_bytes(value)] with the ASCII encoding. *)
Definition to_bytes (v : pyval) : result string :=
  match v with
  | VStr s =>
      if forallb (fun c => char_code c <? 128) (list_ascii_of_string s)
      then Ok s else raise ValueError
  | VBytes b => Ok b
  | _ => raise TypeError
  end.

(** [google.cloud._helpers._datetime_from_microseconds(value)]: the
    epoch, in UTC, plus that many microseconds. *)
Definition EPOCH : datetime := mkDatetime 1970 1 1 0 0 0 0 (Some 0).
Definition datetime_from_microseconds (us : Z) : result datetime :=
  datetime_add_us EPOCH us.

(** [datetime.datetime.strptime(value, fmt)] *)
Definition py_strptime (v : pyval) (fmt : string) : result datetime :=
  match v with
  | VStr s => strptime s fmt
  | _ => raise TypeError
  end.

(** [relativedelta(years=.., ..)]: the constructor carries overflowing
    units into the next larger one, sign kept. *)
Definition sign_of (x : Z) : Z := if x <? 0 then -1 else 1.

Definition carry (limit unit lo hi : Z) : Z * Z :=
  if limit <? Z.abs lo then
    let s := sign_of lo in
    (((lo * s) mod unit) * s, hi + ((lo * s) / unit) * s)
  else (lo, hi).

Definition make_relativedelta (y mo d h mi s us : Z) : relativedelta :=
  let '(us, s) := carry 999999 1000000 us s in
  let '(s, mi) := carry 59 60 s mi in
  let '(mi, h) := carry 59 60 mi h in
  let '(h, d) := carry 23 24 h d in
  let '(mo, y) := carry 11 12 mo y in
  mkDelta y mo d h mi s us.

(** ** Field descriptors *)

(** Modelled from the spec: the schema field class lives outside this
    module, which reads its [name], [field_type] (the logical type tag),
    [mode] and, for records, [fields] (the subfields). *)
#[warnings="-register-all"] Inductive SchemaField := mkField {
  name : string;
  field_type : string;
  mode : string;
  fields : list SchemaField }.

Definition is_mode (m : string) (field : SchemaField) : bool :=
  String.eqb (mode field) m.

(** A Python dict literal with text keys, and its [get]. *)
Fixpoint table_get {A} (t : list (string * A)) (k : string) : option A :=
  match t with
  | [] => None
  | (k', a) :: t' => if String.eqb k' k then Some a else table_get t' k
  end.

(** ** Decoding: JSON wire values to native values *)

Definition _RFC3339_MICROS_NO_ZULU : string := "%Y-%m-%dT%H:%M:%S.%f".
Definition _TIMEONLY_WO_MICROS : string := "%H:%M:%S".
Definition _TIMEONLY_W_MICROS : string := "%H:%M:%S.%f".

(** Modelled from the spec: the two formats the module imports from
    [google.cloud._helpers]; the row form of a TIMESTAMP is
    [YYYY-MM-DDTHH:MM:SS.ffffffZ] and a DATETIME without fraction is
    [YYYY-MM-DDTHH:MM:SS]. *)
Definition _RFC3339_MICROS : string := "%Y-%m-%dT%H:%M:%S.%fZ".
Definition _RFC3339_NO_FRACTION : string := "%Y-%m-%dT%H:%M:%S".

(** Check whether 'value' should be coerced to 'field' type. *)
Definition _not_null (value : pyval) (field : option SchemaField) : bool :=
  negb (is_none value)
  || match field with
     | Some f => negb (String.eqb (mode f) "NULLABLE")
     | None => false
     end.

Definition converter := pyval -> option SchemaField -> result pyval.

Section Decoders.
Context `{PyRuntime}.

Definition _int_from_json : converter := fun value field =>
  if _not_null value field
  then let* z := py_int value in Ok (VInt z)
  else Ok VNone.

Definition group_or_empty (g : groups) (n : string) : string :=
  match group g n with Some s => s | None => EmptyString end.

Definition group_to_int (g : groups) (n : string) : result Z :=
  match group g n with
  | Some s => of_option ValueError (int_of_string s)
  | None => raise TypeError
  end.

Definition _interval_from_json : converter := fun value field =>
  if negb (_not_null value field) then Ok VNone
  else
    match value with
    | VNone => raise TypeError
    | VStr s =>
        match re_match _INTERVAL_PATTERN s with
        | None =>
            raise_msg ValueError
              ("got interval: '" +:+ s +:+ "' with unexpected format")
        | Some (_, _, parsed) =>
            let calendar_sign :=
              if String.eqb (group_or_empty parsed "calendar_sign") "-"
              then -1 else 1 in
            let* y := group_to_int parsed "years" in
            let* mo := group_to_int parsed "months" in
            let* d := group_to_int parsed "days" in
            let time_sign :=
              if String.eqb (group_or_empty parsed "time_sign") "-"
              then -1 else 1 in
            let* h := group_to_int parsed "hours" in
            let* mi := group_to_int parsed "minutes" in
            let* s := group_to_int parsed "seconds" in
            let fraction := group_or_empty parsed "fraction" in
            let* us :=
              match fraction with
              | EmptyString => Ok 0
              | _ =>
                  let padded :=
                    fraction
                    +:+ repeat_char "0" (6 - String.length fraction) in
                  let* f :=
                    of_option ValueError
                      (int_of_string (String.substring 0 6 padded)) in
                  Ok (time_sign * f)
              end in
            Ok (VInterval
                  (make_relativedelta (calendar_sign * y) (calendar_sign * mo)
                     d (time_sign * h) (time_sign * mi) (time_sign * s) us))
        end
    | _ => raise TypeError
    end.

Definition _float_from_json : converter := fun value field =>
  if _not_null value field
  then let* f := py_float value in Ok (VFloat f)
  else Ok VNone.

Definition _decimal_from_json : converter := fun value field =>
  if _not_null value field
  then let* d := py_decimal value in Ok (VDecimal d)
  else Ok VNone.

Definition _bool_from_json : converter := fun value field =>
  if _not_null value field then
    match value with
    | VStr s => Ok (VBool (mem (lower s) ["t"; "true"; "1"]))
    | VBytes _ => Ok (VBool false)
    | _ => raise AttributeError
    end
  else Ok VNone.

Definition _string_from_json : converter := fun value _ => Ok value.

Definition _bytes_from_json : converter := fun value field =>
  if _not_null value field then
    let* b := to_bytes value in
    let* d := of_option ValueError (b64decode b) in
    Ok (VBytes d)
  else Ok VNone.

Definition _timestamp_from_json : converter := fun value field =>
  if _not_null value field then
    let* us := py_int value in
    let* v := datetime_from_microseconds us in
    Ok (VDatetime v)
  else Ok VNone.

Definition _datetime_from_json : converter := fun value field =>
  if _not_null value field then
    let* dotted := py_contains value "." in
    if dotted then
      let* v := py_strptime value _RFC3339_MICROS_NO_ZULU in
      Ok (VDatetime v)
    else
      let* v := py_strptime value _RFC3339_NO_FRACTION in
      Ok (VDatetime v)
  else Ok VNone.

(** [google.cloud._helpers._date_from_iso8601_date] *)
Definition date_from_iso8601_date (value : pyval) : result date :=
  let* v := py_strptime value "%Y-%m-%d" in Ok (datetime_date v).

Definition _date_from_json : converter := fun value field =>
  if _not_null value field
  then let* d := date_from_iso8601_date value in Ok (VDate d)
  else Ok VNone.

Definition _time_from_json : converter := fun value field =>
  if _not_null value field then
    let* n := py_len value in
    let* fmt :=
      if n =? 8 then Ok _TIMEONLY_WO_MICROS
      else if n =? 15 then Ok _TIMEONLY_W_MICROS
      else raise_msg ValueError ("Unknown time format: " +:+ py_str value) in
    let* v := py_strptime value fmt in
    Ok (VTime (datetime_time v))
  else Ok VNone.

(** The entries of [_CELLDATA_FROM_JSON] other than RECORD. *)
Definition scalar_from_json : list (string * converter) :=
  [ ("INTEGER", _int_from_json);
    ("INT64", _int_from_json);
    ("INTERVAL", _interval_from_json);
    ("FLOAT", _float_from_json);
    ("FLOAT64", _float_from_json);
    ("NUMERIC", _decimal_from_json);
    ("BIGNUMERIC", _decimal_from_json);
    ("BOOLEAN", _bool_from_json);
    ("BOOL", _bool_from_json);
    ("STRING", _string_from_json);
    ("GEOGRAPHY", _string_from_json);
    ("BYTES", _bytes_from_json);
    ("TIMESTAMP", _timestamp_from_json);
    ("DATETIME", _datetime_from_json);
    ("DATE", _date_from_json);
    ("TIME", _time_from_json) ].

(** [[converter(item["v"], subfield) for item in cell]] *)
Definition convert_items (conv : pyval -> result pyval) (cell : pyval)
  : result pyval :=
  let* items := py_iter cell in
  let* vs := mapM (fun item => let* v := py_getitem item "v" in conv v)
                  items in
  Ok (VList vs).

(** [_record_from_json] at a field that is present; the recursion
    follows the subfields. *)
Fixpoint record_from_json (field : SchemaField) (value : pyval)
    {struct field} : result pyval :=
  if _not_null value (Some field) then
    let* f := py_getitem value "f" in
    let* cells := py_iter f in
    (fix loop (subfields : list SchemaField) (cells : list pyval)
         (record : pydict) {struct subfields} : result pyval :=
       match subfields, cells with
       | subfield :: subfields', cell :: cells' =>
           let* conv :=
             if String.eqb (field_type subfield) "RECORD"
             then Ok (record_from_json subfield)
             else
               match table_get scalar_from_json (field_type subfield) with
               | Some c => Ok (fun v => c v (Some subfield))
               | None => raise KeyError
               end in
           let* cv := py_getitem cell "v" in
           let* v :=
             if is_mode "REPEATED" subfield then convert_items conv cv
             else conv cv in
           loop subfields' cells' (dict_set record (name subfield) v)
       | _, _ => Ok (VDict record)
       end) (fields field) cells []
  else Ok VNone.

Definition _record_from_json : converter := fun value field =>
  match field with
  | Some f => record_from_json f value
  | None => if is_none value then Ok VNone else raise AttributeError
  end.

Definition _CELLDATA_FROM_JSON : list (string * converter) :=
  scalar_from_json ++ [ ("RECORD", _record_from_json) ].

Definition _field_from_json (resource : pyval) (field : SchemaField)
  : result pyval :=
  let conv :=
    match table_get _CELLDATA_FROM_JSON (field_type field) with
    | Some c => c
    | None => fun value _ => Ok value
    end in
  if is_mode "REPEATED" field
  then convert_items (fun v => conv v (Some field)) resource
  else conv resource (Some field).
End Decoders.

(** ** Encoding: native values to JSON-safe values *)

Section Encoders.
Context `{PyRuntime}.

Definition _int_to_json (value : pyval) : result pyval :=
  match value with
  | VInt z => let* s := int_to_text z in Ok (VStr s)
  | VBool _ => Ok (VStr (py_str value))
  | _ => Ok value
  end.

Definition _float_to_json (value : pyval) : result pyval :=
  match value with
  | VNone => Ok VNone
  | _ =>
      let* value :=
        match value with
        | VStr _ => let* f := py_float value in Ok (VFloat f)
        | _ => Ok value
        end in
      let* f := math_float value in
      if is_nan f || is_inf f then Ok (VStr (py_str value))
      else let* f' := py_float value in Ok (VFloat f')
  end.

Definition _decimal_to_json (value : pyval) : result pyval :=
  match value with
  | VDecimal _ => Ok (VStr (py_str value))
  | _ => Ok value
  end.

Definition _bool_to_json (value : pyval) : result pyval :=
  match value with
  | VBool b => Ok (VStr (if b then "true" else "false"))
  | _ => Ok value
  end.

Definition _bytes_to_json (value : pyval) : result pyval :=
  match value with
  | VBytes b => Ok (VStr (b64encode b))
  | _ => Ok value
  end.

(** [value.tzinfo not in (None, UTC)] *)
Definition has_other_zone (v : datetime) : option Z :=
  match dt_tzinfo v with
  | Some off => if off =? 0 then None else Some off
  | None => None
  end.

Definition _timestamp_to_json_parameter (value : pyval) : result pyval :=
  match value with
  | VDatetime v =>
      let* v :=
        match has_other_zone v with
        | Some off => datetime_add_us (replace_tzinfo v None) (- off)
        | None => Ok v
        end in
      Ok (VStr (date_isoformat (datetime_date v) +:+ " "
                +:+ time_isoformat (datetime_time v) +:+ "+00:00"))
  | _ => Ok value
  end.

Definition to_utc_if_zoned (v : datetime) : result datetime :=
  match dt_tzinfo v with
  | Some off => astimezone_utc v off
  | None => Ok v
  end.

Definition _timestamp_to_json_row (value : pyval) : result pyval :=
  match value with
  | VDatetime v =>
      let* v := to_utc_if_zoned v in
      Ok (VStr (strftime strftime_pads_year v _RFC3339_MICROS))
  | _ => Ok value
  end.

Definition _datetime_to_json (value : pyval) : result pyval :=
  match value with
  | VDatetime v =>
      let* v := to_utc_if_zoned v in
      Ok (VStr (strftime strftime_pads_year v _RFC3339_MICROS_NO_ZULU))
  | _ => Ok value
  end.

(** A [datetime.datetime] is a [datetime.date] too. *)
Definition _date_to_json (value : pyval) : result pyval :=
  match value with
  | VDate d => Ok (VStr (date_isoformat d))
  | VDatetime v => Ok (VStr (datetime_isoformat "T" v))
  | _ => Ok value
  end.

Definition _time_to_json (value : pyval) : result pyval :=
  match value with
  | VTime t => Ok (VStr (time_isoformat t))
  | _ => Ok value
  end.

Definition _SCALAR_VALUE_TO_JSON_ROW
  : list (string * (pyval -> result pyval)) :=
  [ ("INTEGER", _int_to_json);
    ("INT64", _int_to_json);
    ("FLOAT", _float_to_json);
    ("FLOAT64", _float_to_json);
    ("NUMERIC", _decimal_to_json);
    ("BIGNUMERIC", _decimal_to_json);
    ("BOOLEAN", _bool_to_json);
    ("BOOL", _bool_to_json);
    ("BYTES", _bytes_to_json);
    ("TIMESTAMP", _timestamp_to_json_row);
    ("DATETIME", _datetime_to_json);
    ("DATE", _date_to_json);
    ("TIME", _time_to_json);
    ("DECIMAL", _decimal_to_json);
    ("BIGDECIMAL", _decimal_to_json) ].

Definition _SCALAR_VALUE_TO_JSON_PARAM
  : list (string * (pyval -> result pyval)) :=
  ("TIMESTAMP", _timestamp_to_json_parameter) :: _SCALAR_VALUE_TO_JSON_ROW.

Definition _scalar_field_to_json (field : SchemaField) (row_value : pyval)
  : result pyval :=
  match table_get _SCALAR_VALUE_TO_JSON_ROW (field_type field) with
  | None => Ok row_value
  | Some conv => conv row_value
  end.

(** The elements of a value that has a length and integer indices. *)
Definition py_sequence (v : pyval) : result (list pyval) :=
  match v with
  | VList l | VTuple l => Ok l
  | VStr s => Ok (chars s)
  | VBytes b => Ok (byte_values b)
  | _ => raise TypeError
  end.

Definition arity_message (n_row n_schema : nat) : string :=
  "The number of row fields (" +:+ str_of_int (Z.of_nat n_row)
  +:+ ") does not match schema length ("
  +:+ str_of_int (Z.of_nat n_schema) +:+ ").".

Section RecordLoops.
(** The three loops of [_record_field_to_json], over the function
    that encodes one subfield. *)
Variable encode : SchemaField -> pyval -> result pyval.

Definition store_subfield (record : pydict) (subfield : SchemaField)
    (subvalue : pyval) : result pydict :=
  if is_none subvalue then Ok record
  else let* j := encode subfield subvalue in
       Ok (dict_set record (name subfield) j).

Fixpoint encode_positional (subfields : list SchemaField)
    (items : list pyval) (record : pydict) {struct subfields}
  : result pydict :=
  match subfields with
  | [] => Ok record
  | subfield :: subfields' =>
      match items with
      | subvalue :: items' =>
          let* record' := store_subfield record subfield subvalue in
          encode_positional subfields' items' record'
      | [] => raise IndexError
      end
  end.

Fixpoint encode_named (subfields : list SchemaField) (row : pydict)
    (record : pydict) {struct subfields} : result pydict :=
  match subfields with
  | [] => Ok record
  | subfield :: subfields' =>
      let subvalue :=
        match dict_get row (name subfield) with
        | Some v => v
        | None => VNone
        end in
      let* record' := store_subfield record subfield subvalue in
      encode_named subfields' row record'
  end.
End RecordLoops.

(** The keys of the row that no subfield names are kept, as text.
    The source visits them in the order of a [set]; they are distinct
    and none is a subfield name, so the order only decides where they
    are inserted, and the row's own key order is taken here. *)
Fixpoint include_unknown (entries : pydict) (processed : list string)
    (record : pydict) : pydict :=
  match entries with
  | [] => record
  | (field_name, value) :: entries' =>
      let record' :=
        if mem field_name processed || is_none value then record
        else dict_set record field_name (VStr (py_str value)) in
      include_unknown entries' processed record'
  end.

Definition record_field_to_json_with
    (encode : SchemaField -> pyval -> result pyval)
    (fields : list SchemaField) (row_value : pyval) : result pyval :=
  match row_value with
  | VDict row =>
      let* record := encode_named encode fields row [] in
      Ok (VDict (include_unknown row (map name fields) record))
  | _ =>
      let* items := py_sequence row_value in
      if negb (List.length items =? List.length fields)%nat then
        raise_msg ValueError
          (arity_message (List.length items) (List.length fields))
      else
        let* record := encode_positional encode fields items [] in
        Ok (VDict record)
  end.

Fixpoint _field_to_json (field : SchemaField) (row_value : pyval)
    {struct field} : result pyval :=
  let single := fun item : pyval =>
    if is_none item then Ok VNone
    else if String.eqb (field_type field) "RECORD" then
      match field with
      | mkField _ _ _ subfields =>
          record_field_to_json_with _field_to_json subfields item
      end
    else _scalar_field_to_json field item in
  if is_none row_value then Ok VNone
  else if is_mode "REPEATED" field then
    let* items := py_iter row_value in
    let* values := mapM single items in
    Ok (VList values)
  else single row_value.

Definition _record_field_to_json (fields : list SchemaField)
    (row_value : pyval) : result pyval :=
  record_field_to_json_with _field_to_json fields row_value.

Definition _single_field_to_json (field : SchemaField) (row_value : pyval)
  : result pyval :=
  if is_none row_value then Ok VNone
  else if String.eqb (field_type field) "RECORD"
  then _record_field_to_json (fields field) row_value
  else _scalar_field_to_json field row_value.

Definition _repeated_field_to_json (field : SchemaField)
    (row_value : pyval) : result pyval :=
  let* items := py_iter row_value in
  let* values := mapM (_single_field_to_json field) items in
  Ok (VList values).
End Encoders.

(** ** Nested properties of a resource

    [_get_sub_prop], [_set_sub_prop] and [_del_sub_prop] walk a dict of
    dicts and update it in place.  Dict objects live in a heap and a
    value refers to one by its location, so that an update through
    [sub_val] is an update of the container.  The values here are
    [None], integers, text and references to dicts. *)

Module Props.

Abbreviation loc := positive (only parsing).

Inductive val :=
| PNone
| PInt (z : Z)
| PStr (s : string)
| PRef (l : loc).

Abbreviation heap := (gmap positive (gmap string val)) (only parsing).

(** [key in sub_val] *)
Definition has_key (h : heap) (sub_val : val) (key : string)
  : result bool :=
  match sub_val with
  | PRef l =>
      match h !! l with
      | Some d => Ok (bool_decide (is_Some (d !! key)))
      | None => raise TypeError
      end
  | PStr s => Ok (contains s key)
  | _ => raise TypeError
  end.

(** [sub_val[key]] *)
Definition get_item (h : heap) (sub_val : val) (key : string)
  : result val :=
  match sub_val with
  | PRef l =>
      match h !! l with
      | Some d => of_option KeyError (d !! key)
      | None => raise TypeError
      end
  | _ => raise TypeError
  end.

(** [sub_val[key] = v] *)
Definition set_item (h : heap) (sub_val : val) (key : string) (v : val)
  : result heap :=
  match sub_val with
  | PRef l =>
      match h !! l with
      | Some d => Ok (<[l := <[key := v]> d]> h)
      | None => raise TypeError
      end
  | _ => raise TypeError
  end.

(** [del sub_val[key]] *)
Definition del_item (h : heap) (sub_val : val) (key : string)
  : result heap :=
  match sub_val with
  | PRef l =>
      match h !! l with
      | Some d =>
          match d !! key with
          | Some _ => Ok (<[l := delete key d]> h)
          | None => raise KeyError
          end
      | None => raise TypeError
      end
  | _ => raise TypeError
  end.

(** [{}]: a new empty dict. *)
Definition new_dict (h : heap) : heap * val :=
  let l := fresh (dom h) in (<[l := ∅]> h, PRef l).

(** [for key in keys: if key not in sub_val: sub_val[key] = {};
    sub_val = sub_val[key]] *)
Fixpoint descend_creating (h : heap) (sub_val : val) (keys : list string)
  : result (heap * val) :=
  match keys with
  | [] => Ok (h, sub_val)
  | key :: keys' =>
      let* present := has_key h sub_val key in
      let* h1 :=
        if present then Ok h
        else let '(h0, d) := new_dict h in set_item h0 sub_val key d in
      let* next := get_item h1 sub_val key in
      descend_creating h1 next keys'
  end.

(** [keys[:-1]] and [keys[-1]] *)
Definition but_last (keys : list string) : list string := removelast keys.
Definition last_key (keys : list string) : result string :=
  of_option IndexError (last keys).

Fixpoint _get_sub_prop (h : heap) (sub_val : val) (keys : list string)
    (default : val) : result val :=
  match keys with
  | [] => Ok sub_val
  | key :: keys' =>
      let* present := has_key h sub_val key in
      if present then
        let* next := get_item h sub_val key in
        _get_sub_prop h next keys' default
      else Ok default
  end.

Definition _set_sub_prop (h : heap) (container : val) (keys : list string)
    (value : val) : result heap :=
  let* '(h1, sub_val) := descend_creating h container (but_last keys) in
  let* k := last_key keys in
  set_item h1 sub_val k value.

Definition _del_sub_prop (h : heap) (container : val) (keys : list string)
  : result heap :=
  let* '(h1, sub_val) := descend_creating h container (but_last keys) in
  let* k := last_key keys in
  let* present := has_key h1 sub_val k in
  if present then del_item h1 sub_val k else Ok h1.

(** Where a key path leads when every key on it is present in a dict:
    [container[k1][k2]...]. *)
Fixpoint resolve (h : heap) (sub_val : val) (keys : list string)
  : option val :=
  match keys with
  | [] => Some sub_val
  | key :: keys' =>
      match sub_val with
      | PRef l =>
          match h !! l with
          | Some d =>
              match d !! key with
              | Some next => resolve h next keys'
              | None => None
              end
          | None => None
          end
      | _ => None
      end
  end.

End Props.

(** ** Table lookups as the callers write them *)

Section Dispatch.
Context `{PyRuntime}.

(** [_CELLDATA_FROM_JSON[logical_type](value, field)] *)
Definition decode_cell (logical_type : string) (value : pyval)
    (field : SchemaField) : result pyval :=
  match table_get _CELLDATA_FROM_JSON logical_type with
  | Some conv => conv value (Some field)
  | None => raise KeyError
  end.

(** [_SCALAR_VALUE_TO_JSON_ROW[logical_type](value)] *)
Definition encode_row (logical_type : string) (value : pyval)
  : result pyval :=
  match table_get _SCALAR_VALUE_TO_JSON_ROW logical_type with
  | Some conv => conv value
  | None => raise KeyError
  end.

(** Encode for a row, then decode what was produced. *)
Definition roundtrip (logical_type : string) (value : pyval)
    (field : SchemaField) : result pyval :=
  let* wire := encode_row logical_type value in
  decode_cell logical_type wire field.
End Dispatch.

(** The wire envelope of one repeated element: [{"v": value}]. *)
Definition cell_of (value : pyval) : pyval := VDict [("v", value)].

(** The text [_timestamp_to_json_parameter] builds from a datetime that
    is already in UTC. *)
Definition param_text (u : datetime) : string :=
  date_isoformat (datetime_date u) +:+ " "
  +:+ time_isoformat (datetime_time u) +:+ "+00:00".

(** A text fits a template when it has the template's length, a digit
    wherever the template has the letter d, and the template's own
    character elsewhere. *)
Fixpoint fits (template s : string) : bool :=
  match template, s with
  | EmptyString, EmptyString => true
  | String t template', String c s' =>
      (if Ascii.eqb t "d" then is_digit c else Ascii.eqb t c)
      && fits template' s'
  | _, _ => false
  end.

Definition with_fraction : string := "dddd-dd-dd dd:dd:dd.dddddd+00:00".
Definition without_fraction : string := "dddd-dd-dd dd:dd:dd+00:00".

(** The wall-clock readings, in microseconds, of the years 1 to 9999. *)
Definition representable (t : Z) : bool :=
  (DAY_US <=? t) && (t <? (MAXORDINAL + 1) * DAY_US).

(** A runtime to evaluate closed examples with: it rejects every float
    and decimal text, leaves base64 text as it is and writes years as
    glibc does. *)
Definition plain_runtime : PyRuntime := {|
  float_of_string := fun _ => None;
  float_of_int := fun _ => None;
  float_repr := fun _ => "0.0";
  decimal_of_string := fun _ => None;
  decimal_of_float := fun _ => DecNaN;
  decimal_of_sequence := fun _ => None;
  str_of_decimal := fun _ => "NaN";
  b64encode := fun b => b;
  b64decode := fun b => Some b;
  str_of_object := fun _ => EmptyString;
  strftime_pads_year := false
|}.

(** ** More of [str] *)

(** [s.split(sep)] for a separator of one character: the text before
    the first separator, and the pieces after it.  The list Python
    returns is never empty. *)
Fixpoint split_char (sep : ascii) (s : string) : string * list string :=
  match s with
  | EmptyString => (EmptyString, [])
  | String c s' =>
      let '(w, ws) := split_char sep s' in
      if Ascii.eqb c sep then (EmptyString, w :: ws) else (String c w, ws)
  end.

Definition str_split (sep : ascii) (s : string) : list string :=
  let '(w, ws) := split_char sep s in w :: ws.

(** [s.replace(old, new, count)], where no [count] is [None].  For a
    non-empty [old] the text is read from the left; [skip] characters of
    a match found earlier are still to be dropped. *)
Fixpoint replace_from (old new : string) (skip : nat) (count : option nat)
    (s : string) : string :=
  match s with
  | EmptyString => EmptyString
  | String c s' =>
      match skip with
      | S skip' => replace_from old new skip' count s'
      | O =>
          if starts_with s old
             && match count with Some O => false | _ => true end
          then new +:+ replace_from old new (String.length old - 1)
                         (option_map Nat.pred count) s'
          else String c (replace_from old new 0 count s')
      end
  end.

(** An empty [old] is found before every character and at the end. *)
Fixpoint replace_empty (new : string) (count : option nat) (s : string)
  : string :=
  match count with
  | Some O => s
  | _ =>
      match s with
      | EmptyString => new
      | String c s' =>
          new +:+ String c (replace_empty new (option_map Nat.pred count) s')
      end
  end.

Definition str_replace (s old new : string) (count : option nat) : string :=
  match old with
  | EmptyString => replace_empty new count s
  | _ => replace_from old new 0 count s
  end.

(** The title case of a character, as text: that of the sharp s has two
    characters; those of the micro sign and of y with diaeresis lie
    outside Latin-1, which is [None] here. *)
Definition title_char (c : ascii) : option string :=
  let n := char_code c in
  if (n =? 181) || (n =? 255) then None
  else if n =? 223 then Some "Ss"
  else if ((97 <=? n) && (n <=? 122))
          || ((224 <=? n) && (n <=? 254) && negb (n =? 247))
  then Some (String (ascii_of_N (Z.to_N (n - 32))) EmptyString)
  else Some (String c EmptyString).

(** [s.capitalize()] *)
Definition capitalize (s : string) : option string :=
  match s with
  | EmptyString => Some EmptyString
  | String c s' => option_map (fun t => t +:+ lower s') (title_char c)
  end.

(** ["".join(map(str.capitalize, words))] *)
Fixpoint join_capitalized (words : list string) : option string :=
  match words with
  | [] => Some EmptyString
  | w :: ws =>
      match capitalize w, join_capitalized ws with
      | Some a, Some b => Some (a +:+ b)
      | _, _ => None
      end
  end.

(** [None] where the result is no Latin-1 text. *)
Definition _snake_to_camel_case (value : string) : option string :=
  let '(first, words) := split_char "_" value in
  option_map (String.append first) (join_capitalized words).

(** ** Identifiers of projects, datasets and tables *)

Definition not_dot (c : ascii) : bool := negb (Ascii.eqb c ".").
Definition not_space (c : ascii) : bool := negb (is_space c).

Definition _PROJECT_PREFIX_PATTERN : regex :=
  rseq [ RGroup "project_id"
           (rseq [ RRep not_space 1 None; rlit ":"; RRep not_dot 1 None ]);
         rlit ".";
         RGroup "dataset_id" (RRep not_dot 1 None);
         RAlt REnd
              (rseq [ rlit "."; RGroup "custom_id" (RRep not_dot 1 None);
                      REnd ]) ].

(** [[part for part in match.groups() if part]] *)
Definition truthy_groups (g : groups) (names : list string) : list string :=
  flat_map (fun n => match group g n with
                     | Some (String c s) => [String c s]
                     | _ => []
                     end) names.

Definition _split_id (full_id : string) : list string :=
  match re_match _PROJECT_PREFIX_PATTERN full_id with
  | None => str_split "." full_id
  | Some (_, _, g) =>
      truthy_groups g ["project_id"; "dataset_id"; "custom_id"]
  end.

Definition dquote : string := String "034" EmptyString.

Definition not_qualified_message (property_name full_id : string) : string :=
  property_name
  +:+ " must be a fully-qualified ID in standard SQL format, e.g., "
  +:+ dquote +:+ "project.dataset." +:+ property_name +:+ dquote
  +:+ ", got " +:+ full_id.

Definition no_project_message (property_name full_id : string) : string :=
  "When default_project is not set, " +:+ property_name
  +:+ " must be a fully-qualified ID in standard SQL format, e.g., "
  +:+ dquote +:+ "project.dataset_id." +:+ property_name +:+ dquote
  +:+ ", got " +:+ full_id.

Definition is_set (default_project : option string) : bool :=
  match default_project with
  | Some (String _ _) => true
  | _ => false
  end.

Definition _parse_3_part_id (full_id : string)
    (default_project : option string) (property_name : string)
  : result (option string * string * string) :=
  let parts := _split_id full_id in
  let n := List.length parts in
  if negb (n =? 2)%nat && negb (n =? 3)%nat then
    raise_msg ValueError (not_qualified_message property_name full_id)
  else if (n =? 2)%nat && negb (is_set default_project) then
    raise_msg ValueError (no_project_message property_name full_id)
  else
    match parts with
    | [dataset_id; resource_id] =>
        Ok (default_project, dataset_id, resource_id)
    | [project_id; dataset_id; resource_id] =>
        Ok (Some project_id, dataset_id, resource_id)
    | _ => raise ValueError
    end.

(** ** Timestamps of query parameters *)

Definition _timestamp_query_param_from_json : converter := fun value field =>
  if _not_null value field then
    match value with
    | VStr s =>
        let value := str_replace s " " "T" (Some 1%nat) in
        let value := str_replace value "Z" EmptyString None in
        let value := str_replace value "+00:00" EmptyString None in
        if contains value "." then
          let* v := strptime value _RFC3339_MICROS_NO_ZULU in
          Ok (VDatetime (replace_tzinfo v (Some 0)))
        else
          let* v := strptime value _RFC3339_NO_FRACTION in
          Ok (VDatetime (replace_tzinfo v (Some 0)))
    | VBytes _ | VDate _ | VTime _ | VDatetime _ => raise TypeError
    | _ => raise AttributeError
    end
  else Ok VNone.

Section MoreHelpers.
Context `{PyRuntime}.

Definition _QUERY_PARAMS_FROM_JSON : list (string * converter) :=
  ("TIMESTAMP", _timestamp_query_param_from_json) :: _CELLDATA_FROM_JSON.

Definition _int_or_none (value : pyval) : result pyval :=
  match value with
  | VInt _ | VBool _ => Ok value
  | VNone => Ok VNone
  | _ => let* z := py_int value in Ok (VInt z)
  end.

Definition _str_or_none (value : pyval) : result pyval :=
  match value with
  | VNone => Ok VNone
  | VInt z => let* s := int_to_text z in Ok (VStr s)
  | _ => Ok (VStr (py_str value))
  end.
End MoreHelpers.

(** [{f.name: i for i, f in enumerate(schema)}], from position [i] on. *)
Fixpoint index_from (i : nat) (schema : list SchemaField)
    (mapping : gmap string nat) : gmap string nat :=
  match schema with
  | [] => mapping
  | f :: schema' => index_from (S i) schema' (<[name f := i]> mapping)
  end.

Definition _field_to_index_mapping (schema : list SchemaField)
  : gmap string nat :=
  index_from 0 schema ∅.

(** ** Resources built from an object's properties

    The object [_build_resource_from_properties] reads has a class
    constant [_PROPERTY_TO_API_FIELD], from the names of Python
    properties to the names of API fields, and a dict [_properties] of
    the API resource. *)

Record resource_object := mkObject {
  _PROPERTY_TO_API_FIELD : gmap string string;
  _properties : gmap string pyval
}.

(** [d.get(k)] *)
Definition get_or_none (d : gmap string pyval) (k : string) : pyval :=
  match d !! k with Some v => v | None => VNone end.

Fixpoint build_partial (obj : resource_object) (filter_fields : list string)
    (partial : gmap string pyval) : result (gmap string pyval) :=
  match filter_fields with
  | [] => Ok partial
  | filter_field :: rest =>
      match _PROPERTY_TO_API_FIELD obj !! filter_field with
      | None =>
          match _properties obj !! filter_field with
          | None => raise_msg ValueError ("No property " +:+ filter_field)
          | Some v => build_partial obj rest (<[filter_field := v]> partial)
          end
      | Some api_field =>
          build_partial obj rest
            (<[api_field := get_or_none (_properties obj) api_field]> partial)
      end
  end.

Definition _build_resource_from_properties (obj : resource_object)
    (filter_fields : list string) : result (gmap string pyval) :=
  build_partial obj filter_fields ∅.

(** ** Definitions for the statements and their proofs *)

Definition required_field (logical_type : string) : SchemaField :=
  mkField "col" logical_type "REQUIRED" [].
Definition nullable_field (logical_type : string) : SchemaField :=
  mkField "col" logical_type "NULLABLE" [].

(** Where a greedy repetition stops: the bound is used up, the input
    ends, or the next character is outside the class. *)
Definition stops_at (p : ascii -> bool) (hi : option nat) (rest : string)
  : bool :=
  match hi, rest with
  | Some O, _ => true
  | _, EmptyString => true
  | _, String c _ => negb (p c)
  end.

Definition within (n : nat) (hi : option nat) : bool :=
  match hi with None => true | Some m => (n <=? m)%nat end.

Definition minus_hi (hi : option nat) (n : nat) : option nat :=
  option_map (fun m => (m - n)%nat) hi.

(** A directive that reads back a two-digit field printed in the range
    [lo..hi], whatever follows it. *)
Definition two_digit_field (R : Type) (re : regex) (lo hi : Z) : Prop :=
  forall v rest g (k : @kont R) (r : R),
    lo <= v <= hi ->
    k (fmt_d0 2 v) rest g = Some r ->
    rmatch re (fmt_d0 2 v +:+ rest) g k = Some r.

(** The expressions of the formats the module uses. *)
Definition re_hms : regex :=
  RSeq (RGroup "H" re_H) (RSeq (rlit_nocase ":")
    (RSeq (RGroup "M" re_M) (RSeq (rlit_nocase ":")
      (RSeq (RGroup "S" re_S) REps)))).

Definition re_hmsf : regex :=
  RSeq (RGroup "H" re_H) (RSeq (rlit_nocase ":")
    (RSeq (RGroup "M" re_M) (RSeq (rlit_nocase ":")
      (RSeq (RGroup "S" re_S) (RSeq (rlit_nocase ".")
        (RSeq (RGroup "f" re_f) REps)))))).

Definition re_ymd : regex :=
  RSeq (RGroup "Y" re_Y) (RSeq (rlit_nocase "-")
    (RSeq (RGroup "m" re_m) (RSeq (rlit_nocase "-")
      (RSeq (RGroup "d" re_d) REps)))).

Definition re_micros : regex :=
  RSeq (RGroup "Y" re_Y) (RSeq (rlit_nocase "-")
    (RSeq (RGroup "m" re_m) (RSeq (rlit_nocase "-")
      (RSeq (RGroup "d" re_d) (RSeq (rlit_nocase "T")
        (RSeq (RGroup "H" re_H) (RSeq (rlit_nocase ":")
          (RSeq (RGroup "M" re_M) (RSeq (rlit_nocase ":")
            (RSeq (RGroup "S" re_S) (RSeq (rlit_nocase ".")
              (RSeq (RGroup "f" re_f) REps)))))))))))).

Definition leap_day : date := mkDate 2024 2 29.
Definition half_past_noon_utc : time := mkTime 12 30 0 0 (Some 0).

(** The value a dict-shaped row has for the encoder under a name:
    [row_value.get(subname)]. *)
Definition row_get (row : pydict) (k : string) : pyval :=
  match dict_get row k with Some v => v | None => VNone end.

Definition known_only : list SchemaField :=
  [ mkField "known" "INTEGER" "NULLABLE" [] ].
Definition known_and_mystery : pydict :=
  [ ("known", VInt 1); ("mystery", VInt 42) ].

Definition one_empty_dict : Props.heap := {[ 1%positive := ∅ ]}.
Definition dict_in_dict : Props.heap :=
  {[ 1%positive := {[ "a" := Props.PRef 2%positive ]}; 2%positive := ∅ ]}.

Definition leap_extra (c leap : bool) : Z := if c && leap then 1 else 0.

Definition month_of_day_check (leap : bool) (i : nat) : bool :=
  let n := Z.of_nat i in
  let '(m, d) := month_of_day n leap in
  (1 <=? m) && (m <=? 12) && (1 <=? d)
  && (d <=? DAYS_IN_MONTH m + leap_extra (m =? 2) leap)
  && (DAYS_BEFORE_MONTH m + leap_extra (2 <? m) leap + d =? n + 1).

Definition new_year_half_past_noon : datetime :=
  mkDatetime 2020 1 1 12 30 0 0 None.
Definition early_datetime : datetime := mkDatetime 999 1 2 3 4 5 6 None.

(** *** Intervals in canonical form *)







Definition dict_in_itself : Props.heap :=
  {[ 1%positive := {[ "a" := Props.PRef 1%positive ]} ]}.

(** The key a filter field is stored under: its API name when it has
    one, the field itself otherwise. *)
Definition stored_under (obj : resource_object) (filter_field : string)
  : string :=
  match _PROPERTY_TO_API_FIELD obj !! filter_field with
  | Some api_field => api_field
  | None => filter_field
  end.

Definition known_field (obj : resource_object) (filter_field : string)
  : bool :=
  bool_decide (is_Some (_PROPERTY_TO_API_FIELD obj !! filter_field))
  || bool_decide (is_Some (_properties obj !! filter_field)).

(** No character of [s] is [x]. *)
Definition free_of (x : ascii) (s : string) : bool :=
  all_chars (fun c => negb (Ascii.eqb x c)) s.

(** [s.count(c)] for one character. *)
Fixpoint count_char (x : ascii) (s : string) : nat :=
  match s with
  | EmptyString => O
  | String c s' => ((if Ascii.eqb c x then 1 else 0) + count_char x s')%nat
  end.

(** The text starts with the character. *)
Definition head_is (x : ascii) (s : string) : bool :=
  match s with
  | String c _ => Ascii.eqb x c
  | EmptyString => false
  end.

(** A part of an identifier: not empty, without dot or colon. *)
Definition id_part (w : string) : bool :=
  negb (String.eqb w EmptyString) && free_of "." w && free_of ":" w.

(** The dict that gives every subfield's name the item at its
    position: [dict(zip(names, items))] for names that differ. *)
Definition row_of (fields : list SchemaField) (items : list pyval) : pydict :=
  combine (map name fields) items.

Definition re_no_fraction : regex :=
  RSeq (RGroup "Y" re_Y) (RSeq (rlit_nocase "-")
    (RSeq (RGroup "m" re_m) (RSeq (rlit_nocase "-")
      (RSeq (RGroup "d" re_d) (RSeq (rlit_nocase "T")
        (RSeq (RGroup "H" re_H) (RSeq (rlit_nocase ":")
          (RSeq (RGroup "M" re_M) (RSeq (rlit_nocase ":")
            (RSeq (RGroup "S" re_S) REps)))))))))).

(** The offset of a datetime from UTC, none for a naive one. *)
Definition utc_offset (v : datetime) : Z :=
  match dt_tzinfo v with Some off => off | None => 0 end.

(** [_field_from_json(cell["v"], subfield)] *)
Definition cell_from_json `{PyRuntime} (cell : pyval) (subfield : SchemaField)
  : result pyval :=
  let* cv := py_getitem cell "v" in _field_from_json cv subfield.

(** *** Values the statements are tried on *)

Definition number_under_a : Props.heap :=
  {[ 1%positive := {[ "a" := Props.PInt 5 ]} ]}.

Definition table_object : resource_object :=
  mkObject {[ "friendly_name" := "friendlyName" ]}
           {[ "friendlyName" := VStr "Sales"; "labels" := VDict [] ]}.

Definition two_columns : list SchemaField :=
  [ mkField "id" "INTEGER" "REQUIRED" [];
    mkField "tag" "STRING" "NULLABLE" [] ].

Definition repeated_integers : SchemaField :=
  mkField "counts" "INTEGER" "REPEATED" [].

Definition pair_record : SchemaField :=
  mkField "pair" "RECORD" "NULLABLE" two_columns.

Definition pair_row : pydict :=
  [ ("f", VList [cell_of (VStr "7"); cell_of (VStr "x")]) ].

Definition document_record : SchemaField :=
  mkField "doc" "RECORD" "NULLABLE" [ mkField "payload" "JSON" "NULLABLE" [] ].

Definition document_row : pydict :=
  [ ("f", VList [cell_of (VStr "{}")]) ].

(** * Properties *)

(** ** Text lemmas *)

Lemma append_nil_r (s : string) : s +:+ EmptyString = s.
Proof. induction s; simpl; congruence. Qed.

Lemma append_assoc (a b c : string) : (a +:+ b) +:+ c = a +:+ (b +:+ c).
Proof. induction a; simpl; congruence. Qed.

Lemma starts_with_app (s t : string) : starts_with (s +:+ t) s = true.
Proof.
  induction s as [|c s IH]; simpl; [reflexivity|].
  now rewrite Ascii.eqb_refl.
Qed.

Lemma contains_starts_with (h n : string) :
  starts_with h n = true -> contains h n = true.
Proof. destruct h; simpl; intros ->; reflexivity. Qed.

Lemma contains_app_r (a b n : string) :
  contains b n = true -> contains (a +:+ b) n = true.
Proof.
  induction a as [|c a IH]; simpl; [tauto|].
  intros Hb. rewrite (IH Hb). apply orb_true_r.
Qed.

Lemma contains_app_mid (a b c : string) : contains (a +:+ b +:+ c) b = true.
Proof. apply contains_app_r, contains_starts_with, starts_with_app. Qed.

Section Fields.
Context `{PyRuntime}.

(** C9: encoding [None] yields [None] for every field descriptor,
    whatever its logical type and mode. *)
Theorem field_to_json_none (field : SchemaField) :
  _field_to_json field VNone = Ok VNone.
Proof. destruct field; reflexivity. Qed.

Lemma field_to_json_eq (field : SchemaField) (row_value : pyval) :
  _field_to_json field row_value =
    if is_none row_value then Ok VNone
    else if is_mode "REPEATED" field
         then _repeated_field_to_json field row_value
         else _single_field_to_json field row_value.
Proof. destruct field; reflexivity. Qed.

(** C4: a positional record value whose length differs from the number
    of subfields is rejected with a [ValueError] whose message names
    both lengths; a pair against three subfields gives a message that
    mentions 2 and 3. *)
Theorem record_arity_mismatch :
  (forall (fields : list SchemaField) (row_value : pyval)
          (items : list pyval),
      (row_value = VTuple items \/ row_value = VList items) ->
      List.length items <> List.length fields ->
      exists msg,
        _record_field_to_json fields row_value
        = Err (Raise ValueError (Some msg))
        /\ msg = arity_message (List.length items) (List.length fields)
        /\ contains msg (str_of_int (Z.of_nat (List.length items))) = true
        /\ contains msg (str_of_int (Z.of_nat (List.length fields))) = true)
  /\ (forall f1 f2 f3 a b,
        exists msg,
          _record_field_to_json [f1; f2; f3] (VTuple [a; b])
          = Err (Raise ValueError (Some msg))
          /\ contains msg "2" = true /\ contains msg "3" = true).
Proof.
  assert (Hgen : forall (fields : list SchemaField) (row_value : pyval)
          (items : list pyval),
      (row_value = VTuple items \/ row_value = VList items) ->
      List.length items <> List.length fields ->
      exists msg,
        _record_field_to_json fields row_value
        = Err (Raise ValueError (Some msg))
        /\ msg = arity_message (List.length items) (List.length fields)
        /\ contains msg (str_of_int (Z.of_nat (List.length items))) = true
        /\ contains msg (str_of_int (Z.of_nat (List.length fields))) = true).
  { intros fields row_value items Hrow Hlen.
    exists (arity_message (List.length items) (List.length fields)).
    assert (Hneq : (List.length items =? List.length fields)%nat = false)
      by (apply Nat.eqb_neq; exact Hlen).
    repeat split.
    - destruct Hrow as [-> | ->];
        unfold _record_field_to_json, record_field_to_json_with; simpl;
        rewrite Hneq; reflexivity.
    - unfold arity_message. apply contains_app_mid.
    - unfold arity_message.
      apply contains_app_r, contains_app_r, contains_app_mid. }
  split; [exact Hgen|].
  intros f1 f2 f3 a b.
  destruct (Hgen [f1; f2; f3] (VTuple [a; b]) [a; b]) as (msg & E & _ & C2 & C3);
    [left; reflexivity | simpl; lia |].
  exists msg. repeat split; assumption.
Qed.

Lemma table_get_absent {A} (t : list (string * A)) (k : string) :
  ~ In k (map fst t) -> table_get t k = None.
Proof.
  induction t as [|[k' a] t IH]; simpl; [reflexivity|].
  intros Hn. destruct (String.eqb_spec k' k) as [->|_]; [tauto|].
  apply IH. tauto.
Qed.

Lemma mapM_cells (items : list pyval) :
  mapM (fun item => let* v := py_getitem item "v" in Ok v)
       (map cell_of items) = Ok items.
Proof.
  induction items as [|x items IH]; simpl; [reflexivity|].
  now rewrite IH.
Qed.

(** C10: for a field whose logical type is not a key of the decoder
    table, decoding is the identity on the wire value, and for a
    REPEATED such field it returns the elements' values as they are. *)
Theorem field_from_json_unregistered (field : SchemaField) :
  ~ In (field_type field) (map fst _CELLDATA_FROM_JSON) ->
  (mode field <> "REPEATED" ->
   forall resource, _field_from_json resource field = Ok resource)
  /\ (mode field = "REPEATED" ->
      forall items,
        _field_from_json (VList (map cell_of items)) field
        = Ok (VList items)).
Proof.
  intros Hty. unfold _field_from_json, is_mode.
  rewrite (table_get_absent _ _ Hty). split.
  - intros Hmode resource.
    destruct (String.eqb_spec (mode field) "REPEATED"); [tauto|reflexivity].
  - intros Hmode items. rewrite Hmode. simpl.
    unfold convert_items. simpl. now rewrite mapM_cells.
Qed.

Lemma not_null_required (field : SchemaField) :
  mode field = "REQUIRED" -> _not_null VNone (Some field) = true.
Proof. unfold _not_null. intros ->. reflexivity. Qed.

Ltac each_type Hin :=
  simpl in Hin;
  repeat (destruct Hin as [<- | Hin]; [|]); [.. | contradiction].

(** C1, as the code has it: decoding a null wire value against a
    REQUIRED field raises a [TypeError] for the integer, float,
    numeric, bytes, timestamp, datetime, date, time and interval types;
    for BOOLEAN and BOOL it raises an [AttributeError]; for STRING and
    GEOGRAPHY it returns the null as it is. *)
Theorem required_null_decoding (logical_type : string)
    (field : SchemaField) :
  mode field = "REQUIRED" ->
  (In logical_type
      [ "INTEGER"; "INT64"; "FLOAT"; "FLOAT64"; "NUMERIC"; "BIGNUMERIC";
        "BYTES"; "TIMESTAMP"; "DATETIME"; "DATE"; "TIME"; "INTERVAL" ] ->
   raises TypeError (decode_cell logical_type VNone field))
  /\ (In logical_type [ "BOOLEAN"; "BOOL" ] ->
      raises AttributeError (decode_cell logical_type VNone field))
  /\ (In logical_type [ "STRING"; "GEOGRAPHY" ] ->
      decode_cell logical_type VNone field = Ok VNone).
Proof.
  intros Hmode. pose proof (not_null_required field Hmode) as Hnn.
  repeat split; intros Hin; each_type Hin;
    unfold decode_cell; simpl;
    try reflexivity;
    unfold _int_from_json, _float_from_json, _decimal_from_json,
      _bytes_from_json, _timestamp_from_json, _datetime_from_json,
      _date_from_json, _time_from_json, _interval_from_json,
      _bool_from_json;
    rewrite Hnn; simpl; eexists; reflexivity.
Qed.
End Fields.

Lemma field_from_json_unregistered_witness :
  _field_from_json (H := plain_runtime) (VStr "{}") (nullable_field "JSON")
  = Ok (VStr "{}").
Proof.
  apply (field_from_json_unregistered (H := plain_runtime)
           (nullable_field "JSON")).
  - simpl. intuition discriminate.
  - simpl. discriminate.
Defined.

Lemma required_null_decoding_witness :
  raises TypeError
    (decode_cell (H := plain_runtime) "INTEGER" VNone (required_field "INTEGER")).
Proof.
  apply (required_null_decoding (H := plain_runtime) "INTEGER"
           (required_field "INTEGER")).
  - reflexivity.
  - simpl. tauto.
Defined.

(** C1 as stated fails: a STRING column declared REQUIRED decodes a null
    wire value to [None], without any error. *)
Lemma required_null_string_counterexample :
  In "STRING" (map fst (_CELLDATA_FROM_JSON (H := plain_runtime)))
  /\ mode (required_field "STRING") = "REQUIRED"
  /\ decode_cell (H := plain_runtime) "STRING" VNone (required_field "STRING")
     = Ok VNone
  /\ ~ raises TypeError
       (decode_cell (H := plain_runtime) "STRING" VNone
          (required_field "STRING")).
Proof.
  repeat split.
  - simpl. tauto.
  - intros [m Hm]. discriminate Hm.
Qed.

Section TimeDecoding.
Context `{PyRuntime}.

(** C6: a TIME wire text of 8 characters is parsed with [%H:%M:%S], one
    of 15 characters with [%H:%M:%S.%f], and any other length is a
    [ValueError] whose message includes the text. *)
Theorem time_length_dispatch :
  (forall (s : string) (field : option SchemaField),
      _time_from_json (VStr s) field
      = if Nat.eqb (String.length s) 8 then
          let* v := strptime s "%H:%M:%S" in Ok (VTime (datetime_time v))
        else if Nat.eqb (String.length s) 15 then
          let* v := strptime s "%H:%M:%S.%f" in
          Ok (VTime (datetime_time v))
        else raise_msg ValueError ("Unknown time format: " +:+ s))
  /\ (forall s, contains ("Unknown time format: " +:+ s) s = true)
  /\ (forall field,
        _time_from_json (VStr "12:30:00") field
        = Ok (VTime (mkTime 12 30 0 0 None)))
  /\ (forall field,
        _time_from_json (VStr "12:30:00.123456") field
        = Ok (VTime (mkTime 12 30 0 123456 None)))
  /\ (forall field,
        _time_from_json (VStr "12:30") field
        = raise_msg ValueError "Unknown time format: 12:30").
Proof.
  split; [|split; [|repeat split]].
  - intros s field. unfold _time_from_json. simpl.
    destruct (Nat.eqb_spec (String.length s) 8) as [E8|N8].
    + rewrite E8. reflexivity.
    + replace (Z.of_nat (String.length s) =? 8) with false
        by (symmetry; apply Z.eqb_neq; lia).
      destruct (Nat.eqb_spec (String.length s) 15) as [E15|N15].
      * rewrite E15. reflexivity.
      * replace (Z.of_nat (String.length s) =? 15) with false
          by (symmetry; apply Z.eqb_neq; lia).
        reflexivity.
  - intros s.
    apply contains_app_r, contains_starts_with.
    rewrite <- (append_nil_r s) at 1. apply starts_with_app.
Qed.
End TimeDecoding.


(** ** Decimal digits *)

Lemma digit_range (d : Z) :
  0 <= d <= 9 ->
  d = 0 \/ d = 1 \/ d = 2 \/ d = 3 \/ d = 4 \/ d = 5 \/ d = 6 \/ d = 7
  \/ d = 8 \/ d = 9.
Proof. lia. Qed.

Ltac each_digit d Hd :=
  destruct (digit_range d Hd)
    as [-> | [-> | [-> | [-> | [-> | [-> | [-> | [-> | [-> | ->]]]]]]]]].

Lemma is_digit_digit_char (d : Z) : 0 <= d <= 9 -> is_digit (digit_char d) = true.
Proof. intros Hd. each_digit d Hd; reflexivity. Qed.

Lemma digit_val_digit_char (d : Z) : 0 <= d <= 9 -> digit_val (digit_char d) = d.
Proof. intros Hd. each_digit d Hd; reflexivity. Qed.

Lemma mod10_range (n : Z) : 0 <= n mod 10 <= 9.
Proof. pose proof (Z.mod_pos_bound n 10). lia. Qed.

Lemma is_digit_not_space (c : ascii) :
  is_digit c = true -> is_int_space c = false.
Proof.
  unfold is_digit, is_int_space. intros Hd.
  apply andb_true_iff in Hd as [H1 H2].
  apply Z.leb_le in H1. apply Z.leb_le in H2.
  repeat match goal with
         | |- context [?a <=? ?b] => destruct (Z.leb_spec a b)
         | |- context [?a =? ?b] => destruct (Z.eqb_spec a b)
         end; simpl; try reflexivity; lia.
Qed.

Lemma digits_fuel_acc (f : nat) (n : Z) (acc : string) :
  digits_fuel f n acc = digits_fuel f n EmptyString +:+ acc.
Proof.
  revert n acc. induction f as [|f IH]; intros n acc; simpl; [reflexivity|].
  destruct (n <? 10); [reflexivity|].
  rewrite IH. rewrite (IH _ (String _ EmptyString)).
  now rewrite append_assoc.
Qed.

Lemma digits_fuel_enough (f1 f2 : nat) (n : Z) (acc : string) :
  0 <= n -> n < 2 ^ Z.of_nat (S f1) -> n < 2 ^ Z.of_nat (S f2) ->
  digits_fuel (S f1) n acc = digits_fuel (S f2) n acc.
Proof.
  revert f2 n acc. induction f1 as [|f1 IH]; intros f2 n acc Hn H1 H2.
  - change (2 ^ Z.of_nat 1) with 2 in H1.
    simpl. destruct (Z.ltb_spec n 10); [reflexivity | lia].
  - cbn [digits_fuel]. destruct (Z.ltb_spec n 10) as [|Hge]; [reflexivity|].
    assert (Hq : 0 <= n / 10) by (apply Z.div_pos; lia).
    assert (Hhalf : forall k : nat, n < 2 ^ Z.of_nat (S k) -> n / 10 < 2 ^ Z.of_nat k).
    { intros k Hk. rewrite Nat2Z.inj_succ, Z.pow_succ_r in Hk by lia.
      apply Z.div_lt_upper_bound; lia. }
    destruct f2 as [|f2].
    + change (2 ^ Z.of_nat 1) with 2 in H2. lia.
    + apply IH; auto.
Qed.

Lemma log2_fuel (n : Z) :
  0 <= n -> n < 2 ^ Z.of_nat (S (Z.to_nat (Z.log2 n))).
Proof.
  intros Hn. rewrite Nat2Z.inj_succ, Z2Nat.id by apply Z.log2_nonneg.
  destruct (Z.eq_dec n 0) as [->|Hne]; [reflexivity|].
  apply Z.log2_spec. lia.
Qed.

Lemma str_of_nonneg_small (n : Z) :
  0 <= n < 10 -> str_of_nonneg n = String (digit_char n) EmptyString.
Proof.
  intros Hn. unfold str_of_nonneg. simpl.
  destruct (Z.ltb_spec n 10); [|lia].
  now rewrite Z.mod_small by lia.
Qed.

Lemma str_of_nonneg_step (n : Z) :
  10 <= n ->
  str_of_nonneg n
  = str_of_nonneg (n / 10) +:+ String (digit_char (n mod 10)) EmptyString.
Proof.
  intros Hn. unfold str_of_nonneg at 1. cbn [digits_fuel].
  destruct (Z.ltb_spec n 10); [lia|].
  rewrite digits_fuel_acc. f_equal.
  assert (Hq : 1 <= n / 10) by (apply Z.div_le_lower_bound; lia).
  pose proof (log2_fuel n ltac:(lia)) as Hf.
  assert (Hlog : 1 <= Z.log2 n).
  { change 1 with (Z.log2 2). apply Z.log2_le_mono. lia. }
  destruct (Z.to_nat (Z.log2 n)) as [|k] eqn:Ek; [lia|].
  unfold str_of_nonneg. apply digits_fuel_enough; [lia | | apply log2_fuel; lia].
  rewrite Nat2Z.inj_succ, Z.pow_succ_r in Hf by lia.
  apply Z.div_lt_upper_bound; lia.
Qed.

Lemma all_chars_app (p : ascii -> bool) (a b : string) :
  all_chars p (a +:+ b) = all_chars p a && all_chars p b.
Proof. induction a; simpl; [reflexivity|]. now rewrite IHa, andb_assoc. Qed.

Lemma length_app (a b : string) :
  String.length (a +:+ b) = (String.length a + String.length b)%nat.
Proof. induction a; simpl; congruence. Qed.

(** Strong induction on the digits of a number. *)
Lemma digits_ind (P : Z -> Prop) :
  (forall n, 0 <= n < 10 -> P n) ->
  (forall n, 10 <= n -> P (n / 10) -> P n) ->
  forall n, 0 <= n -> P n.
Proof.
  intros Hsmall Hstep. apply Zlt_0_ind. intros n IH Hn.
  destruct (Z_lt_le_dec n 10) as [Hlt|Hge].
  - apply Hsmall. lia.
  - apply Hstep; [exact Hge|]. apply IH.
    split; [apply Z.div_pos; lia | apply Z.div_lt_upper_bound; lia].
Qed.

Lemma str_of_nonneg_digits (n : Z) :
  0 <= n -> all_chars is_digit (str_of_nonneg n) = true.
Proof.
  revert n. apply digits_ind.
  - intros n Hn. rewrite str_of_nonneg_small by exact Hn. simpl.
    rewrite is_digit_digit_char by lia. reflexivity.
  - intros n Hn IH. rewrite str_of_nonneg_step by exact Hn.
    rewrite all_chars_app, IH. simpl.
    rewrite is_digit_digit_char by apply mod10_range. reflexivity.
Qed.

Lemma str_of_nonneg_nonempty (n : Z) :
  0 <= n -> str_of_nonneg n <> EmptyString.
Proof.
  intros Hn. destruct (Z_lt_le_dec n 10) as [Hlt|Hge].
  - rewrite str_of_nonneg_small by lia. discriminate.
  - rewrite str_of_nonneg_step by exact Hge.
    destruct (str_of_nonneg (n / 10)); discriminate.
Qed.

(** ** Reading digits back *)

Lemma int_digits_str (n : Z) :
  0 <= n ->
  exists k : Z, 0 <= k /\
    forall t a b,
      int_digits (str_of_nonneg n +:+ t) a b = int_digits t (a * 10 ^ k + n) true.
Proof.
  revert n. apply digits_ind.
  - intros n Hn. exists 1. split; [lia|]. intros t a b.
    rewrite str_of_nonneg_small by exact Hn. simpl.
    rewrite is_digit_digit_char, digit_val_digit_char by lia.
    f_equal. lia.
  - intros n Hn (k & Hk & IH). exists (k + 1). split; [lia|]. intros t a b.
    rewrite str_of_nonneg_step by exact Hn.
    rewrite append_assoc, IH. simpl.
    rewrite is_digit_digit_char, digit_val_digit_char by apply mod10_range.
    f_equal. rewrite Z.pow_add_r by lia.
    pose proof (Z.div_mod n 10 ltac:(lia)). lia.
Qed.

Lemma lstrip_nonspace (sp : ascii -> bool) (c : ascii) (s : string) :
  sp c = false -> lstrip sp (String c s) = String c s.
Proof. simpl. now intros ->. Qed.

Lemma rstrip_nonspace (sp : ascii -> bool) (s : string) :
  all_chars (fun c => negb (sp c)) s = true -> rstrip sp s = s.
Proof.
  induction s as [|c s IH]; simpl; [reflexivity|].
  intros Hc. apply andb_true_iff in Hc as [Hc Hs].
  rewrite (IH Hs). apply negb_true_iff in Hc. rewrite Hc.
  destruct s; reflexivity.
Qed.

Lemma all_chars_impl (p q : ascii -> bool) (s : string) :
  (forall c, p c = true -> q c = true) ->
  all_chars p s = true -> all_chars q s = true.
Proof.
  intros Hpq. induction s as [|c s IH]; simpl; [reflexivity|].
  intros Hc. apply andb_true_iff in Hc as [Hc Hs].
  now rewrite (Hpq _ Hc), (IH Hs).
Qed.

Lemma strip_digits (s : string) :
  all_chars is_digit s = true -> strip is_int_space s = s.
Proof.
  intros Hd. unfold strip.
  assert (Hl : lstrip is_int_space s = s).
  { destruct s as [|c s]; [reflexivity|]. simpl in Hd.
    apply andb_true_iff in Hd as [Hc _].
    apply lstrip_nonspace, is_digit_not_space, Hc. }
  rewrite Hl. apply rstrip_nonspace.
  apply (all_chars_impl is_digit); [|exact Hd].
  intros c Hc. now rewrite (is_digit_not_space c Hc).
Qed.

Lemma int_of_string_digits (s : string) :
  all_chars is_digit s = true ->
  int_of_string s = int_digits s 0 false.
Proof.
  intros Hd. unfold int_of_string. rewrite (strip_digits s Hd).
  destruct s as [|c r]; [reflexivity|].
  simpl in Hd. apply andb_true_iff in Hd as [Hc _].
  destruct c as [[] [] [] [] [] [] [] []];
    try discriminate Hc; reflexivity.
Qed.

Lemma int_of_string_nonneg (n : Z) :
  0 <= n -> int_of_string (str_of_nonneg n) = Some n.
Proof.
  intros Hn. rewrite int_of_string_digits by now apply str_of_nonneg_digits.
  destruct (int_digits_str n Hn) as (k & _ & Hk).
  specialize (Hk EmptyString 0 false). rewrite append_nil_r in Hk.
  rewrite Hk. reflexivity.
Qed.

(** [int(str(z)) == z] *)
Lemma int_of_string_str_of_int (z : Z) : int_of_string (str_of_int z) = Some z.
Proof.
  unfold str_of_int. destruct (Z.ltb_spec z 0) as [Hneg|Hpos].
  - unfold int_of_string.
    assert (Hd := str_of_nonneg_digits (- z) ltac:(lia)).
    assert (Hs : strip is_int_space (String "-" (str_of_nonneg (- z)))
                 = String "-" (str_of_nonneg (- z))).
    { unfold strip. rewrite lstrip_nonspace by reflexivity.
      apply rstrip_nonspace. simpl.
      apply (all_chars_impl is_digit); [|exact Hd].
      intros c Hc. now rewrite (is_digit_not_space c Hc). }
    rewrite Hs.
    destruct (int_digits_str (- z) ltac:(lia)) as (k & _ & Hk).
    specialize (Hk EmptyString 0 false). rewrite append_nil_r in Hk.
    rewrite Hk. simpl. f_equal. lia.
  - apply int_of_string_nonneg. exact Hpos.
Qed.

(** ** Zero-padded fields *)

Lemma repeat_char_snoc (c : ascii) (n : nat) :
  repeat_char c n +:+ String c EmptyString = String c (repeat_char c n).
Proof. induction n as [|n IH]; simpl; [reflexivity|]. now rewrite IH. Qed.

Lemma fixed_digits_zero (w : nat) : fixed_digits w 0 = repeat_char "0" w.
Proof.
  induction w as [|w IH]; [reflexivity|].
  cbn [fixed_digits]. change (0 / 10) with 0. rewrite IH.
  change (digit_char (0 mod 10)) with "0"%char.
  apply repeat_char_snoc.
Qed.

Lemma padded_fixed (w : nat) (n : Z) :
  0 <= n < 10 ^ Z.of_nat (S w) ->
  repeat_char "0" (S w - String.length (str_of_nonneg n)) +:+ str_of_nonneg n
  = fixed_digits (S w) n.
Proof.
  revert n. induction w as [|w IH]; intros n Hn.
  - change (10 ^ Z.of_nat 1) with 10 in Hn.
    rewrite str_of_nonneg_small by lia. simpl.
    rewrite Z.mod_small by lia. reflexivity.
  - destruct (Z_lt_le_dec n 10) as [Hlt|Hge].
    + rewrite str_of_nonneg_small by lia.
      change (fixed_digits (S (S w)) n)
        with (fixed_digits (S w) (n / 10)
              +:+ String (digit_char (n mod 10)) EmptyString).
      rewrite (Z.div_small n 10), (Z.mod_small n 10) by lia.
      cbn [String.length].
      replace (S (S w) - 1)%nat with (S w) by lia.
      rewrite <- (fixed_digits_zero (S w)). reflexivity.
    + rewrite str_of_nonneg_step by exact Hge.
      change (fixed_digits (S (S w)) n)
        with (fixed_digits (S w) (n / 10)
              +:+ String (digit_char (n mod 10)) EmptyString).
      rewrite length_app. cbn [String.length].
      replace (S (S w) - (String.length (str_of_nonneg (n / 10)) + 1))%nat
        with (S w - String.length (str_of_nonneg (n / 10)))%nat by lia.
      rewrite <- append_assoc. rewrite IH; [reflexivity|].
      split; [apply Z.div_pos; lia|].
      apply Z.div_lt_upper_bound; [lia|].
      rewrite (Nat2Z.inj_succ (S w)), Z.pow_succ_r in Hn by lia. lia.
Qed.

(** A field printed with ["%0<w>d"] is exactly [w] digits when it fits. *)
Lemma fmt_d0_fixed (w : nat) (n : Z) :
  0 <= n < 10 ^ Z.of_nat (S w) -> fmt_d0 (S w) n = fixed_digits (S w) n.
Proof.
  intros Hn. unfold fmt_d0.
  destruct (Z.ltb_spec n 0); [lia|].
  rewrite Z.abs_eq by lia. cbn [String.length Nat.add].
  change (EmptyString +:+ ?x) with x.
  apply padded_fixed. exact Hn.
Qed.

(** A year of four digits reads the same padded or not. *)
Lemma str_of_int_four_digits (y : Z) :
  1000 <= y <= 9999 -> str_of_int y = fmt_d0 4 y.
Proof.
  intros Hy.
  rewrite (fmt_d0_fixed 3) by (change (10 ^ Z.of_nat 4) with 10000; lia).
  unfold str_of_int. destruct (Z.ltb_spec y 0); [lia|].
  rewrite (str_of_nonneg_step y) by lia.
  rewrite (str_of_nonneg_step (y / 10))
    by (Z.div_mod_to_equations; lia).
  rewrite (str_of_nonneg_step (y / 10 / 10))
    by (Z.div_mod_to_equations; lia).
  rewrite (str_of_nonneg_small (y / 10 / 10 / 10))
    by (Z.div_mod_to_equations; lia).
  cbn [fixed_digits].
  rewrite (Z.mod_small (y / 10 / 10 / 10) 10)
    by (Z.div_mod_to_equations; lia).
  reflexivity.
Qed.

Lemma fixed_digits_all (w : nat) (n : Z) :
  all_chars is_digit (fixed_digits w n) = true.
Proof.
  revert n. induction w as [|w IH]; intros n; [reflexivity|].
  cbn [fixed_digits]. rewrite all_chars_app, IH. simpl.
  now rewrite is_digit_digit_char by apply mod10_range.
Qed.

Lemma fixed_digits_length (w : nat) (n : Z) :
  String.length (fixed_digits w n) = w.
Proof.
  revert n. induction w as [|w IH]; intros n; [reflexivity|].
  cbn [fixed_digits]. rewrite length_app, IH. simpl. lia.
Qed.

Lemma int_digits_fixed (w : nat) (n : Z) (t : string) (a : Z) (b : bool) :
  0 <= n < 10 ^ Z.of_nat w ->
  int_digits (fixed_digits w n +:+ t) a b
  = int_digits t (a * 10 ^ Z.of_nat w + n)
      (match w with O => b | S _ => true end).
Proof.
  revert n t a b. induction w as [|w IH]; intros n t a b Hn.
  - change (10 ^ Z.of_nat 0) with 1 in *. simpl.
    f_equal. lia.
  - cbn [fixed_digits]. rewrite append_assoc.
    rewrite Nat2Z.inj_succ, Z.pow_succ_r in * by lia.
    rewrite IH.
    2:{ split; [apply Z.div_pos; lia | apply Z.div_lt_upper_bound; lia]. }
    simpl.
    rewrite is_digit_digit_char, digit_val_digit_char by apply mod10_range.
    f_equal. pose proof (Z.div_mod n 10 ltac:(lia)). lia.
Qed.

Lemma int_of_string_fixed (w : nat) (n : Z) :
  0 <= n < 10 ^ Z.of_nat (S w) ->
  int_of_string (fixed_digits (S w) n) = Some n.
Proof.
  intros Hn. rewrite int_of_string_digits by apply fixed_digits_all.
  rewrite <- (append_nil_r (fixed_digits (S w) n)).
  rewrite int_digits_fixed by exact Hn. simpl. f_equal; lia.
Qed.

Lemma int_of_string_fmt (w : nat) (n : Z) :
  0 <= n < 10 ^ Z.of_nat (S w) -> int_of_string (fmt_d0 (S w) n) = Some n.
Proof.
  intros Hn. rewrite fmt_d0_fixed by exact Hn.
  now apply int_of_string_fixed.
Qed.

(** The two digits of a field below one hundred. *)
Lemma fmt_d0_2 (n : Z) :
  0 <= n < 100 ->
  fmt_d0 2 n
  = String (digit_char (n / 10)) (String (digit_char (n mod 10)) EmptyString).
Proof.
  intros Hn. rewrite fmt_d0_fixed by (change (10 ^ Z.of_nat 2) with 100; lia).
  cbn [fixed_digits].
  assert (Hq : 0 <= n / 10 < 10).
  { split; [apply Z.div_pos; lia | apply Z.div_lt_upper_bound; lia]. }
  rewrite (Z.mod_small (n / 10)) by lia.
  reflexivity.
Qed.

(** ** Matching printed fields *)

Section MatchLemmas.
Context {R : Type}.
Implicit Types (k : @kont R) (g : groups) (r : R).

Lemma rmatch_group (n : string) (re : regex) (s : string) g k :
  rmatch (RGroup n re) s g k
  = rmatch re s g (fun c s' g' => k c s' ((n, c) :: g')).
Proof. reflexivity. Qed.

Lemma rmatch_seq (r1 r2 : regex) (s : string) g k :
  rmatch (RSeq r1 r2) s g k
  = rmatch r1 s g (fun c1 s1 g1 =>
      rmatch r2 s1 g1 (fun c2 s2 g2 => k (c1 +:+ c2) s2 g2)).
Proof. reflexivity. Qed.

Lemma rmatch_lit_nocase (c : ascii) (rest : string) g k :
  rmatch (rlit_nocase c) (String c rest) g k
  = k (String c EmptyString) rest g.
Proof. simpl. now rewrite Ascii.eqb_refl. Qed.

Lemma rmatch_lit (c : ascii) (rest : string) g k :
  rmatch (rlit c) (String c rest) g k = k (String c EmptyString) rest g.
Proof. simpl. now rewrite Ascii.eqb_refl. Qed.

Lemma rep_greedy_take (p : ascii -> bool) (ds : string) :
  forall (lo : nat) (hi : option nat) (acc rest : string) g k r,
    all_chars p ds = true ->
    (lo <= String.length ds)%nat ->
    within (String.length ds) hi = true ->
    stops_at p (minus_hi hi (String.length ds)) rest = true ->
    k (acc +:+ ds) rest g = Some r ->
    rep_greedy p lo hi acc (ds +:+ rest) g k = Some r.
Proof.
  induction ds as [|c ds IH]; intros lo hi acc rest g k r Hall Hlo Hhi Hstop Hk.
  - simpl in *. rewrite append_nil_r in Hk.
    assert (lo = O) by lia. subst lo.
    destruct rest as [|c s'].
    + exact Hk.
    + simpl. destruct hi as [[|m]|]; simpl in *.
      * rewrite andb_false_r. exact Hk.
      * apply negb_true_iff in Hstop. rewrite Hstop. exact Hk.
      * apply negb_true_iff in Hstop. rewrite Hstop. exact Hk.
  - simpl in Hall. apply andb_true_iff in Hall as [Hc Hall].
    simpl String.append. cbn [rep_greedy]. rewrite Hc.
    assert (Hnz : match hi with Some O => false | _ => true end = true).
    { destruct hi as [[|m]|]; [discriminate Hhi| |]; reflexivity. }
    rewrite Hnz. simpl andb. cbv iota.
    rewrite (IH (Nat.pred lo) (option_map Nat.pred hi)
                (acc +:+ String c EmptyString) rest g k r); try assumption.
    + reflexivity.
    + simpl in Hlo. lia.
    + destruct hi as [m|]; [|reflexivity].
      unfold within in *. cbn [option_map String.length] in *.
      apply Nat.leb_le. apply Nat.leb_le in Hhi. lia.
    + destruct hi as [m|]; [|exact Hstop].
      unfold minus_hi in *. cbn [option_map String.length] in *.
      replace (Nat.pred m - String.length ds)%nat
        with (m - S (String.length ds))%nat by lia.
      exact Hstop.
    + rewrite append_assoc. exact Hk.
Qed.
End MatchLemmas.

(** Enumeration of a bounded integer. *)
Lemma range_cases (P : Z -> Prop) (lo : Z) (n : nat) :
  (forall i : nat, (i < n)%nat -> P (lo + Z.of_nat i)) ->
  forall z, lo <= z < lo + Z.of_nat n -> P z.
Proof.
  intros Hi z Hz. replace z with (lo + Z.of_nat (Z.to_nat (z - lo))) by lia.
  apply Hi. lia.
Qed.

Ltac by_cases tac :=
  let i := fresh "i" in
  let Hi := fresh "Hi" in
  intros i Hi;
  repeat (destruct i as [|i]; [tac | try (exfalso; lia)]).

Section TwoDigits.
Context {R : Type}.
Implicit Types (k : @kont R) (g : groups) (r : R).

Ltac two_digits m :=
  intros v rest g k r Hv; revert k r;
  rewrite fmt_d0_2 by lia;
  revert v Hv;
  match goal with
  | |- forall v, ?lo <= v <= ?hi -> @?P v =>
      intros v Hv; apply (range_cases P lo m); [|lia]
  end;
  by_cases
    ltac:(intros k r Hk; vm_compute in Hk; vm_compute;
          rewrite Hk; reflexivity).

Lemma match_H : two_digit_field R re_H 0 23.
Proof. two_digits 24%nat. Qed.

Lemma match_M : two_digit_field R re_M 0 59.
Proof. two_digits 60%nat. Qed.

Lemma match_S : two_digit_field R re_S 0 59.
Proof. two_digits 60%nat. Qed.

Lemma match_m : two_digit_field R re_m 1 12.
Proof. two_digits 12%nat. Qed.

Lemma match_d : two_digit_field R re_d 1 31.
Proof. two_digits 31%nat. Qed.
End TwoDigits.

Section WiderFields.
Context {R : Type}.
Implicit Types (k : @kont R) (g : groups) (r : R).

Lemma match_Y (y : Z) (rest : string) g k r :
  0 <= y < 10000 ->
  k (fmt_d0 4 y) rest g = Some r ->
  rmatch re_Y (fmt_d0 4 y +:+ rest) g k = Some r.
Proof.
  intros Hy. rewrite fmt_d0_fixed by (change (10 ^ Z.of_nat 4) with 10000; lia).
  cbn [fixed_digits]. cbn [String.append].
  intros Hk. unfold re_Y, rdigit. cbn [rseq rmatch].
  rewrite !is_digit_digit_char by apply mod10_range.
  cbn [String.append]. exact Hk.
Qed.

Lemma match_f (us : Z) (rest : string) g k r :
  0 <= us < 1000000 ->
  k (fmt_d0 6 us) rest g = Some r ->
  rmatch re_f (fmt_d0 6 us +:+ rest) g k = Some r.
Proof.
  intros Hus.
  rewrite fmt_d0_fixed by (change (10 ^ Z.of_nat 6) with 1000000; lia).
  intros Hk. unfold re_f. cbn [rmatch].
  apply rep_greedy_take.
  - apply fixed_digits_all.
  - rewrite fixed_digits_length. lia.
  - rewrite fixed_digits_length. reflexivity.
  - rewrite fixed_digits_length. reflexivity.
  - exact Hk.
Qed.
End WiderFields.

Lemma group_here (n v : string) (g : groups) : group ((n, v) :: g) n = Some v.
Proof. simpl. now rewrite String.eqb_refl. Qed.

Lemma group_next (n n' v : string) (g : groups) :
  n' <> n -> group ((n', v) :: g) n = group g n.
Proof. intros Hn. simpl. destruct (String.eqb_spec n' n); [tauto|reflexivity]. Qed.

Ltac groups :=
  unfold group_int, group_fraction;
  repeat first [ rewrite group_here
               | rewrite group_next by discriminate ];
  cbn [group].

(** One step of matching a printed text against a format. *)
Ltac match_step :=
  cbv beta;
  lazymatch goal with
  | |- rmatch (RSeq _ _) _ _ _ = _ => rewrite rmatch_seq
  | |- rmatch (RGroup _ _) _ _ _ = _ => rewrite rmatch_group
  | |- rmatch re_H _ _ _ = _ => eapply match_H; [lia|]
  | |- rmatch re_M _ _ _ = _ => eapply match_M; [lia|]
  | |- rmatch re_S _ _ _ = _ => eapply match_S; [lia|]
  | |- rmatch re_m _ _ _ = _ => eapply match_m; [lia|]
  | |- rmatch re_d _ _ _ = _ => eapply match_d; [lia|]
  | |- rmatch re_Y _ _ _ = _ => eapply match_Y; [lia|]
  | |- rmatch re_f _ _ _ = _ => eapply match_f; [lia|]
  | |- rmatch (rlit_nocase _) _ _ _ = _ =>
      cbn [String.append]; rewrite rmatch_lit_nocase
  | |- rmatch REps _ _ _ = _ => cbn [rmatch]
  end.

Lemma format_hms : format_regex (parse_format "%H:%M:%S") false = Some re_hms.
Proof. reflexivity. Qed.

Lemma match_hms (h mi s : Z) :
  valid_hmsu h mi s 0 = true ->
  exists c,
    re_match re_hms
      (fmt_d0 2 h +:+ ":" +:+ fmt_d0 2 mi +:+ ":" +:+ fmt_d0 2 s +:+ EmptyString)
    = Some (c, EmptyString,
            [("S", fmt_d0 2 s); ("M", fmt_d0 2 mi); ("H", fmt_d0 2 h)]).
Proof.
  unfold valid_hmsu. intros Hv.
  repeat (apply andb_true_iff in Hv as [Hv ?]).
  repeat match goal with H : (_ <=? _) = true |- _ => apply Z.leb_le in H end.
  eexists. unfold re_match, re_hms.
  repeat match_step. reflexivity.
Qed.

Lemma format_hmsf :
  format_regex (parse_format _TIMEONLY_W_MICROS) false = Some re_hmsf.
Proof. reflexivity. Qed.

Lemma format_ymd : format_regex (parse_format "%Y-%m-%d") false = Some re_ymd.
Proof. reflexivity. Qed.

Lemma format_micros :
  format_regex (parse_format _RFC3339_MICROS_NO_ZULU) false = Some re_micros.
Proof. reflexivity. Qed.

Ltac split_valid Hv :=
  repeat (apply andb_true_iff in Hv as [Hv ?]);
  repeat match goal with
         | H : (_ <=? _) = true |- _ => apply Z.leb_le in H
         end.

Lemma days_in_month_le (y m : Z) : days_in_month y m <= 31.
Proof.
  unfold days_in_month. destruct ((m =? 2) && is_leap y); [lia|].
  unfold DAYS_IN_MONTH.
  destruct m as [|p|p]; try lia.
  do 4 (destruct p as [p|p|]; try lia).
Qed.

Lemma match_hmsf (h mi s us : Z) :
  valid_hmsu h mi s us = true ->
  exists c,
    re_match re_hmsf
      (fmt_d0 2 h +:+ ":" +:+ fmt_d0 2 mi +:+ ":" +:+ fmt_d0 2 s +:+ "."
       +:+ fmt_d0 6 us +:+ EmptyString)
    = Some (c, EmptyString,
            [("f", fmt_d0 6 us); ("S", fmt_d0 2 s); ("M", fmt_d0 2 mi);
             ("H", fmt_d0 2 h)]).
Proof.
  unfold valid_hmsu. intros Hv. split_valid Hv.
  eexists. unfold re_match, re_hmsf.
  repeat match_step. reflexivity.
Qed.

Lemma match_ymd (y m d : Z) :
  valid_ymd y m d = true ->
  exists c,
    re_match re_ymd
      (fmt_d0 4 y +:+ "-" +:+ fmt_d0 2 m +:+ "-" +:+ fmt_d0 2 d +:+ EmptyString)
    = Some (c, EmptyString,
            [("d", fmt_d0 2 d); ("m", fmt_d0 2 m); ("Y", fmt_d0 4 y)]).
Proof.
  unfold valid_ymd, MINYEAR, MAXYEAR. intros Hv. split_valid Hv.
  pose proof (days_in_month_le y m).
  eexists. unfold re_match, re_ymd.
  repeat match_step. reflexivity.
Qed.

Lemma match_micros (y m d h mi s us : Z) :
  valid_ymd y m d = true ->
  valid_hmsu h mi s us = true ->
  exists c,
    re_match re_micros
      (fmt_d0 4 y +:+ "-" +:+ fmt_d0 2 m +:+ "-" +:+ fmt_d0 2 d +:+ "T"
       +:+ fmt_d0 2 h +:+ ":" +:+ fmt_d0 2 mi +:+ ":" +:+ fmt_d0 2 s +:+ "."
       +:+ fmt_d0 6 us +:+ EmptyString)
    = Some (c, EmptyString,
            [("f", fmt_d0 6 us); ("S", fmt_d0 2 s); ("M", fmt_d0 2 mi);
             ("H", fmt_d0 2 h); ("d", fmt_d0 2 d); ("m", fmt_d0 2 m);
             ("Y", fmt_d0 4 y)]).
Proof.
  unfold valid_ymd, valid_hmsu, MINYEAR, MAXYEAR. intros Hv Hw.
  split_valid Hv. split_valid Hw.
  pose proof (days_in_month_le y m).
  eexists. unfold re_match, re_micros.
  repeat match_step. reflexivity.
Qed.

Lemma int_fmt2 (n : Z) : 0 <= n <= 99 -> int_of_string (fmt_d0 2 n) = Some n.
Proof. intros Hn. apply int_of_string_fmt. change (10 ^ Z.of_nat 2) with 100. lia. Qed.

Lemma int_fmt4 (n : Z) : 0 <= n <= 9999 -> int_of_string (fmt_d0 4 n) = Some n.
Proof. intros Hn. apply int_of_string_fmt. change (10 ^ Z.of_nat 4) with 10000. lia. Qed.

Lemma int_fmt6 (n : Z) :
  0 <= n <= 999999 ->
  int_of_string
    (fmt_d0 6 n +:+ repeat_char "0" (6 - String.length (fmt_d0 6 n)))
  = Some n.
Proof.
  intros Hn.
  assert (Hr : 0 <= n < 10 ^ Z.of_nat 6)
    by (change (10 ^ Z.of_nat 6) with 1000000; lia).
  rewrite (fmt_d0_fixed 5 n Hr), fixed_digits_length.
  simpl repeat_char. rewrite append_nil_r.
  now apply int_of_string_fixed.
Qed.

(** *** Parsing what was printed *)

Lemma strptime_hms (h mi s : Z) :
  valid_hmsu h mi s 0 = true ->
  strptime (fmt_d0 2 h +:+ ":" +:+ fmt_d0 2 mi +:+ ":" +:+ fmt_d0 2 s)
           _TIMEONLY_WO_MICROS
  = Ok (mkDatetime 1900 1 1 h mi s 0 None).
Proof.
  intros Hv. unfold strptime, _TIMEONLY_WO_MICROS. rewrite format_hms.
  destruct (match_hms h mi s Hv) as [c Hc].
  rewrite append_nil_r in Hc. rewrite Hc.
  pose proof Hv as Hv'. unfold valid_hmsu in Hv'. split_valid Hv'.
  groups. rewrite !int_fmt2 by lia.
  simpl andb. cbv iota. unfold make_datetime.
  rewrite Hv. reflexivity.
Qed.

Lemma strptime_hmsf (h mi s us : Z) :
  valid_hmsu h mi s us = true ->
  strptime (fmt_d0 2 h +:+ ":" +:+ fmt_d0 2 mi +:+ ":" +:+ fmt_d0 2 s +:+ "."
            +:+ fmt_d0 6 us)
           _TIMEONLY_W_MICROS
  = Ok (mkDatetime 1900 1 1 h mi s us None).
Proof.
  intros Hv. unfold strptime. rewrite format_hmsf.
  destruct (match_hmsf h mi s us Hv) as [c Hc].
  rewrite append_nil_r in Hc. rewrite Hc.
  pose proof Hv as Hv'. unfold valid_hmsu in Hv'. split_valid Hv'.
  groups. rewrite !int_fmt2, int_fmt6 by lia.
  simpl andb. cbv iota. unfold make_datetime.
  rewrite Hv. reflexivity.
Qed.

Lemma strptime_ymd (y m d : Z) :
  valid_ymd y m d = true ->
  strptime (fmt_d0 4 y +:+ "-" +:+ fmt_d0 2 m +:+ "-" +:+ fmt_d0 2 d)
           "%Y-%m-%d"
  = Ok (mkDatetime y m d 0 0 0 0 None).
Proof.
  intros Hv. unfold strptime. rewrite format_ymd.
  destruct (match_ymd y m d Hv) as [c Hc].
  rewrite append_nil_r in Hc. rewrite Hc.
  pose proof Hv as Hv'. unfold valid_ymd, MINYEAR, MAXYEAR in Hv'.
  split_valid Hv'. pose proof (days_in_month_le y m).
  groups. rewrite !int_fmt2, int_fmt4 by lia.
  cbv iota. unfold make_datetime.
  rewrite Hv. reflexivity.
Qed.

Lemma strptime_micros (y m d h mi s us : Z) :
  valid_ymd y m d = true ->
  valid_hmsu h mi s us = true ->
  strptime (fmt_d0 4 y +:+ "-" +:+ fmt_d0 2 m +:+ "-" +:+ fmt_d0 2 d +:+ "T"
            +:+ fmt_d0 2 h +:+ ":" +:+ fmt_d0 2 mi +:+ ":" +:+ fmt_d0 2 s
            +:+ "." +:+ fmt_d0 6 us)
           _RFC3339_MICROS_NO_ZULU
  = Ok (mkDatetime y m d h mi s us None).
Proof.
  intros Hv Hw. unfold strptime. rewrite format_micros.
  destruct (match_micros y m d h mi s us Hv Hw) as [c Hc].
  rewrite append_nil_r in Hc. rewrite Hc.
  pose proof Hv as Hv'. unfold valid_ymd, MINYEAR, MAXYEAR in Hv'.
  pose proof Hw as Hw'. unfold valid_hmsu in Hw'.
  split_valid Hv'. split_valid Hw'. pose proof (days_in_month_le y m).
  groups. rewrite !int_fmt2, int_fmt4, int_fmt6 by lia.
  cbv iota. unfold make_datetime.
  rewrite Hv, Hw. reflexivity.
Qed.

Lemma fmt_d0_length (w : nat) (n : Z) :
  0 <= n < 10 ^ Z.of_nat (S w) -> String.length (fmt_d0 (S w) n) = S w.
Proof. intros Hn. rewrite fmt_d0_fixed by exact Hn. apply fixed_digits_length. Qed.

Lemma fmt2_length (n : Z) : 0 <= n <= 99 -> String.length (fmt_d0 2 n) = 2%nat.
Proof. intros Hn. apply fmt_d0_length. change (10 ^ Z.of_nat 2) with 100. lia. Qed.

Lemma fmt4_length (n : Z) : 0 <= n <= 9999 -> String.length (fmt_d0 4 n) = 4%nat.
Proof. intros Hn. apply fmt_d0_length. change (10 ^ Z.of_nat 4) with 10000. lia. Qed.

Lemma fmt6_length (n : Z) : 0 <= n <= 999999 -> String.length (fmt_d0 6 n) = 6%nat.
Proof. intros Hn. apply fmt_d0_length. change (10 ^ Z.of_nat 6) with 1000000. lia. Qed.

Lemma format_time_length (h mi s us : Z) :
  valid_hmsu h mi s us = true ->
  String.length (format_time h mi s us)
  = if us =? 0 then 8%nat else 15%nat.
Proof.
  intros Hv. unfold valid_hmsu in Hv. split_valid Hv. unfold format_time.
  destruct (us =? 0);
    rewrite ?length_app, ?fmt2_length, ?fmt6_length by lia; reflexivity.
Qed.

(** ** The limit on the digits of a number *)

Lemma count_digits_all (s : string) :
  all_chars is_digit s = true -> count_digits s = String.length s.
Proof.
  induction s as [|c s IH]; simpl; [reflexivity|].
  destruct (is_digit c); simpl; [|discriminate].
  intros Hs. now rewrite IH.
Qed.

Lemma str_of_nonneg_length_le (k : nat) (n : Z) :
  0 <= n < 10 ^ Z.of_nat (S k) ->
  (String.length (str_of_nonneg n) <= S k)%nat.
Proof.
  revert n. induction k as [|k IH]; intros n Hn.
  - rewrite str_of_nonneg_small by (change (10 ^ Z.of_nat 1) with 10 in Hn; lia).
    simpl. lia.
  - destruct (Z_lt_le_dec n 10) as [Hlt|Hge].
    + rewrite str_of_nonneg_small by lia. simpl. lia.
    + rewrite str_of_nonneg_step, length_app by exact Hge.
      assert (Hq : 0 <= n / 10 < 10 ^ Z.of_nat (S k)).
      { split; [apply Z.div_pos; lia|].
        apply Z.div_lt_upper_bound; [lia|].
        rewrite (Nat2Z.inj_succ (S k)), Z.pow_succ_r in Hn by lia. lia. }
      specialize (IH _ Hq). simpl. lia.
Qed.

Lemma str_of_nonneg_length_gt (k : nat) (n : Z) :
  10 ^ Z.of_nat k <= n -> (k < String.length (str_of_nonneg n))%nat.
Proof.
  revert n. induction k as [|k IH]; intros n Hn.
  - change (10 ^ Z.of_nat 0) with 1 in Hn.
    pose proof (str_of_nonneg_nonempty n ltac:(lia)) as Hne.
    destruct (str_of_nonneg n); [congruence | simpl; lia].
  - rewrite Nat2Z.inj_succ, Z.pow_succ_r in Hn by lia.
    assert (Hpos : 0 < 10 ^ Z.of_nat k) by (apply Z.pow_pos_nonneg; lia).
    rewrite str_of_nonneg_step, length_app by lia.
    assert (Hq : 10 ^ Z.of_nat k <= n / 10)
      by (apply Z.div_le_lower_bound; lia).
    specialize (IH _ Hq). simpl. lia.
Qed.

Lemma count_digits_str_of_int (z : Z) :
  count_digits (str_of_int z) = String.length (str_of_nonneg (Z.abs z)).
Proof.
  unfold str_of_int. destruct (Z.ltb_spec z 0).
  - rewrite Z.abs_neq by lia. cbn [count_digits].
    change (is_digit "-") with false. cbn iota.
    rewrite count_digits_all by (apply str_of_nonneg_digits; lia).
    reflexivity.
  - rewrite Z.abs_eq by lia.
    apply count_digits_all, str_of_nonneg_digits; lia.
Qed.

(** The text of a number is within the limit exactly when the number is
    below the power of ten of that many digits. *)
Lemma over_digit_limit_str_of_int (z : Z) :
  over_digit_limit (str_of_int z)
  = (10 ^ Z.of_nat INT_MAX_STR_DIGITS <=? Z.abs z).
Proof.
  unfold over_digit_limit. rewrite count_digits_str_of_int.
  destruct (Z.leb_spec (10 ^ Z.of_nat INT_MAX_STR_DIGITS) (Z.abs z)) as [Hge|Hlt].
  - apply Nat.ltb_lt. apply str_of_nonneg_length_gt. exact Hge.
  - apply Nat.ltb_ge.
    change INT_MAX_STR_DIGITS with (S (Nat.pred INT_MAX_STR_DIGITS)) in *.
    apply str_of_nonneg_length_le. lia.
Qed.

Lemma int_to_text_within (z : Z) :
  Z.abs z < 10 ^ Z.of_nat INT_MAX_STR_DIGITS ->
  int_to_text z = Ok (str_of_int z).
Proof.
  intros Hz. unfold int_to_text. rewrite over_digit_limit_str_of_int.
  destruct (Z.leb_spec (10 ^ Z.of_nat INT_MAX_STR_DIGITS) (Z.abs z));
    [lia | reflexivity].
Qed.

Lemma int_to_text_beyond (z : Z) :
  10 ^ Z.of_nat INT_MAX_STR_DIGITS <= Z.abs z ->
  int_to_text z = raise ValueError.
Proof.
  intros Hz. unfold int_to_text. rewrite over_digit_limit_str_of_int.
  destruct (Z.leb_spec (10 ^ Z.of_nat INT_MAX_STR_DIGITS) (Z.abs z));
    [reflexivity | lia].
Qed.

Lemma py_int_str_of_int (z : Z) :
  Z.abs z < 10 ^ Z.of_nat INT_MAX_STR_DIGITS ->
  py_int (VStr (str_of_int z)) = Ok z.
Proof.
  intros Hz. cbn [py_int]. rewrite over_digit_limit_str_of_int.
  destruct (Z.leb_spec (10 ^ Z.of_nat INT_MAX_STR_DIGITS) (Z.abs z));
    [lia|].
  rewrite int_of_string_str_of_int. reflexivity.
Qed.

Lemma py_int_str_of_int_beyond (z : Z) :
  10 ^ Z.of_nat INT_MAX_STR_DIGITS <= Z.abs z ->
  py_int (VStr (str_of_int z)) = raise ValueError.
Proof.
  intros Hz. cbn [py_int]. rewrite over_digit_limit_str_of_int.
  destruct (Z.leb_spec (10 ^ Z.of_nat INT_MAX_STR_DIGITS) (Z.abs z));
    [reflexivity | lia].
Qed.

(** ** Encoding a scalar, then decoding it *)

Section Roundtrip.
Context `{PyRuntime}.
Local Opaque fmt_d0 strptime.

Lemma int_to_json_within (z : Z) :
  Z.abs z < 10 ^ Z.of_nat INT_MAX_STR_DIGITS ->
  _int_to_json (VInt z) = Ok (VStr (str_of_int z)).
Proof.
  intros Hz. cbn [_int_to_json]. rewrite int_to_text_within by exact Hz.
  reflexivity.
Qed.

Lemma int_to_json_beyond (z : Z) :
  10 ^ Z.of_nat INT_MAX_STR_DIGITS <= Z.abs z ->
  _int_to_json (VInt z) = raise ValueError.
Proof.
  intros Hz. cbn [_int_to_json]. rewrite int_to_text_beyond by exact Hz.
  reflexivity.
Qed.

Lemma int_from_json_text (z : Z) (field : SchemaField) :
  Z.abs z < 10 ^ Z.of_nat INT_MAX_STR_DIGITS ->
  _int_from_json (VStr (str_of_int z)) (Some field) = Ok (VInt z).
Proof.
  intros Hz. unfold _int_from_json. cbn [_not_null is_none negb orb].
  rewrite py_int_str_of_int by exact Hz. reflexivity.
Qed.

Lemma roundtrip_int (z : Z) (ty : string) (field : SchemaField) :
  In ty ["INTEGER"; "INT64"] ->
  Z.abs z < 10 ^ Z.of_nat INT_MAX_STR_DIGITS ->
  roundtrip ty (VInt z) field = Ok (VInt z).
Proof.
  intros Hin Hz. simpl in Hin.
  destruct Hin as [<- | [<- | []]]; unfold roundtrip, encode_row,
    decode_cell; cbn [table_get String.eqb Ascii.eqb Bool.eqb
                      _SCALAR_VALUE_TO_JSON_ROW _CELLDATA_FROM_JSON];
    rewrite int_to_json_within by exact Hz; cbn [bind];
    apply int_from_json_text; exact Hz.
Qed.

Lemma roundtrip_int_beyond (z : Z) (ty : string) (field : SchemaField) :
  In ty ["INTEGER"; "INT64"] ->
  10 ^ Z.of_nat INT_MAX_STR_DIGITS <= Z.abs z ->
  roundtrip ty (VInt z) field = raise ValueError.
Proof.
  intros Hin Hz. simpl in Hin.
  destruct Hin as [<- | [<- | []]]; unfold roundtrip, encode_row;
    cbn [table_get String.eqb Ascii.eqb Bool.eqb
         _SCALAR_VALUE_TO_JSON_ROW];
    rewrite int_to_json_beyond by exact Hz; reflexivity.
Qed.

Lemma roundtrip_float (f : spec_float) (ty : string) (field : SchemaField) :
  In ty ["FLOAT"; "FLOAT64"] -> is_nan f = false -> is_inf f = false ->
  roundtrip ty (VFloat f) field = Ok (VFloat f).
Proof.
  intros Hin Hnan Hinf. simpl in Hin.
  destruct Hin as [<- | [<- | []]]; unfold roundtrip, encode_row,
    decode_cell; simpl; rewrite Hnan, Hinf; reflexivity.
Qed.

Lemma roundtrip_bool (b : bool) (ty : string) (field : SchemaField) :
  In ty ["BOOLEAN"; "BOOL"] -> roundtrip ty (VBool b) field = Ok (VBool b).
Proof.
  intros Hin. simpl in Hin.
  destruct Hin as [<- | [<- | []]]; destruct b; reflexivity.
Qed.

Lemma roundtrip_date (d : date) (field : SchemaField) :
  valid_date d = true -> roundtrip "DATE" (VDate d) field = Ok (VDate d).
Proof.
  intros Hv. destruct d as [y m dd]. unfold valid_date in Hv. simpl in Hv.
  unfold roundtrip, encode_row, decode_cell. simpl.
  unfold _date_from_json, date_from_iso8601_date, date_isoformat. simpl.
  pose proof (strptime_ymd y m dd Hv) as E. simpl in E. rewrite E.
  reflexivity.
Qed.

Lemma roundtrip_time (t : time) (field : SchemaField) :
  valid_time t = true -> tzinfo t = None ->
  roundtrip "TIME" (VTime t) field = Ok (VTime t).
Proof.
  intros Hv Htz. destruct t as [h mi s us tz]. simpl in Htz. subst tz.
  unfold valid_time in Hv. simpl in Hv. rewrite andb_true_r in Hv.
  unfold roundtrip, encode_row, decode_cell. simpl.
  unfold _time_from_json, time_isoformat. simpl.
  rewrite append_nil_r, (format_time_length h mi s us Hv).
  unfold format_time.
  destruct (Z.eqb_spec us 0) as [->|Hus]; simpl.
  - rewrite append_nil_r.
    pose proof (strptime_hms h mi s Hv) as E. simpl in E. rewrite E.
    reflexivity.
  - pose proof (strptime_hmsf h mi s us Hv) as E. simpl in E. rewrite E.
    reflexivity.
Qed.

Lemma contains_dot (a b c d e f g : string) :
  contains (a +:+ "-" +:+ b +:+ "-" +:+ c +:+ "T" +:+ d +:+ ":" +:+ e +:+ ":"
            +:+ f +:+ "." +:+ g) "." = true.
Proof.
  do 11 apply contains_app_r. reflexivity.
Qed.

(** What [_datetime_to_json] prints for a year the platform writes with
    four digits. *)
Lemma strftime_micros (y m d h mi s us : Z) :
  strftime_pads_year = true \/ 1000 <= y <= 9999 ->
  strftime strftime_pads_year (mkDatetime y m d h mi s us None)
           _RFC3339_MICROS_NO_ZULU
  = fmt_d0 4 y +:+ "-" +:+ fmt_d0 2 m +:+ "-" +:+ fmt_d0 2 d +:+ "T"
    +:+ fmt_d0 2 h +:+ ":" +:+ fmt_d0 2 mi +:+ ":" +:+ fmt_d0 2 s
    +:+ "." +:+ fmt_d0 6 us.
Proof.
  intros Hy. unfold strftime. simpl. rewrite append_nil_r.
  destruct strftime_pads_year; [reflexivity|].
  destruct Hy as [Hy|Hy]; [discriminate Hy|].
  now rewrite (str_of_int_four_digits y Hy).
Qed.

Lemma roundtrip_datetime (v : datetime) (field : SchemaField) :
  valid_datetime v = true -> dt_tzinfo v = None ->
  strftime_pads_year = true \/ 1000 <= dt_year v ->
  roundtrip "DATETIME" (VDatetime v) field = Ok (VDatetime v).
Proof.
  intros Hv Htz Hy. destruct v as [y m d h mi s us tz].
  simpl in Htz, Hy. subst tz.
  unfold valid_datetime in Hv. simpl in Hv. rewrite andb_true_r in Hv.
  apply andb_true_iff in Hv as [Hd Ht].
  assert (Hy' : strftime_pads_year = true \/ 1000 <= y <= 9999).
  { destruct Hy as [Hy|Hy]; [now left|right].
    pose proof Hd as Hmax. unfold valid_ymd, MAXYEAR in Hmax.
    rewrite !andb_true_iff, !Z.leb_le in Hmax. lia. }
  unfold roundtrip, encode_row, decode_cell. simpl.
  unfold _datetime_from_json. simpl.
  pose proof (strftime_micros y m d h mi s us Hy') as F. simpl in F.
  rewrite F.
  pose proof (contains_dot (fmt_d0 4 y) (fmt_d0 2 m) (fmt_d0 2 d)
                (fmt_d0 2 h) (fmt_d0 2 mi) (fmt_d0 2 s) (fmt_d0 6 us)) as C.
  simpl in C. rewrite C.
  pose proof (strptime_micros y m d h mi s us Hd Ht) as E. simpl in E.
  rewrite E. reflexivity.
Qed.
End Roundtrip.

Section RoundtripClaim.
Context `{PyRuntime}.

(** C2, with the INTEGER values within the interpreter's limit on the
    digits of a number, the TIME values naive like the DATETIME ones,
    and the DATETIME values in the years [strftime] writes with four
    digits: for every INTEGER of at most 4300 decimal digits, every
    finite FLOAT, BOOLEAN, DATE, naive TIME and such naive DATETIME
    value, encoding with the row-form encoder of the logical type and
    decoding the result with the decoder of the same type gives the
    value back, for every field descriptor, NULLABLE ones included.  The
    years are all of them where the platform pads [%Y], and 1000 to 9999
    where it does not. *)
Theorem scalar_roundtrip (field : SchemaField) :
  (forall z ty, In ty ["INTEGER"; "INT64"] ->
                Z.abs z < 10 ^ Z.of_nat INT_MAX_STR_DIGITS ->
                roundtrip ty (VInt z) field = Ok (VInt z))
  /\ (forall f ty, In ty ["FLOAT"; "FLOAT64"] ->
                   is_nan f = false -> is_inf f = false ->
                   roundtrip ty (VFloat f) field = Ok (VFloat f))
  /\ (forall b ty, In ty ["BOOLEAN"; "BOOL"] ->
                   roundtrip ty (VBool b) field = Ok (VBool b))
  /\ (forall d, valid_date d = true ->
                roundtrip "DATE" (VDate d) field = Ok (VDate d))
  /\ (forall t, valid_time t = true -> tzinfo t = None ->
                roundtrip "TIME" (VTime t) field = Ok (VTime t))
  /\ (forall v, valid_datetime v = true -> dt_tzinfo v = None ->
                strftime_pads_year = true \/ 1000 <= dt_year v ->
                roundtrip "DATETIME" (VDatetime v) field
                = Ok (VDatetime v)).
Proof.
  repeat split; intros.
  - now apply roundtrip_int.
  - now apply roundtrip_float.
  - now apply roundtrip_bool.
  - now apply roundtrip_date.
  - now apply roundtrip_time.
  - now apply roundtrip_datetime.
Qed.
End RoundtripClaim.

Lemma scalar_roundtrip_witness :
  valid_date leap_day = true
  /\ roundtrip (H := plain_runtime) "DATE" (VDate leap_day)
       (nullable_field "DATE")
     = Ok (VDate leap_day).
Proof.
  split; [reflexivity|].
  destruct (scalar_roundtrip (H := plain_runtime) (nullable_field "DATE"))
    as (_ & _ & _ & Hdate & _).
  apply Hdate. reflexivity.
Defined.

(** C2 as stated fails for a TIME value that carries a zone: its text
    has 14 characters, which the TIME decoder rejects. *)
Lemma time_roundtrip_zoned_counterexample :
  valid_time half_past_noon_utc = true
  /\ mode (nullable_field "TIME") = "NULLABLE"
  /\ encode_row (H := plain_runtime) "TIME" (VTime half_past_noon_utc)
     = Ok (VStr "12:30:00+00:00")
  /\ roundtrip (H := plain_runtime) "TIME" (VTime half_past_noon_utc)
       (nullable_field "TIME")
     = raise_msg ValueError "Unknown time format: 12:30:00+00:00"
  /\ roundtrip (H := plain_runtime) "TIME" (VTime half_past_noon_utc)
       (nullable_field "TIME")
     <> Ok (VTime half_past_noon_utc).
Proof.
  repeat split; try (vm_compute; reflexivity).
  vm_compute. discriminate.
Qed.

(** Where [strftime] does not pad the year, a naive DATETIME before the
    year 1000 is written with a year of three digits, which the
    decoder's [%Y] does not read. *)
Lemma datetime_roundtrip_short_year :
  valid_datetime early_datetime = true
  /\ dt_tzinfo early_datetime = None
  /\ encode_row (H := plain_runtime) "DATETIME" (VDatetime early_datetime)
     = Ok (VStr "999-01-02T03:04:05.000006")
  /\ roundtrip (H := plain_runtime) "DATETIME" (VDatetime early_datetime)
       (nullable_field "DATETIME")
     = raise ValueError.
Proof. repeat split; vm_compute; reflexivity. Qed.

(** ** Dictionaries *)

Lemma dict_get_set_eq (d : pydict) (k : string) (v : pyval) :
  dict_get (dict_set d k v) k = Some v.
Proof.
  induction d as [|[k' v'] d IH]; simpl.
  - now rewrite String.eqb_refl.
  - destruct (String.eqb_spec k' k) as [->|Hne]; simpl.
    + now rewrite String.eqb_refl.
    + destruct (String.eqb_spec k' k); [tauto|exact IH].
Qed.

Lemma dict_get_set_ne (d : pydict) (k k' : string) (v : pyval) :
  k <> k' -> dict_get (dict_set d k v) k' = dict_get d k'.
Proof.
  intros Hne. induction d as [|[k0 v0] d IH]; simpl.
  - destruct (String.eqb_spec k k'); [tauto|reflexivity].
  - destruct (String.eqb_spec k0 k) as [->|Hk0]; simpl.
    + destruct (String.eqb_spec k k'); [tauto|reflexivity].
    + destruct (String.eqb_spec k0 k'); [reflexivity|exact IH].
Qed.

Lemma dict_get_absent (d : pydict) (k : string) :
  ~ In k (dict_keys d) -> dict_get d k = None.
Proof.
  induction d as [|[k' v'] d IH]; simpl; [reflexivity|].
  intros Hn. destruct (String.eqb_spec k' k) as [->|_]; [tauto|].
  apply IH. tauto.
Qed.

Lemma mem_In (k : string) (l : list string) : mem k l = true <-> In k l.
Proof.
  unfold mem. rewrite existsb_exists. split.
  - intros (x & Hx & E). apply String.eqb_eq in E. now subst.
  - intros Hin. exists k. split; [exact Hin | apply String.eqb_refl].
Qed.

Lemma mem_not_In (k : string) (l : list string) : mem k l = false <-> ~ In k l.
Proof.
  rewrite <- mem_In. destruct (mem k l); split; intros; congruence.
Qed.

Section RecordEncoding.
Context `{PyRuntime}.
Variable encode : SchemaField -> pyval -> result pyval.

(** The loop over the declared subfields only writes under the names
    of subfields whose value is present and not null. *)
Lemma encode_named_frame (subfields : list SchemaField) (row : pydict) :
  forall (record0 record : pydict) (k : string),
    encode_named encode subfields row record0 = Ok record ->
    (~ In k (map name subfields) \/ is_none (row_get row k) = true) ->
    dict_get record k = dict_get record0 k.
Proof.
  induction subfields as [|sub subfields IH]; intros record0 record k Hrun Hk.
  - simpl in Hrun. now inversion Hrun.
  - simpl in Hrun. fold (row_get row (name sub)) in Hrun.
    unfold store_subfield in Hrun.
    destruct (is_none (row_get row (name sub))) eqn:Enone; simpl in Hrun.
    + apply (IH record0 record k Hrun).
      destruct Hk as [Hk|Hk]; [left|right; exact Hk].
      simpl in Hk. tauto.
    + destruct (encode sub (row_get row (name sub))) as [j|e]; simpl in Hrun;
        [|discriminate].
      rewrite (IH _ record k Hrun).
      * apply dict_get_set_ne. intros E.
        destruct Hk as [Hk|Hk]; [simpl in Hk; tauto|].
        rewrite <- E in Hk. congruence.
      * destruct Hk as [Hk|Hk]; [left|right; exact Hk].
        simpl in Hk. tauto.
Qed.

Lemma include_unknown_get (entries : pydict) (processed : list string) :
  forall (record : pydict) (k : string),
    List.NoDup (dict_keys entries) ->
    dict_get (include_unknown entries processed record) k
    = match dict_get entries k with
      | Some v =>
          if mem k processed || is_none v then dict_get record k
          else Some (VStr (py_str v))
      | None => dict_get record k
      end.
Proof.
  induction entries as [|[k0 v0] entries IH]; intros record k Hnd;
    [reflexivity|].
  simpl in Hnd. inversion Hnd as [|? ? Hnotin Hnd']; subst.
  cbn [include_unknown dict_get]. rewrite (IH _ k Hnd').
  destruct (String.eqb_spec k0 k) as [->|Hne].
  - rewrite (dict_get_absent entries k Hnotin).
    destruct (mem k processed || is_none v0); [reflexivity|].
    apply dict_get_set_eq.
  - assert (E : dict_get
                  (if mem k0 processed || is_none v0 then record
                   else dict_set record k0 (VStr (py_str v0))) k
                = dict_get record k).
    { destruct (mem k0 processed || is_none v0); [reflexivity|].
      now apply dict_get_set_ne. }
    rewrite E. reflexivity.
Qed.
End RecordEncoding.

Section RecordClaim.
Context `{PyRuntime}.

(** C5: for a mapping-valued record, the result has no entry for a
    declared subfield whose value is absent or null, and for every key
    that no subfield declares it has the text of the value when the
    value is not null, and no entry when it is; so that
    [{"known": 1, "mystery": 42}] against a schema that declares only
    the INTEGER "known" gives [{"known": "1", "mystery": "42"}]. *)
Theorem record_mapping_passthrough :
  (forall (fields : list SchemaField) (row : pydict) (out : pyval),
      List.NoDup (dict_keys row) ->
      _record_field_to_json fields (VDict row) = Ok out ->
      exists record,
        out = VDict record
        /\ (forall sub, In sub fields ->
              dict_get row (name sub) = None
              \/ dict_get row (name sub) = Some VNone ->
              dict_get record (name sub) = None)
        /\ (forall k v, ~ In k (map name fields) ->
              dict_get row k = Some v ->
              dict_get record k
              = if is_none v then None else Some (VStr (py_str v))))
  /\ _record_field_to_json known_only (VDict known_and_mystery)
     = Ok (VDict [ ("known", VStr "1"); ("mystery", VStr "42") ]).
Proof.
  split; [|reflexivity].
  intros fields row out Hnd Hrun.
  unfold _record_field_to_json, record_field_to_json_with in Hrun.
  destruct (encode_named _field_to_json fields row []) as [named|e] eqn:En;
    simpl in Hrun; [|discriminate].
  inversion Hrun; subst out; clear Hrun.
  eexists. split; [reflexivity|]. split.
  - intros sub Hin Hnull.
    rewrite include_unknown_get by exact Hnd.
    assert (Hmem : mem (name sub) (map name fields) = true)
      by (apply mem_In, in_map, Hin).
    assert (Hnamed : dict_get named (name sub) = None).
    { rewrite (encode_named_frame _ fields row [] named (name sub) En);
        [reflexivity|].
      right. unfold row_get. destruct Hnull as [-> | ->]; reflexivity. }
    rewrite Hmem. simpl. destruct (dict_get row (name sub)); exact Hnamed.
  - intros k v Hk Hv.
    rewrite include_unknown_get by exact Hnd.
    rewrite Hv. apply mem_not_In in Hk. rewrite Hk. simpl.
    destruct (is_none v); [|reflexivity].
    rewrite (encode_named_frame _ fields row [] named k En); [reflexivity|].
    left. now apply mem_not_In.
Qed.
End RecordClaim.

Lemma record_mapping_passthrough_witness :
  List.NoDup (dict_keys known_and_mystery)
  /\ exists record,
       _record_field_to_json (H := plain_runtime) known_only
         (VDict known_and_mystery) = Ok (VDict record)
       /\ dict_get record "mystery" = Some (VStr "42").
Proof.
  assert (Hnd : List.NoDup (dict_keys known_and_mystery)).
  { simpl. repeat constructor; simpl; intuition discriminate. }
  split; [exact Hnd|].
  destruct (record_mapping_passthrough (H := plain_runtime)) as [Hgen Hex].
  destruct (Hgen known_only known_and_mystery _ Hnd Hex)
    as (record & Hout & _ & Hunknown).
  exists record. split; [congruence|].
  apply (Hunknown "mystery" (VInt 42)); [|reflexivity].
  simpl. intuition discriminate.
Defined.

(** ** Nested properties *)

Section NestedProps.
Import Props.

Lemma has_key_present (h : heap) (l : loc) (d : gmap string val)
    (key : string) (v : val) :
  h !! l = Some d -> d !! key = Some v ->
  has_key h (PRef l) key = Ok true.
Proof.
  intros Hl Hk. unfold has_key. rewrite Hl. f_equal.
  apply bool_decide_eq_true. rewrite Hk. eauto.
Qed.

Lemma has_key_absent (h : heap) (l : loc) (d : gmap string val)
    (key : string) :
  h !! l = Some d -> d !! key = None ->
  has_key h (PRef l) key = Ok false.
Proof.
  intros Hl Hk. unfold has_key. rewrite Hl. f_equal.
  apply bool_decide_eq_false. rewrite Hk. intros [? ?]. discriminate.
Qed.

(** Walking a path that is all there creates nothing. *)
Lemma descend_resolved (keys : list string) :
  forall (h : heap) (sub_val found : val),
    resolve h sub_val keys = Some found ->
    descend_creating h sub_val keys = Ok (h, found).
Proof.
  induction keys as [|key keys IH]; intros h sub_val found Hres.
  - simpl in *. congruence.
  - simpl in Hres. destruct sub_val as [| | |l]; try discriminate.
    destruct (h !! l) as [d|] eqn:Hl; [|discriminate].
    destruct (d !! key) as [next|] eqn:Hk; [|discriminate].
    cbn [descend_creating].
    rewrite (has_key_present h l d key next Hl Hk). simpl.
    rewrite Hl. simpl. rewrite Hk. simpl. now apply IH.
Qed.

(** Walking on from a new empty dict creates one more dict per key and
    touches no dict that was there before. *)
Lemma descend_fresh (keys : list string) :
  forall (h : heap) (cur l0 : loc) (d0 : gmap string val),
    h !! cur = Some ∅ -> cur <> l0 -> h !! l0 = Some d0 ->
    exists h' cur',
      descend_creating h (PRef cur) keys = Ok (h', PRef cur')
      /\ h' !! cur' = Some ∅ /\ cur' <> l0 /\ h' !! l0 = Some d0.
Proof.
  induction keys as [|key keys IH]; intros h cur l0 d0 Hcur Hne Hl0.
  - exists h, cur. simpl. auto.
  - cbn [descend_creating].
    rewrite (has_key_absent h cur ∅ key Hcur (lookup_empty key)).
    simpl. set (l := fresh (dom h)).
    assert (Hfresh : l ∉ dom h) by apply is_fresh.
    assert (Hlcur : l <> cur).
    { intros ->. apply Hfresh, elem_of_dom. eauto. }
    assert (Hll0 : l <> l0).
    { intros ->. apply Hfresh, elem_of_dom. eauto. }
    rewrite lookup_insert_ne by exact Hlcur. rewrite Hcur. simpl.
    rewrite lookup_insert_eq. simpl. rewrite lookup_insert_eq. simpl.
    apply IH.
    + rewrite lookup_insert_ne by congruence. apply lookup_insert_eq.
    + exact Hll0.
    + rewrite !lookup_insert_ne by congruence. exact Hl0.
Qed.

Lemma but_last_snoc (keys : list string) (k : string) :
  but_last (keys ++ [k]) = keys.
Proof. apply removelast_last. Qed.

Lemma last_key_snoc (keys : list string) (k : string) :
  last_key (keys ++ [k]) = Ok k.
Proof. unfold last_key. now rewrite last_snoc. Qed.

(** C8, as the code has it: when every key before the last leads to a
    dict and the last key is absent from the dict so reached, the
    deletion raises nothing and leaves every dict as it is; when the
    first of two or more keys is absent from the container, the
    deletion raises nothing either, but stores a new dict under that
    key. *)
Theorem del_sub_prop_absent :
  (forall (h : heap) (container : val) (keys : list string) (k : string)
          (l : loc) (d : gmap string val),
      resolve h container keys = Some (PRef l) ->
      h !! l = Some d -> d !! k = None ->
      _del_sub_prop h container (keys ++ [k]) = Ok h)
  /\ (forall (h : heap) (c : loc) (d : gmap string val) (k : string)
             (keys : list string),
        h !! c = Some d -> d !! k = None -> keys <> [] ->
        exists h',
          _del_sub_prop h (PRef c) (k :: keys) = Ok h'
          /\ h' !! c = Some (<[k := PRef (fresh (dom h))]> d)
          /\ h' <> h).
Proof.
  split.
  - intros h container keys k l d Hres Hl Hk.
    unfold _del_sub_prop. rewrite but_last_snoc, last_key_snoc.
    rewrite (descend_resolved keys h container (PRef l) Hres).
    cbn [bind]. rewrite (has_key_absent h l d k Hl Hk). reflexivity.
  - intros h c d k keys Hc Hk Hkeys.
    destruct (exists_last Hkeys) as (mid & final & ->).
    unfold _del_sub_prop.
    change (k :: mid ++ [final]) with ((k :: mid) ++ [final]).
    rewrite but_last_snoc, last_key_snoc.
    cbn [descend_creating].
    rewrite (has_key_absent h c d k Hc Hk). simpl.
    set (l := fresh (dom h)).
    assert (Hfresh : l ∉ dom h) by apply is_fresh.
    assert (Hlc : l <> c).
    { intros ->. apply Hfresh, elem_of_dom. eauto. }
    rewrite lookup_insert_ne by exact Hlc. rewrite Hc. simpl.
    rewrite lookup_insert_eq. simpl. rewrite lookup_insert_eq. simpl.
    destruct (descend_fresh mid
                (<[c := <[k := PRef l]> d]> (<[l := ∅]> h)) l c
                (<[k := PRef l]> d))
      as (h' & cur' & Hrun & Hempty & _ & Hkept).
    + rewrite lookup_insert_ne by congruence. apply lookup_insert_eq.
    + exact Hlc.
    + apply lookup_insert_eq.
    + rewrite Hrun. cbn [bind].
      rewrite (has_key_absent h' cur' ∅ final Hempty (lookup_empty final)).
      cbn [bind]. exists h'. split; [reflexivity|]. split; [exact Hkept|].
      intros ->. rewrite Hc in Hkept. inversion Hkept as [E].
      apply (f_equal (fun m => m !! k)) in E.
      rewrite Hk, lookup_insert_eq in E. discriminate.
Qed.
End NestedProps.

Lemma del_sub_prop_absent_witness :
  Props.resolve dict_in_dict (Props.PRef 1%positive) ["a"]
  = Some (Props.PRef 2%positive)
  /\ Props._del_sub_prop dict_in_dict (Props.PRef 1%positive) ["a"; "b"]
     = Ok dict_in_dict.
Proof.
  assert (Hres : Props.resolve dict_in_dict (Props.PRef 1%positive) ["a"]
                 = Some (Props.PRef 2%positive)) by (vm_compute; reflexivity).
  split; [exact Hres|].
  destruct del_sub_prop_absent as [Hnoop _].
  apply (Hnoop dict_in_dict (Props.PRef 1%positive) ["a"] "b" 2%positive ∅).
  - exact Hres.
  - vm_compute. reflexivity.
  - vm_compute. reflexivity.
Defined.

(** C8 as stated fails: the path a, b is absent from the empty mapping,
    yet deleting it leaves a new empty mapping stored under a. *)
Lemma del_sub_prop_absent_counterexample :
  Props.resolve one_empty_dict (Props.PRef 1%positive) ["a"; "b"] = None
  /\ exists h',
       Props._del_sub_prop one_empty_dict (Props.PRef 1%positive) ["a"; "b"]
       = Ok h'
       /\ h' !! 1%positive = Some {[ "a" := Props.PRef 2%positive ]}
       /\ h' <> one_empty_dict.
Proof.
  split; [vm_compute; reflexivity|].
  eexists. split; [vm_compute; reflexivity|]. split.
  - vm_compute. reflexivity.
  - intros E. apply (f_equal (fun m => m !! 1%positive)) in E.
    vm_compute in E. discriminate.
Qed.

(** ** The calendar *)

Lemma month_of_day_checked (leap : bool) :
  forallb (month_of_day_check leap) (seq 0 365) = true.
Proof. destruct leap; vm_compute; reflexivity. Qed.

Lemma month_of_day_ok (n : Z) (leap : bool) :
  0 <= n <= 364 ->
  forall m d, month_of_day n leap = (m, d) ->
    1 <= m <= 12
    /\ 1 <= d <= DAYS_IN_MONTH m + leap_extra (m =? 2) leap
    /\ DAYS_BEFORE_MONTH m + leap_extra (2 <? m) leap + d = n + 1.
Proof.
  intros Hn m d Hmd.
  pose proof (month_of_day_checked leap) as Hall.
  rewrite forallb_forall in Hall.
  specialize (Hall (Z.to_nat n)).
  assert (Hin : In (Z.to_nat n) (seq 0 365)) by (apply in_seq; lia).
  specialize (Hall Hin). unfold month_of_day_check in Hall.
  rewrite Z2Nat.id in Hall by lia. rewrite Hmd in Hall.
  repeat (apply andb_true_iff in Hall as [Hall ?]).
  repeat match goal with
         | H : (_ <=? _) = true |- _ => apply Z.leb_le in H
         | H : (_ =? _) = true |- _ => apply Z.eqb_eq in H
         end.
  lia.
Qed.

(** The year of the Gregorian cycle position (n400, n100, n4, n1). *)
Lemma leap_of_cycle (q400 q100 q4 q1 : Z) :
  0 <= q400 -> 0 <= q100 <= 3 -> 0 <= q4 <= 24 -> 0 <= q1 <= 3 ->
  is_leap (q400 * 400 + 1 + q100 * 100 + q4 * 4 + q1)
  = (q1 =? 3) && (negb (q4 =? 24) || (q100 =? 3)).
Proof.
  intros H400 H100 H4 H1. unfold is_leap.
  set (y := q400 * 400 + 1 + q100 * 100 + q4 * 4 + q1).
  assert (E4 : y mod 4 = (q1 + 1) mod 4).
  { unfold y. replace (q400 * 400 + 1 + q100 * 100 + q4 * 4 + q1)
      with ((q1 + 1) + (q400 * 100 + q100 * 25 + q4) * 4) by lia.
    apply Z.mod_add. lia. }
  assert (E100 : y mod 100 = (q4 * 4 + q1 + 1) mod 100).
  { unfold y. replace (q400 * 400 + 1 + q100 * 100 + q4 * 4 + q1)
      with ((q4 * 4 + q1 + 1) + (q400 * 4 + q100) * 100) by lia.
    apply Z.mod_add. lia. }
  assert (E400 : y mod 400 = (q100 * 100 + q4 * 4 + q1 + 1) mod 400).
  { unfold y. replace (q400 * 400 + 1 + q100 * 100 + q4 * 4 + q1)
      with ((q100 * 100 + q4 * 4 + q1 + 1) + q400 * 400) by lia.
    apply Z.mod_add. lia. }
  rewrite E4, E100, E400.
  destruct (Z.eqb_spec q1 3) as [->|N1].
  - change ((3 + 1) mod 4) with 0. simpl andb.
    destruct (Z.eqb_spec q4 24) as [->|N4].
    + change ((24 * 4 + 3 + 1) mod 100) with 0. simpl.
      destruct (Z.eqb_spec q100 3) as [->|N100]; [reflexivity|].
      destruct (Z.eqb_spec ((q100 * 100 + 24 * 4 + 3 + 1) mod 400) 0) as [E|]; 
        [|reflexivity].
      exfalso. revert E. Z.div_mod_to_equations. lia.
    + simpl.
      destruct (Z.eqb_spec ((q4 * 4 + 3 + 1) mod 100) 0) as [E|]; [|reflexivity].
      exfalso. revert E. Z.div_mod_to_equations. lia.
  - simpl.
    destruct (Z.eqb_spec ((q1 + 1) mod 4) 0) as [E|]; [|reflexivity].
    exfalso. revert E. Z.div_mod_to_equations. lia.
Qed.

Lemma days_before_cycle (q400 q100 q4 q1 : Z) :
  0 <= q400 -> 0 <= q100 <= 3 -> 0 <= q4 <= 24 -> 0 <= q1 <= 3 ->
  days_before_year (q400 * 400 + 1 + q100 * 100 + q4 * 4 + q1)
  = 146097 * q400 + 36524 * q100 + 1461 * q4 + 365 * q1.
Proof.
  intros H400 H100 H4 H1. unfold days_before_year.
  replace (q400 * 400 + 1 + q100 * 100 + q4 * 4 + q1 - 1)
    with (q400 * 400 + q100 * 100 + q4 * 4 + q1) by lia.
  Z.div_mod_to_equations. lia.
Qed.

Lemma valid_ymd_intro (y m d : Z) :
  1 <= y <= 9999 -> 1 <= m <= 12 -> 1 <= d <= days_in_month y m ->
  valid_ymd y m d = true.
Proof.
  intros Hy Hm Hd. unfold valid_ymd, MINYEAR, MAXYEAR.
  repeat (apply andb_true_iff; split); apply Z.leb_le; lia.
Qed.

Lemma ord2ymd_spec (n0 : Z) :
  1 <= n0 <= MAXORDINAL ->
  forall y m d, ord2ymd n0 = (y, m, d) ->
    valid_ymd y m d = true /\ ymd2ord y m d = n0.
Proof.
  intros Hn y m d.
  unfold ord2ymd, DI400Y, DI100Y, DI4Y, MAXORDINAL in *. cbv zeta.
  set (n := n0 - 1).
  pose proof (Z.div_mod n 146097 ltac:(lia)) as E400.
  pose proof (Z.mod_pos_bound n 146097 ltac:(lia)) as B400.
  set (q400 := n / 146097) in *. set (r400 := n mod 146097) in *.
  pose proof (Z.div_mod r400 36524 ltac:(lia)) as E100.
  pose proof (Z.mod_pos_bound r400 36524 ltac:(lia)) as B100.
  set (q100 := r400 / 36524) in *. set (r100 := r400 mod 36524) in *.
  pose proof (Z.div_mod r100 1461 ltac:(lia)) as E4.
  pose proof (Z.mod_pos_bound r100 1461 ltac:(lia)) as B4.
  set (q4 := r100 / 1461) in *. set (r4 := r100 mod 1461) in *.
  pose proof (Z.div_mod r4 365 ltac:(lia)) as E1.
  pose proof (Z.mod_pos_bound r4 365 ltac:(lia)) as B1.
  set (q1 := r4 / 365) in *. set (r1 := r4 mod 365) in *.
  assert (Hq400 : 0 <= q400 <= 24) by (unfold n in *; lia).
  assert (Hq100 : 0 <= q100 <= 4) by lia.
  assert (Hq4 : 0 <= q4 <= 24) by lia.
  assert (Hq1 : 0 <= q1 <= 4) by lia.
  destruct (Z.eqb_spec q1 4) as [Q1|Q1]; simpl orb.
  - (* the last day of a four-year cycle *)
    intros [= <- <- <-].
    assert (Hq4' : q4 <= 23) by lia.
    assert (Hq100' : q100 <= 3) by lia.
    replace (q400 * 400 + 1 + q100 * 100 + q4 * 4 + q1 - 1)
      with (q400 * 400 + 1 + q100 * 100 + q4 * 4 + 3) by lia.
    pose proof (leap_of_cycle q400 q100 q4 3 ltac:(lia) ltac:(lia)
                  ltac:(lia) ltac:(lia)) as Hleap.
    pose proof (days_before_cycle q400 q100 q4 3 ltac:(lia) ltac:(lia)
                  ltac:(lia) ltac:(lia)) as Hdays.
    replace (q4 =? 24) with false in Hleap
      by (symmetry; apply Z.eqb_neq; lia).
    simpl in Hleap. split.
    + apply valid_ymd_intro; [unfold n in *; lia | lia |].
      unfold days_in_month. simpl. lia.
    + unfold ymd2ord, days_before_month. rewrite Hdays, Hleap. simpl.
      unfold n in *. lia.
  - destruct (Z.eqb_spec q100 4) as [Q100|Q100].
    + (* the last day of a four-hundred-year cycle *)
      intros [= <- <- <-].
      assert (q4 = 0 /\ q1 = 0) as [Z4 Z1] by lia.
      replace (q400 * 400 + 1 + q100 * 100 + q4 * 4 + q1 - 1)
        with (q400 * 400 + 1 + 3 * 100 + 24 * 4 + 3) by lia.
      pose proof (leap_of_cycle q400 3 24 3 ltac:(lia) ltac:(lia)
                    ltac:(lia) ltac:(lia)) as Hleap.
      pose proof (days_before_cycle q400 3 24 3 ltac:(lia) ltac:(lia)
                    ltac:(lia) ltac:(lia)) as Hdays.
      simpl in Hleap. split.
      * apply valid_ymd_intro; [unfold n in *; lia | lia |].
        unfold days_in_month. simpl. lia.
      * unfold ymd2ord, days_before_month. rewrite Hdays, Hleap. simpl.
        unfold n in *. lia.
    + assert (Hq100' : 0 <= q100 <= 3) by lia.
      assert (Hq1' : 0 <= q1 <= 3) by lia.
      pose proof (leap_of_cycle q400 q100 q4 q1 ltac:(lia) Hq100' Hq4 Hq1')
        as Hleap.
      pose proof (days_before_cycle q400 q100 q4 q1 ltac:(lia) Hq100' Hq4
                    Hq1') as Hdays.
      set (leap := (q1 =? 3) && (negb (q4 =? 24) || (q100 =? 3))) in *.
      destruct (month_of_day r1 leap) as [m' d'] eqn:Emd.
      intros [= <- <- <-].
      destruct (month_of_day_ok r1 leap ltac:(lia) m' d' Emd)
        as (Hm & Hd & Hsum).
      split.
      * apply valid_ymd_intro; [unfold n in *; lia | lia |].
        unfold days_in_month. rewrite Hleap.
        unfold leap_extra in Hd.
        destruct (Z.eqb_spec m' 2) as [->|]; destruct leap; simpl in *; lia.
      * unfold ymd2ord, days_before_month. rewrite Hdays, Hleap.
        unfold leap_extra in Hsum. unfold n in *. lia.
Qed.

Lemma representable_days (t : Z) :
  representable t = (0 <? t / DAY_US) && (t / DAY_US <=? MAXORDINAL).
Proof.
  unfold representable, DAY_US, MAXORDINAL.
  destruct (Z.leb_spec 86400000000 t), (Z.ltb_spec t ((3652059 + 1) * 86400000000)),
    (Z.ltb_spec 0 (t / 86400000000)), (Z.leb_spec (t / 86400000000) 3652059);
    try reflexivity; exfalso; Z.div_mod_to_equations; lia.
Qed.

Lemma valid_hmsu_intro (h mi s us : Z) :
  0 <= h <= 23 -> 0 <= mi <= 59 -> 0 <= s <= 59 -> 0 <= us <= 999999 ->
  valid_hmsu h mi s us = true.
Proof.
  intros. unfold valid_hmsu.
  repeat (apply andb_true_iff; split); apply Z.leb_le; lia.
Qed.

(** Adding microseconds, within the years 1 to 9999, gives a valid
    datetime whose wall-clock reading is the sum; outside them it is an
    [OverflowError]. *)
Lemma datetime_add_us_spec (v : datetime) (delta : Z) :
  if representable (wall_us v + delta) then
    exists u,
      datetime_add_us v delta = Ok u
      /\ valid_ymd (dt_year u) (dt_month u) (dt_day u) = true
      /\ valid_hmsu (dt_hour u) (dt_minute u) (dt_second u)
           (dt_microsecond u) = true
      /\ dt_tzinfo u = dt_tzinfo v
      /\ wall_us u = wall_us v + delta
  else datetime_add_us v delta = raise OverflowError.
Proof.
  rewrite representable_days. unfold datetime_add_us.
  set (t := wall_us v + delta).
  destruct ((0 <? t / DAY_US) && (t / DAY_US <=? MAXORDINAL)) eqn:Hr;
    [|reflexivity].
  apply andb_true_iff in Hr as [Hlo Hhi].
  apply Z.ltb_lt in Hlo. apply Z.leb_le in Hhi.
  destruct (ord2ymd (t / DAY_US)) as [[y m] d] eqn:Eo.
  destruct (ord2ymd_spec (t / DAY_US) ltac:(lia) y m d Eo) as [Hvalid Hord].
  eexists. split; [reflexivity|]. cbn [dt_year dt_month dt_day dt_hour
    dt_minute dt_second dt_microsecond dt_tzinfo].
  pose proof (Z.mod_pos_bound t DAY_US ltac:(unfold DAY_US; lia)) as Hrest.
  pose proof (Z.div_mod t DAY_US ltac:(unfold DAY_US; lia)) as Ht.
  set (rest := t mod DAY_US) in *.
  split; [exact Hvalid|]. split; [|split; [reflexivity|]].
  - unfold DAY_US in *.
    apply valid_hmsu_intro; Z.div_mod_to_equations; lia.
  - unfold wall_us at 1. cbn [dt_year dt_month dt_day dt_hour
      dt_minute dt_second dt_microsecond]. rewrite Hord.
    transitivity (DAY_US * (t / DAY_US) + rest); [|symmetry; exact Ht].
    clear Ht Hord Eo Hlo Hhi. unfold DAY_US in *.
    generalize (t / 86400000000). intros days.
    Z.div_mod_to_equations. lia.
Qed.

(** ** The shape of a printed timestamp *)

Lemma fits_app (t1 t2 s1 s2 : string) :
  fits t1 s1 = true -> fits t2 s2 = true -> fits (t1 +:+ t2) (s1 +:+ s2) = true.
Proof.
  revert s1. induction t1 as [|c t1 IH]; intros [|c' s1]; simpl;
    try discriminate; [tauto|].
  intros Hc H2. apply andb_true_iff in Hc as [Hc H1].
  rewrite Hc. simpl. now apply IH.
Qed.

Lemma fits_digits (w : nat) (n : Z) :
  fits (repeat_char "d" w) (fixed_digits w n) = true.
Proof.
  revert n. induction w as [|w IH]; intros n; [reflexivity|].
  cbn [fixed_digits]. change (repeat_char "d" (S w))
    with (String "d" (repeat_char "d" w)).
  rewrite <- repeat_char_snoc. apply fits_app; [apply IH|].
  simpl. now rewrite is_digit_digit_char by apply mod10_range.
Qed.

Lemma fits_fmt2 (n : Z) : 0 <= n <= 99 -> fits "dd" (fmt_d0 2 n) = true.
Proof.
  intros Hn. rewrite fmt_d0_fixed by (change (10 ^ Z.of_nat 2) with 100; lia).
  apply (fits_digits 2).
Qed.

Lemma fits_fmt4 (n : Z) : 0 <= n <= 9999 -> fits "dddd" (fmt_d0 4 n) = true.
Proof.
  intros Hn. rewrite fmt_d0_fixed by (change (10 ^ Z.of_nat 4) with 10000; lia).
  apply (fits_digits 4).
Qed.

Lemma fits_fmt6 (n : Z) : 0 <= n <= 999999 -> fits "dddddd" (fmt_d0 6 n) = true.
Proof.
  intros Hn.
  rewrite fmt_d0_fixed by (change (10 ^ Z.of_nat 6) with 1000000; lia).
  apply (fits_digits 6).
Qed.

Lemma param_text_fits (u : datetime) :
  valid_datetime u = true ->
  fits (if dt_microsecond u =? 0 then without_fraction else with_fraction)
       (param_text u) = true.
Proof.
  destruct u as [y m d h mi s us tz]. unfold valid_datetime.
  cbn [dt_year dt_month dt_day dt_hour dt_minute dt_second dt_microsecond
       dt_tzinfo].
  intros Hv. apply andb_true_iff in Hv as [Hv _].
  apply andb_true_iff in Hv as [Hd Ht].
  pose proof (days_in_month_le y m).
  unfold valid_ymd, MINYEAR, MAXYEAR in Hd. unfold valid_hmsu in Ht.
  split_valid Hd. split_valid Ht.
  unfold param_text, date_isoformat, time_isoformat, format_time,
    format_offset, datetime_date, datetime_time.
  cbn [year month day hour minute second microsecond tzinfo
       dt_year dt_month dt_day dt_hour dt_minute dt_second dt_microsecond].
  destruct (us =? 0).
  - change without_fraction
      with (("dddd" +:+ "-" +:+ "dd" +:+ "-" +:+ "dd") +:+ " "
            +:+ (("dd" +:+ ":" +:+ "dd" +:+ ":" +:+ "dd" +:+ EmptyString)
                 +:+ EmptyString) +:+ "+00:00").
    repeat apply fits_app;
      first [ apply fits_fmt4; lia | apply fits_fmt2; lia | reflexivity ].
  - change with_fraction
      with (("dddd" +:+ "-" +:+ "dd" +:+ "-" +:+ "dd") +:+ " "
            +:+ (("dd" +:+ ":" +:+ "dd" +:+ ":" +:+ "dd" +:+ "."
                  +:+ "dddddd") +:+ EmptyString) +:+ "+00:00").
    repeat apply fits_app;
      first [ apply fits_fmt4; lia | apply fits_fmt2; lia
            | apply fits_fmt6; lia | reflexivity ].
Qed.

(** C7, as the code has it: a datetime that is naive or in UTC is
    printed as it reads, and one that carries another zone as the
    datetime that reads its offset earlier, zone dropped, when that lies
    in the years 1 to 9999 (otherwise the subtraction overflows); the
    text is [YYYY-MM-DD HH:MM:SS+00:00] when the microseconds are zero and
    [YYYY-MM-DD HH:MM:SS.ffffff+00:00] when they are not. *)
Theorem timestamp_to_json_parameter_form :
  (forall v : datetime,
      valid_datetime v = true ->
      (has_other_zone v = None ->
       _timestamp_to_json_parameter (VDatetime v) = Ok (VStr (param_text v)))
      /\ (forall off, has_other_zone v = Some off ->
            if representable (wall_us v - off) then
              exists u,
                valid_datetime u = true /\ dt_tzinfo u = None
                /\ wall_us u = wall_us v - off
                /\ _timestamp_to_json_parameter (VDatetime v)
                   = Ok (VStr (param_text u))
            else
              _timestamp_to_json_parameter (VDatetime v)
              = raise OverflowError))
  /\ (forall u : datetime,
        valid_datetime u = true ->
        fits (if dt_microsecond u =? 0 then without_fraction
              else with_fraction) (param_text u) = true).
Proof.
  split; [|exact param_text_fits].
  intros v Hv. split.
  - intros Hz. unfold _timestamp_to_json_parameter. rewrite Hz. reflexivity.
  - intros off Hz. unfold _timestamp_to_json_parameter. rewrite Hz.
    pose proof (datetime_add_us_spec (replace_tzinfo v None) (- off)) as Hadd.
    replace (wall_us (replace_tzinfo v None) + - off)
      with (wall_us v - off) in Hadd by (destruct v; unfold wall_us; simpl; lia).
    destruct (representable (wall_us v - off)).
    + destruct Hadd as (u & Hrun & Hd & Ht & Htz & Hwall).
      exists u. rewrite Hrun.
      assert (Hnone : dt_tzinfo u = None) by (destruct v; exact Htz).
      split; [|split; [exact Hnone|split; [|reflexivity]]].
      * unfold valid_datetime. rewrite Hd, Ht, Hnone. reflexivity.
      * rewrite Hwall. destruct v; unfold wall_us; simpl; lia.
    + rewrite Hadd. reflexivity.
Qed.

Lemma timestamp_to_json_parameter_form_witness :
  valid_datetime new_year_half_past_noon = true
  /\ _timestamp_to_json_parameter (VDatetime new_year_half_past_noon)
     = Ok (VStr (param_text new_year_half_past_noon)).
Proof.
  split; [reflexivity|].
  destruct timestamp_to_json_parameter_form as [Hform _].
  destruct (Hform new_year_half_past_noon eq_refl) as [Hnaive _].
  apply Hnaive. reflexivity.
Defined.

(** C7 as stated fails: with zero microseconds the text has no
    fractional part at all. *)
Lemma timestamp_parameter_fraction_counterexample :
  valid_datetime new_year_half_past_noon = true
  /\ _timestamp_to_json_parameter (VDatetime new_year_half_past_noon)
     = Ok (VStr "2020-01-01 12:30:00+00:00")
  /\ fits with_fraction "2020-01-01 12:30:00+00:00" = false.
Proof. repeat split; vm_compute; reflexivity. Qed.

(** ** Intervals *)

Section IntervalMatch.
Context {R : Type}.
Implicit Types (k : @kont R) (g : groups) (r : R).






End IntervalMatch.
















Lemma record_arity_mismatch_witness :
  exists msg,
    _record_field_to_json (H := plain_runtime)
      [ nullable_field "INTEGER"; nullable_field "STRING";
        nullable_field "BOOL" ]
      (VTuple [ VInt 1; VStr "x" ])
    = Err (Raise ValueError (Some msg))
    /\ contains msg "2" = true /\ contains msg "3" = true.
Proof.
  destruct (record_arity_mismatch (H := plain_runtime)) as [Hgen _].
  destruct (Hgen [ nullable_field "INTEGER"; nullable_field "STRING";
                   nullable_field "BOOL" ]
                 (VTuple [ VInt 1; VStr "x" ]) [ VInt 1; VStr "x" ])
    as (msg & Hrun & _ & H2 & H3).
  - left. reflexivity.
  - simpl. lia.
  - exists msg. split; [exact Hrun|]. split; [exact H2 | exact H3].
Defined.

(** * Properties of the other helpers *)

(** ** Nested paths *)

Section NestedPaths.
Import Props.

(** A lookup along a path that is all there returns what the path leads
    to. *)
Lemma get_resolved (keys : list string) :
  forall (h : heap) (sub_val found default : val),
    resolve h sub_val keys = Some found ->
    _get_sub_prop h sub_val keys default = Ok found.
Proof.
  induction keys as [|key keys IH]; intros h sub_val found default Hres.
  - simpl in *. congruence.
  - simpl in Hres. destruct sub_val as [| | |l]; try discriminate.
    destruct (h !! l) as [d|] eqn:Hl; [|discriminate].
    destruct (d !! key) as [next|] eqn:Hk; [|discriminate].
    cbn [_get_sub_prop].
    rewrite (has_key_present h l d key next Hl Hk). cbn [bind].
    unfold get_item. rewrite Hl. simpl. rewrite Hk. simpl. now apply IH.
Qed.

Lemma resolve_app (keys rest : list string) :
  forall (h : heap) (sub_val mid : val),
    resolve h sub_val keys = Some mid ->
    resolve h sub_val (keys ++ rest) = resolve h mid rest.
Proof.
  induction keys as [|key keys IH]; intros h sub_val mid Hres.
  - simpl in *. congruence.
  - simpl in *. destruct sub_val as [| | |l]; try discriminate.
    destruct (h !! l) as [d|]; [|discriminate].
    destruct (d !! key) as [next|]; [|discriminate].
    now apply IH.
Qed.

(** A write under a key that is not on the path leaves the path as it
    is. *)
Lemma resolve_write_off_path (keys : list string) :
  forall (h : heap) (sub_val : val) (l : loc) (d : gmap string val)
         (k : string) (f : gmap string val -> gmap string val),
    ~ In k keys -> h !! l = Some d ->
    (forall key, key <> k -> f d !! key = d !! key) ->
    resolve (<[l := f d]> h) sub_val keys = resolve h sub_val keys.
Proof.
  induction keys as [|key keys IH]; intros h sub_val l d k f Hk Hl Hf.
  - reflexivity.
  - simpl. destruct sub_val as [| | |l0]; try reflexivity.
    assert (Hne : key <> k) by (intros ->; apply Hk; now left).
    assert (Hrest : ~ In k keys) by (intros Hin; apply Hk; now right).
    destruct (decide (l0 = l)) as [->|Hl0].
    + rewrite lookup_insert_eq, Hl, (Hf key Hne).
      destruct (d !! key); [|reflexivity]. now apply (IH h _ l d k f).
    + rewrite lookup_insert_ne by congruence.
      destruct (h !! l0) as [d0|]; [|reflexivity].
      destruct (d0 !! key); [|reflexivity]. now apply (IH h _ l d k f).
Qed.

(** What one step of the creating walk does. *)
Lemma descend_step (h h1 : heap) (sub_val found : val) (key : string)
    (keys : list string) :
  descend_creating h sub_val (key :: keys) = Ok (h1, found) ->
  exists (l : loc) (d : gmap string val) (h0 : heap) (next : val),
    sub_val = PRef l /\ h !! l = Some d
    /\ (forall l' d', h !! l' = Some d' ->
          exists d'', h0 !! l' = Some d''
                      /\ forall k', k' <> key -> d'' !! k' = d' !! k')
    /\ (exists d0, h0 !! l = Some d0 /\ d0 !! key = Some next)
    /\ descend_creating h0 next keys = Ok (h1, found).
Proof.
  cbn [descend_creating]. intros Hrun.
  destruct sub_val as [| |s|l]; try discriminate Hrun.
  - simpl in Hrun. destruct (contains s key); simpl in Hrun; discriminate.
  - unfold has_key in Hrun. destruct (h !! l) as [d|] eqn:Hl;
      [|discriminate Hrun].
    cbn [bind] in Hrun.
    destruct (bool_decide (is_Some (d !! key))) eqn:Hp; cbn [bind] in Hrun.
    + apply bool_decide_eq_true in Hp. destruct Hp as [next Hnext].
      unfold get_item in Hrun. rewrite Hl in Hrun. simpl in Hrun.
      rewrite Hnext in Hrun. simpl in Hrun.
      exists l, d, h, next. repeat split; eauto.
    + unfold new_dict in Hrun. cbv zeta in Hrun.
      set (fl := fresh (dom h)) in *.
      assert (Hfresh : fl ∉ dom h) by apply is_fresh.
      assert (Hne : fl <> l).
      { intros E. apply Hfresh. rewrite E. apply elem_of_dom. eauto. }
      unfold set_item in Hrun.
      rewrite lookup_insert_ne in Hrun by exact Hne. rewrite Hl in Hrun.
      cbn [bind] in Hrun. unfold get_item in Hrun.
      rewrite lookup_insert_eq in Hrun. simpl in Hrun.
      rewrite lookup_insert_eq in Hrun. simpl in Hrun.
      exists l, d, (<[l := <[key := PRef fl]> d]> (<[fl := ∅]> h)), (PRef fl).
      split; [reflexivity|]. split; [exact Hl|]. split; [|split].
      * intros l' d' Hl'.
        assert (Hfl' : fl <> l').
        { intros E. apply Hfresh. rewrite E. apply elem_of_dom. eauto. }
        destruct (decide (l' = l)) as [->|Hll].
        -- rewrite lookup_insert_eq. eexists. split; [reflexivity|].
           intros k' Hk'. rewrite lookup_insert_ne by congruence.
           congruence.
        -- rewrite !lookup_insert_ne by congruence. eauto.
      * rewrite lookup_insert_eq. eexists. split; [reflexivity|].
        apply lookup_insert_eq.
      * exact Hrun.
Qed.

(** The creating walk keeps every dict that was there, and in it every
    entry under a key that is not on the path. *)
Lemma descend_keeps (keys : list string) :
  forall (h h1 : heap) (sub_val found : val),
    descend_creating h sub_val keys = Ok (h1, found) ->
    forall l d, h !! l = Some d ->
      exists d1, h1 !! l = Some d1
                 /\ forall k, ~ In k keys -> d1 !! k = d !! k.
Proof.
  induction keys as [|key keys IH]; intros h h1 sub_val found Hrun l d Hl.
  - simpl in Hrun. inversion Hrun; subst. eauto.
  - destruct (descend_step h h1 sub_val found key keys Hrun)
      as (l0 & d0 & h0 & next & _ & _ & Hkeep & _ & Hrest).
    destruct (Hkeep l d Hl) as (d' & Hl' & Hsame).
    destruct (IH h0 h1 next found Hrest l d' Hl') as (d1 & Hl1 & Hsame1).
    exists d1. split; [exact Hl1|]. intros k Hk.
    rewrite Hsame1 by (intros Hin; apply Hk; now right).
    apply Hsame. intros ->. apply Hk. now left.
Qed.

(** After the creating walk the path is there and leads to the value
    the walk returns, when no key occurs twice on it. *)
Lemma descend_resolves (keys : list string) :
  forall (h h1 : heap) (sub_val found : val),
    List.NoDup keys ->
    descend_creating h sub_val keys = Ok (h1, found) ->
    resolve h1 sub_val keys = Some found.
Proof.
  induction keys as [|key keys IH]; intros h h1 sub_val found Hnd Hrun.
  - simpl in Hrun. inversion Hrun; subst. reflexivity.
  - inversion Hnd as [|? ? Hnotin Hnd']; subst.
    destruct (descend_step h h1 sub_val found key keys Hrun)
      as (l & d & h0 & next & -> & Hl & _ & (d0 & Hl0 & Hnext) & Hrest).
    destruct (descend_keeps keys h0 h1 next found Hrest l d0 Hl0)
      as (d1 & Hl1 & Hsame).
    simpl. rewrite Hl1, (Hsame key Hnotin), Hnext.
    now apply (IH h0).
Qed.

Lemma keys_snoc (keys : list string) (k : string) :
  last_key keys = Ok k -> keys = but_last keys ++ [k].
Proof.
  unfold last_key, but_last. intros Hk.
  destruct keys as [|k0 keys]; [discriminate Hk|].
  destruct (exists_last (l := k0 :: keys) ltac:(discriminate))
    as (mid & final & E).
  rewrite E in *. rewrite last_snoc in Hk. simpl in Hk.
  inversion Hk; subst. now rewrite removelast_last.
Qed.
(** A lookup walks a prefix that is all there and goes on from where
    it leads. *)
Lemma get_app (keys rest : list string) :
  forall (h : heap) (sub_val mid default : val),
    resolve h sub_val keys = Some mid ->
    _get_sub_prop h sub_val (keys ++ rest) default
    = _get_sub_prop h mid rest default.
Proof.
  induction keys as [|key keys IH]; intros h sub_val mid default Hres.
  - simpl in *. congruence.
  - simpl in Hres. destruct sub_val as [| | |l]; try discriminate.
    destruct (h !! l) as [d|] eqn:Hl; [|discriminate].
    destruct (d !! key) as [next|] eqn:Hk; [|discriminate].
    cbn [app _get_sub_prop].
    rewrite (has_key_present h l d key next Hl Hk). cbn [bind].
    unfold get_item. rewrite Hl. simpl. rewrite Hk. simpl. now apply IH.
Qed.
(** The creating walk over a prefix that is all there starts where the
    prefix leads. *)
Lemma descend_app (keys rest : list string) :
  forall (h : heap) (sub_val mid : val),
    resolve h sub_val keys = Some mid ->
    descend_creating h sub_val (keys ++ rest)
    = descend_creating h mid rest.
Proof.
  induction keys as [|key keys IH]; intros h sub_val mid Hres.
  - simpl in *. congruence.
  - simpl in Hres. destruct sub_val as [| | |l]; try discriminate.
    destruct (h !! l) as [d|] eqn:Hl; [|discriminate].
    destruct (d !! key) as [next|] eqn:Hk; [|discriminate].
    cbn [app descend_creating].
    rewrite (has_key_present h l d key next Hl Hk). cbn [bind].
    unfold get_item. rewrite Hl. simpl. rewrite Hk. simpl. now apply IH.
Qed.

Lemma but_last_app (keys rest : list string) :
  rest <> [] -> but_last (keys ++ rest) = keys ++ but_last rest.
Proof.
  intros Hrest. destruct (exists_last Hrest) as (mid & final & ->).
  unfold but_last. now rewrite app_assoc, !removelast_last.
Qed.

Lemma last_key_app (keys rest : list string) :
  rest <> [] -> last_key (keys ++ rest) = last_key rest.
Proof.
  intros Hrest. destruct (exists_last Hrest) as (mid & final & ->).
  unfold last_key. now rewrite app_assoc, !last_snoc.
Qed.
End NestedPaths.

Section NestedPathClaims.
Import Props.

(** X1: what [_set_sub_prop] stores, [_get_sub_prop] finds.  For a key
    path on which no key occurs twice, a lookup along the path after a
    store that raised nothing returns the stored value, whatever the
    default. *)
Theorem set_sub_prop_then_get (h h' : heap) (container value default : val)
    (keys : list string) :
  List.NoDup keys ->
  _set_sub_prop h container keys value = Ok h' ->
  _get_sub_prop h' container keys default = Ok value.
Proof.
  intros Hnd Hset. unfold _set_sub_prop in Hset.
  destruct (descend_creating h container (but_last keys))
    as [[h1 sub]|e] eqn:Hwalk; [|discriminate Hset].
  cbn [bind] in Hset.
  destruct (last_key keys) as [k|e] eqn:Hlast; [|discriminate Hset].
  cbn [bind] in Hset.
  pose proof (keys_snoc keys k Hlast) as Hkeys.
  set (mid := but_last keys) in *. rewrite Hkeys in Hnd |- *.
  apply NoDup_remove in Hnd as [Hmid Hk]. rewrite app_nil_r in Hmid, Hk.
  pose proof (descend_resolves mid h h1 container sub Hmid Hwalk) as Hres.
  unfold set_item in Hset. destruct sub as [| | |l]; try discriminate Hset.
  destruct (h1 !! l) as [d|] eqn:Hl; [|discriminate Hset].
  inversion Hset; subst h'. clear Hset.
  apply get_resolved.
  rewrite (resolve_app mid [k] _ container (PRef l)).
  - simpl. rewrite lookup_insert_eq. now rewrite lookup_insert_eq.
  - rewrite (resolve_write_off_path mid h1 container l d k
               (fun m => <[k := value]> m) Hk Hl); [exact Hres|].
    intros key Hne. apply lookup_insert_ne. congruence.
Qed.

(** X2: what [_del_sub_prop] removed is gone.  For a key path on which
    no key occurs twice, a lookup along the path after a deletion that
    raised nothing returns the default. *)
Theorem del_sub_prop_then_get (h h' : heap) (container default : val)
    (keys : list string) :
  List.NoDup keys ->
  _del_sub_prop h container keys = Ok h' ->
  _get_sub_prop h' container keys default = Ok default.
Proof.
  intros Hnd Hdel. unfold _del_sub_prop in Hdel.
  destruct (descend_creating h container (but_last keys))
    as [[h1 sub]|e] eqn:Hwalk; [|discriminate Hdel].
  cbn [bind] in Hdel.
  destruct (last_key keys) as [k|e] eqn:Hlast; [|discriminate Hdel].
  cbn [bind] in Hdel.
  pose proof (keys_snoc keys k Hlast) as Hkeys.
  set (mid := but_last keys) in *. rewrite Hkeys in Hnd |- *.
  apply NoDup_remove in Hnd as [Hmid Hk]. rewrite app_nil_r in Hmid, Hk.
  pose proof (descend_resolves mid h h1 container sub Hmid Hwalk) as Hres.
  destruct sub as [| |s|l]; try discriminate Hdel.
  - (* the path ends in a text: the key is no part of it *)
    simpl in Hdel. destruct (contains s k) eqn:Hin; simpl in Hdel;
      [discriminate Hdel|]. inversion Hdel; subst h'.
    rewrite (get_app mid [k] h1 container (PStr s) default Hres).
    simpl. now rewrite Hin.
  - unfold has_key in Hdel. destruct (h1 !! l) as [d|] eqn:Hl;
      [|discriminate Hdel].
    cbn [bind] in Hdel.
    destruct (bool_decide (is_Some (d !! k))) eqn:Hp.
    + apply bool_decide_eq_true in Hp. destruct Hp as [old Hold].
      unfold del_item in Hdel. rewrite Hl, Hold in Hdel.
      inversion Hdel; subst h'. clear Hdel.
      rewrite (get_app mid [k] _ container (PRef l) default).
      * cbn [_get_sub_prop]. unfold has_key. rewrite lookup_insert_eq.
        cbn [bind]. rewrite bool_decide_eq_false_2; [reflexivity|].
        rewrite lookup_delete_eq. intros [? ?]. discriminate.
      * rewrite (resolve_write_off_path mid h1 container l d k
                   (fun m => delete k m) Hk Hl); [exact Hres|].
        intros key Hne. apply lookup_delete_ne. congruence.
    + inversion Hdel; subst h'. clear Hdel.
      rewrite (get_app mid [k] h1 container (PRef l) default Hres).
      cbn [_get_sub_prop]. unfold has_key. rewrite Hl. cbn [bind].
      now rewrite Hp.
Qed.

(** X3: [_set_sub_prop] does not replace a value that is in its way.
    When the path, before its end, leads to a value that is not a dict
    (a number, a text or [None]), the store raises a [TypeError]. *)
Theorem set_sub_prop_through_scalar (h : heap) (container found value : val)
    (keys rest : list string) :
  resolve h container keys = Some found ->
  (forall l, found <> PRef l) ->
  rest <> [] ->
  raises TypeError (_set_sub_prop h container (keys ++ rest) value).
Proof.
  intros Hres Hscalar Hrest. unfold _set_sub_prop.
  rewrite (but_last_app keys rest Hrest), (last_key_app keys rest Hrest).
  rewrite (descend_app keys (but_last rest) h container found Hres).
  destruct (exists_last Hrest) as (mid & final & ->).
  rewrite but_last_snoc, last_key_snoc.
  destruct found as [|z|s|l]; [| | |now destruct (Hscalar l)];
    (destruct mid as [|key mid];
     [cbn [descend_creating bind]
     |cbn [descend_creating has_key bind]; try destruct (contains s key)]);
    eexists; reflexivity.
Qed.
End NestedPathClaims.

(** Without the condition on the keys the store can hide itself: in a
    dict that holds itself under [a], storing a number along [a], [a]
    replaces the very entry the path goes through, and the lookup then
    asks a number for a key. *)
Lemma set_sub_prop_repeated_key :
  exists h',
    Props._set_sub_prop dict_in_itself (Props.PRef 1%positive) ["a"; "a"]
      (Props.PInt 5) = Ok h'
    /\ Props._get_sub_prop h' (Props.PRef 1%positive) ["a"; "a"] Props.PNone
       = raise TypeError.
Proof. eexists. split; vm_compute; reflexivity. Qed.

(** ** Resources built from properties *)

Section BuildResource.
Variable obj : resource_object.

Lemma build_partial_get (fs : list string) :
  forall (start partial : gmap string pyval),
    build_partial obj fs start = Ok partial ->
    forall k,
      partial !! k
      = if mem k (map (stored_under obj) fs)
        then Some (get_or_none (_properties obj) k)
        else start !! k.
Proof.
  induction fs as [|f fs IH]; intros start partial Hrun k.
  - simpl in Hrun. inversion Hrun; subst. reflexivity.
  - cbn [build_partial] in Hrun. cbn [map]. unfold stored_under at 1.
    unfold mem. cbn [existsb]. fold (mem k (map (stored_under obj) fs)).
    destruct (_PROPERTY_TO_API_FIELD obj !! f) as [api|] eqn:Hm.
    + rewrite (IH _ _ Hrun k).
      destruct (mem k (map (stored_under obj) fs));
        [now rewrite orb_true_r|]. rewrite orb_false_r.
      destruct (String.eqb_spec k api) as [->|Hne].
      * now rewrite lookup_insert_eq.
      * rewrite lookup_insert_ne by congruence. reflexivity.
    + destruct (_properties obj !! f) as [v|] eqn:Hp; [|discriminate Hrun].
      rewrite (IH _ _ Hrun k).
      destruct (mem k (map (stored_under obj) fs));
        [now rewrite orb_true_r|]. rewrite orb_false_r.
      destruct (String.eqb_spec k f) as [->|Hne].
      * rewrite lookup_insert_eq. unfold get_or_none. now rewrite Hp.
      * rewrite lookup_insert_ne by congruence. reflexivity.
Qed.

Lemma build_partial_known (fs : list string) :
  forall start : gmap string pyval,
    forallb (known_field obj) fs = true ->
    exists partial, build_partial obj fs start = Ok partial.
Proof.
  induction fs as [|f fs IH]; intros start Hall.
  - eexists. reflexivity.
  - simpl in Hall. apply andb_true_iff in Hall as [Hf Hall].
    cbn [build_partial]. unfold known_field in Hf.
    destruct (_PROPERTY_TO_API_FIELD obj !! f) as [api|]; [now apply IH|].
    destruct (_properties obj !! f) as [v|]; [now apply IH|].
    exfalso. apply orb_true_iff in Hf as [Hf|Hf];
      apply bool_decide_eq_true in Hf; destruct Hf; discriminate.
Qed.

Lemma build_partial_unknown (known : list string) :
  forall (start : gmap string pyval) (f : string) (rest : list string),
    forallb (known_field obj) known = true ->
    known_field obj f = false ->
    build_partial obj (known ++ f :: rest) start
    = raise_msg ValueError ("No property " +:+ f).
Proof.
  induction known as [|g known IH]; intros start f rest Hall Hf.
  - cbn [app build_partial]. unfold known_field in Hf.
    apply orb_false_iff in Hf as [Hm Hp].
    apply bool_decide_eq_false in Hm, Hp.
    destruct (_PROPERTY_TO_API_FIELD obj !! f); [destruct Hm; eauto|].
    destruct (_properties obj !! f); [destruct Hp; eauto|]. reflexivity.
  - simpl in Hall. apply andb_true_iff in Hall as [Hg Hall].
    cbn [app build_partial]. unfold known_field in Hg.
    destruct (_PROPERTY_TO_API_FIELD obj !! g) as [api|]; [now apply IH|].
    destruct (_properties obj !! g) as [v|]; [now apply IH|].
    exfalso. apply orb_true_iff in Hg as [Hg|Hg];
      apply bool_decide_eq_true in Hg; destruct Hg; discriminate.
Qed.
End BuildResource.

(** X4: the resource [_build_resource_from_properties] returns holds,
    for every filter field, the key it is stored under (its API name,
    or the field itself when it has none) with the value
    [_properties.get(key)], and holds nothing else. *)
Theorem build_resource_content (obj : resource_object)
    (filter_fields : list string) (partial : gmap string pyval) :
  _build_resource_from_properties obj filter_fields = Ok partial ->
  forall k,
    partial !! k
    = if mem k (map (stored_under obj) filter_fields)
      then Some (get_or_none (_properties obj) k)
      else None.
Proof.
  intros Hrun k. unfold _build_resource_from_properties in Hrun.
  rewrite (build_partial_get obj filter_fields ∅ partial Hrun k).
  now rewrite lookup_empty.
Qed.

(** X5: [_build_resource_from_properties] returns a resource exactly
    when every filter field has an API name or is a key of
    [_properties]; otherwise it raises a [ValueError] that names the
    first filter field that has neither. *)
Theorem build_resource_unknown_field (obj : resource_object) :
  (forall filter_fields,
      forallb (known_field obj) filter_fields = true <->
      exists partial,
        _build_resource_from_properties obj filter_fields = Ok partial)
  /\ (forall known f rest,
        forallb (known_field obj) known = true ->
        known_field obj f = false ->
        _build_resource_from_properties obj (known ++ f :: rest)
        = raise_msg ValueError ("No property " +:+ f)).
Proof.
  split.
  - intros fs. split.
    + apply build_partial_known.
    + intros [partial Hrun].
      destruct (forallb (known_field obj) fs) eqn:Hall; [reflexivity|].
      exfalso. revert partial Hrun.
      unfold _build_resource_from_properties.
      generalize (∅ : gmap string pyval).
      induction fs as [|f fs IH]; intros start partial Hrun;
        [discriminate Hall|].
      simpl in Hall. destruct (known_field obj f) eqn:Hf.
      * simpl in Hall. cbn [build_partial] in Hrun.
        destruct (_PROPERTY_TO_API_FIELD obj !! f);
          [exact (IH Hall _ _ Hrun)|].
        destruct (_properties obj !! f); [exact (IH Hall _ _ Hrun)|].
        discriminate Hrun.
      * pose proof (build_partial_unknown obj [] start f fs eq_refl Hf) as E.
        cbn [app] in E. rewrite E in Hrun. discriminate Hrun.
  - intros known f rest. apply build_partial_unknown.
Qed.

(** ** Splitting and joining text *)

Lemma contains_char (x : ascii) (s : string) :
  contains s (String x EmptyString) = negb (free_of x s).
Proof.
  unfold free_of. induction s as [|c s IH]; [reflexivity|].
  cbn [contains starts_with all_chars]. rewrite IH.
  destruct (Ascii.eqb x c); [reflexivity|].
  now destruct s.
Qed.

Lemma free_of_app (x : ascii) (a b : string) :
  free_of x (a +:+ b) = free_of x a && free_of x b.
Proof. apply all_chars_app. Qed.

Lemma split_char_free (sep : ascii) (s : string) :
  free_of sep s = true -> split_char sep s = (s, []).
Proof.
  unfold free_of. induction s as [|c s IH]; [reflexivity|].
  cbn [all_chars split_char]. intros Hs.
  apply andb_true_iff in Hs as [Hc Hs]. rewrite (IH Hs).
  apply negb_true_iff in Hc. rewrite Ascii.eqb_sym in Hc. now rewrite Hc.
Qed.

Lemma split_char_app (sep : ascii) (a rest : string) :
  free_of sep a = true ->
  split_char sep (a +:+ String sep rest)
  = (a, fst (split_char sep rest) :: snd (split_char sep rest)).
Proof.
  unfold free_of. induction a as [|c a IH]; intros Ha.
  - cbn [String.append split_char]. rewrite Ascii.eqb_refl.
    now destruct (split_char sep rest).
  - cbn [all_chars] in Ha. apply andb_true_iff in Ha as [Hc Ha].
    cbn [String.append split_char]. rewrite (IH Ha).
    apply negb_true_iff in Hc. rewrite Ascii.eqb_sym in Hc. now rewrite Hc.
Qed.

(** The pieces of a split hold no separator. *)
Lemma split_char_pieces (sep : ascii) (s : string) :
  free_of sep (fst (split_char sep s)) = true
  /\ forallb (free_of sep) (snd (split_char sep s)) = true.
Proof.
  unfold free_of. induction s as [|c s [IHw IHws]]; [now split|].
  cbn [split_char]. destruct (split_char sep s) as [w ws].
  destruct (Ascii.eqb c sep) eqn:Hc; cbn [fst snd forallb all_chars] in *.
  - split; [reflexivity|]. now rewrite IHw, IHws.
  - rewrite Ascii.eqb_sym, Hc. now split.
Qed.

Lemma lower_char_underscore (c : ascii) :
  Ascii.eqb "_" c = false -> Ascii.eqb "_" (lower_char c) = false.
Proof.
  destruct c as [[] [] [] [] [] [] [] []]; vm_compute; congruence.
Qed.

Lemma lower_free (s : string) :
  free_of "_" s = true -> free_of "_" (lower s) = true.
Proof.
  unfold free_of. induction s as [|c s IH]; [reflexivity|].
  cbn [lower all_chars]. intros Hs. apply andb_true_iff in Hs as [Hc Hs].
  apply negb_true_iff in Hc.
  now rewrite (lower_char_underscore c Hc), (IH Hs).
Qed.

Lemma title_char_free (c : ascii) (t : string) :
  Ascii.eqb "_" c = false -> title_char c = Some t -> free_of "_" t = true.
Proof.
  destruct c as [[] [] [] [] [] [] [] []]; vm_compute; intros Hc Ht;
    try discriminate Hc; try discriminate Ht;
    inversion Ht; subst; reflexivity.
Qed.

Lemma capitalize_free (w t : string) :
  free_of "_" w = true -> capitalize w = Some t -> free_of "_" t = true.
Proof.
  destruct w as [|c w]; cbn [capitalize].
  - intros _ E. now inversion E.
  - unfold free_of at 1. cbn [all_chars]. intros Hw E.
    apply andb_true_iff in Hw as [Hc Hw]. apply negb_true_iff in Hc.
    destruct (title_char c) as [tc|] eqn:Ht; [|discriminate E].
    inversion E; subst. rewrite free_of_app, (title_char_free c tc Hc Ht).
    now apply lower_free.
Qed.

Lemma join_capitalized_free (ws : list string) :
  forall t, forallb (free_of "_") ws = true ->
            join_capitalized ws = Some t -> free_of "_" t = true.
Proof.
  induction ws as [|w ws IH]; intros t Hws E.
  - inversion E. reflexivity.
  - cbn [forallb] in Hws. apply andb_true_iff in Hws as [Hw Hws].
    cbn [join_capitalized] in E.
    destruct (capitalize w) as [a|] eqn:Ea; [|discriminate E].
    destruct (join_capitalized ws) as [b|]; [|discriminate E].
    inversion E; subst. rewrite free_of_app.
    now rewrite (capitalize_free w a Hw Ea), (IH b Hws eq_refl).
Qed.

(** X6: the camel case [_snake_to_camel_case] returns holds no
    underscore. *)
Theorem snake_to_camel_case_no_underscore (value camel : string) :
  _snake_to_camel_case value = Some camel ->
  contains camel "_" = false.
Proof.
  unfold _snake_to_camel_case.
  destruct (split_char_pieces "_" value) as [Hfirst Hwords].
  destruct (split_char "_" value) as [first words].
  cbn [fst snd] in *.
  destruct (join_capitalized words) as [t|] eqn:Et; [|discriminate].
  intros E. inversion E; subst.
  rewrite contains_char, free_of_app, Hfirst.
  now rewrite (join_capitalized_free words t Hwords Et).
Qed.

(** X7: [_snake_to_camel_case] returns a text without underscores as it
    is, upper case letters included. *)
Theorem snake_to_camel_case_one_word (value : string) :
  contains value "_" = false ->
  _snake_to_camel_case value = Some value.
Proof.
  rewrite contains_char. intros Hfree. apply negb_false_iff in Hfree.
  unfold _snake_to_camel_case. rewrite (split_char_free "_" value Hfree).
  cbn [join_capitalized option_map]. now rewrite append_nil_r.
Qed.

(** X8: of a second word [_snake_to_camel_case] raises the first letter
    to title case and lowers every other letter, while the first word
    stays as it is: [fooBar_bazQux] becomes [fooBarBazqux]. *)
Theorem snake_to_camel_case_two_words (first : string) (c : ascii)
    (rest : string) :
  contains first "_" = false ->
  contains (String c rest) "_" = false ->
  _snake_to_camel_case (first +:+ "_" +:+ String c rest)
  = option_map (fun t => first +:+ t +:+ lower rest) (title_char c).
Proof.
  rewrite !contains_char. intros Hfirst Hrest.
  apply negb_false_iff in Hfirst, Hrest.
  unfold _snake_to_camel_case.
  change ("_" +:+ String c rest) with (String "_" (String c rest)).
  rewrite (split_char_app "_" first (String c rest) Hfirst).
  rewrite (split_char_free "_" (String c rest) Hrest).
  cbn [fst snd join_capitalized capitalize].
  destruct (title_char c) as [t|]; [|reflexivity].
  cbn [option_map]. now rewrite append_nil_r.
Qed.

(** ** Identifiers *)

Section PrefixPattern.
Context {R : Type}.

(** A repetition whose continuation asks for a character the text does
    not have finds nothing. *)
Lemma rep_greedy_none (p : ascii -> bool) (x : ascii) (s : string) :
  forall (lo : nat) (hi : option nat) (acc : string) (g : groups)
         (k : @kont R),
    free_of x s = true ->
    (forall acc' rest g', head_is x rest = false -> k acc' rest g' = None) ->
    rep_greedy p lo hi acc s g k = None.
Proof.
  unfold free_of.
  induction s as [|c s IH]; intros lo hi acc g k Hfree Hk.
  - simpl. destruct lo; [now apply Hk | reflexivity].
  - cbn [all_chars] in Hfree. apply andb_true_iff in Hfree as [Hc Hfree].
    apply negb_true_iff in Hc.
    assert (Hstop : match lo with
                    | O => k acc (String c s) g
                    | S _ => None
                    end = None).
    { destruct lo; [|reflexivity]. apply Hk. exact Hc. }
    cbn [rep_greedy]. rewrite Hstop.
    destruct (p c && match hi with Some O => false | _ => true end);
      [|reflexivity].
    now rewrite (IH _ _ _ g k Hfree Hk).
Qed.

Lemma rmatch_lit_other (x : ascii) (s : string) (g : groups)
    (k : @kont R) :
  head_is x s = false -> rmatch (rlit x) s g k = None.
Proof.
  destruct s as [|c s]; [reflexivity|]. simpl. now intros ->.
Qed.
End PrefixPattern.

Lemma no_prefix_without_colon (s : string) :
  free_of ":" s = true -> re_match _PROJECT_PREFIX_PATTERN s = None.
Proof.
  intros Hfree. unfold re_match, _PROJECT_PREFIX_PATTERN.
  cbn [rseq rmatch]. apply (rep_greedy_none not_space ":"); [exact Hfree|].
  intros acc' rest g' Hhead. now apply rmatch_lit_other.
Qed.

Lemma str_split_free (sep : ascii) (s : string) :
  free_of sep s = true -> str_split sep s = [s].
Proof. intros Hs. unfold str_split. now rewrite split_char_free. Qed.

Lemma str_split_app (sep : ascii) (a rest : string) :
  free_of sep a = true ->
  str_split sep (a +:+ String sep rest) = a :: str_split sep rest.
Proof.
  intros Ha. unfold str_split. rewrite (split_char_app sep a rest Ha).
  now destruct (split_char sep rest).
Qed.

Lemma str_split_length (sep : ascii) (s : string) :
  List.length (str_split sep s) = S (count_char sep s).
Proof.
  unfold str_split. induction s as [|c s IH]; [reflexivity|].
  cbn [split_char count_char]. destruct (split_char sep s) as [w ws].
  destruct (Ascii.eqb c sep); simpl in *; lia.
Qed.

(** X9: an identifier without a colon is split at its dots, and at
    nothing else. *)
Theorem split_id_standard (full_id : string) :
  contains full_id ":" = false ->
  _split_id full_id = str_split "." full_id
  /\ List.length (_split_id full_id) = S (count_char "." full_id).
Proof.
  rewrite contains_char. intros Hfree. apply negb_false_iff in Hfree.
  unfold _split_id. rewrite (no_prefix_without_colon full_id Hfree).
  split; [reflexivity | apply str_split_length].
Qed.

(** X10: a standard identifier [project.dataset.resource] parses to its
    three parts, and [dataset.resource] to the default project and its
    two parts, when a default project is set.  The parts hold no dot and
    no colon; they may be empty. *)
Theorem parse_3_part_id_standard (project dataset resource name : string)
    (default_project : option string) :
  contains (project +:+ "." +:+ dataset +:+ "." +:+ resource) ":" = false ->
  contains project "." = false ->
  contains dataset "." = false ->
  contains resource "." = false ->
  _parse_3_part_id (project +:+ "." +:+ dataset +:+ "." +:+ resource)
    default_project name
  = Ok (Some project, dataset, resource)
  /\ (is_set default_project = true ->
      _parse_3_part_id (dataset +:+ "." +:+ resource) default_project name
      = Ok (default_project, dataset, resource)).
Proof.
  intros Hcolon Hp Hd Hr.
  rewrite contains_char in Hcolon, Hp, Hd, Hr.
  apply negb_false_iff in Hcolon, Hp, Hd, Hr.
  assert (Hcolon2 : free_of ":" (dataset +:+ "." +:+ resource) = true).
  { rewrite free_of_app in Hcolon. apply andb_true_iff in Hcolon as [_ H].
    change ("." +:+ dataset +:+ "." +:+ resource)
      with (String "." (dataset +:+ "." +:+ resource)) in H.
    unfold free_of in H. cbn [all_chars] in H.
    now apply andb_true_iff in H as [_ H]. }
  assert (Hparts2 : str_split "." (dataset +:+ "." +:+ resource)
                    = [dataset; resource]).
  { change ("." +:+ resource) with (String "." resource).
    rewrite (str_split_app "." dataset resource Hd).
    now rewrite (str_split_free "." resource Hr). }
  split.
  - unfold _parse_3_part_id, _split_id.
    rewrite (no_prefix_without_colon _ Hcolon).
    change ("." +:+ dataset +:+ "." +:+ resource)
      with (String "." (dataset +:+ "." +:+ resource)).
    rewrite (str_split_app "." project _ Hp), Hparts2. reflexivity.
  - intros Hset. unfold _parse_3_part_id, _split_id.
    rewrite (no_prefix_without_colon _ Hcolon2), Hparts2.
    cbn [List.length Nat.eqb negb andb]. now rewrite Hset.
Qed.

(** X11: an identifier without a colon that has no dot, or more than two
    dots, is refused with a [ValueError] that quotes it; so is one with
    a single dot when no default project is set (neither [None] nor the
    empty text counts as set). *)
Theorem parse_3_part_id_refused (full_id name : string)
    (default_project : option string) :
  contains full_id ":" = false ->
  (count_char "." full_id <> 1%nat -> count_char "." full_id <> 2%nat ->
   _parse_3_part_id full_id default_project name
   = raise_msg ValueError (not_qualified_message name full_id))
  /\ (count_char "." full_id = 1%nat -> is_set default_project = false ->
      _parse_3_part_id full_id default_project name
      = raise_msg ValueError (no_project_message name full_id)).
Proof.
  rewrite contains_char. intros Hfree. apply negb_false_iff in Hfree.
  unfold _parse_3_part_id, _split_id.
  rewrite (no_prefix_without_colon full_id Hfree), str_split_length.
  split.
  - intros H1 H2.
    destruct (Nat.eqb_spec (S (count_char "." full_id)) 2); [lia|].
    destruct (Nat.eqb_spec (S (count_char "." full_id)) 3); [lia|].
    reflexivity.
  - intros H1 Hset. rewrite H1, Hset. reflexivity.
Qed.

(** ** Identifiers with a legacy prefix *)

Section LegacyPrefix.
Context {R : Type}.

(** A greedy repetition gives back what it read until the continuation
    finds its character: the last one there is when no later text has
    it. *)
Lemma rep_greedy_last (p : ascii -> bool) (x : ascii) (pre : string) :
  forall (lo : nat) (acc tail : string) (g : groups) (k : @kont R) (r : R),
    all_chars p pre = true ->
    (lo <= String.length pre)%nat ->
    free_of x tail = true ->
    (forall acc' rest g', head_is x rest = false -> k acc' rest g' = None) ->
    k (acc +:+ pre) (String x tail) g = Some r ->
    rep_greedy p lo None acc (pre +:+ String x tail) g k = Some r.
Proof.
  induction pre as [|c pre IH]; intros lo acc tail g k r Hp Hlo Hfree Hnone Hk.
  - rewrite append_nil_r in Hk. simpl in Hlo.
    assert (lo = O) by lia. subst lo.
    cbn [String.append rep_greedy option_map].
    rewrite (rep_greedy_none p x tail _ _ _ g k Hfree Hnone).
    rewrite Hk. now destruct (p x).
  - cbn [all_chars] in Hp. apply andb_true_iff in Hp as [Hc Hp].
    cbn [String.append rep_greedy option_map]. rewrite Hc. cbn [andb].
    rewrite (IH (Nat.pred lo) (acc +:+ String c EmptyString) tail g k r);
      try assumption.
    + reflexivity.
    + simpl in Hlo. lia.
    + rewrite append_assoc. exact Hk.
Qed.

(** A part of an identifier is read up to the dot after it, or to the
    end of the text. *)
Lemma match_part (w rest : string) (g : groups) (k : @kont R) (r : R) :
  w <> EmptyString -> free_of "." w = true ->
  head_is "." rest = true \/ rest = EmptyString ->
  k w rest g = Some r ->
  rmatch (RRep not_dot 1 None) (w +:+ rest) g k = Some r.
Proof.
  intros Hw Hfree Hrest Hk. cbn [rmatch]. apply rep_greedy_take.
  - apply (all_chars_impl (fun c => negb (Ascii.eqb "." c))); [|exact Hfree].
    intros c Hc. unfold not_dot. now rewrite Ascii.eqb_sym.
  - destruct w; [congruence | simpl; lia].
  - reflexivity.
  - destruct Hrest as [Hrest| ->]; [|reflexivity].
    destruct rest as [|c rest]; [discriminate Hrest|].
    cbn [head_is] in Hrest. apply Ascii.eqb_eq in Hrest. now subst c.
  - exact Hk.
Qed.
End LegacyPrefix.

Lemma not_dot_free (w : string) :
  free_of "." w = true -> all_chars not_dot w = true.
Proof.
  apply all_chars_impl. intros c Hc. unfold not_dot.
  now rewrite Ascii.eqb_sym.
Qed.

Lemma prefix_match_3 (prefix project dataset resource : string) :
  all_chars not_space prefix = true -> prefix <> EmptyString ->
  project <> EmptyString -> dataset <> EmptyString ->
  resource <> EmptyString ->
  free_of "." project = true -> free_of "." dataset = true ->
  free_of "." resource = true ->
  free_of ":" (project +:+ "." +:+ dataset +:+ "." +:+ resource) = true ->
  exists whole,
    re_match _PROJECT_PREFIX_PATTERN
      (prefix +:+ ":" +:+ project +:+ "." +:+ dataset +:+ "." +:+ resource)
    = Some (whole, EmptyString,
            [("custom_id", resource); ("dataset_id", dataset);
             ("project_id", prefix +:+ ":" +:+ project)]).
Proof.
  intros Hpre Hpre0 Hp0 Hd0 Hr0 Hp Hd Hr Hcolon.
  destruct resource as [|c resource]; [congruence|].
  eexists. unfold re_match, _PROJECT_PREFIX_PATTERN.
  cbn [rseq]. rewrite rmatch_seq, rmatch_group, rmatch_seq.
  change (":" +:+ project +:+ "." +:+ dataset +:+ "." +:+ String c resource)
    with (String ":" (project +:+ "." +:+ dataset +:+ "."
                      +:+ String c resource)).
  cbn [rmatch].
  apply rep_greedy_last; [exact Hpre | | exact Hcolon | |].
  - destruct prefix; [congruence | simpl; lia].
  - intros acc' rest g' Hhead. now apply rmatch_lit_other.
  - cbn [String.append]. rewrite rmatch_lit.
    change ("." +:+ dataset +:+ "." +:+ String c resource)
      with (String "." (dataset +:+ "." +:+ String c resource)).
    apply rep_greedy_take;
      [now apply not_dot_free | destruct project; [congruence|simpl; lia]
      | reflexivity | reflexivity |].
    rewrite rmatch_lit.
    change ("." +:+ String c resource) with (String "." (String c resource)).
    apply rep_greedy_take;
      [now apply not_dot_free | destruct dataset; [congruence|simpl; lia]
      | reflexivity | reflexivity |].
    cbn [or_else]. rewrite rmatch_lit.
    replace (String c resource) with (String c resource +:+ EmptyString)
      at 1 by apply append_nil_r.
    erewrite rep_greedy_take;
      [reflexivity | now apply not_dot_free | simpl; lia
      | reflexivity | reflexivity |].
    reflexivity.
Qed.

Lemma prefix_match_2 (prefix project dataset : string) :
  all_chars not_space prefix = true -> prefix <> EmptyString ->
  project <> EmptyString -> dataset <> EmptyString ->
  free_of "." project = true -> free_of "." dataset = true ->
  free_of ":" (project +:+ "." +:+ dataset) = true ->
  exists whole,
    re_match _PROJECT_PREFIX_PATTERN
      (prefix +:+ ":" +:+ project +:+ "." +:+ dataset)
    = Some (whole, EmptyString,
            [("dataset_id", dataset);
             ("project_id", prefix +:+ ":" +:+ project)]).
Proof.
  intros Hpre Hpre0 Hp0 Hd0 Hp Hd Hcolon.
  eexists. unfold re_match, _PROJECT_PREFIX_PATTERN.
  cbn [rseq]. rewrite rmatch_seq, rmatch_group, rmatch_seq.
  change (":" +:+ project +:+ "." +:+ dataset)
    with (String ":" (project +:+ "." +:+ dataset)).
  cbn [rmatch].
  apply rep_greedy_last; [exact Hpre | | exact Hcolon | |].
  - destruct prefix; [congruence | simpl; lia].
  - intros acc' rest g' Hhead. now apply rmatch_lit_other.
  - cbn [String.append]. rewrite rmatch_lit.
    change ("." +:+ dataset) with (String "." dataset).
    apply rep_greedy_take;
      [now apply not_dot_free | destruct project; [congruence|simpl; lia]
      | reflexivity | reflexivity |].
    rewrite rmatch_lit.
    replace dataset with (dataset +:+ EmptyString) at 1
      by apply append_nil_r.
    apply rep_greedy_take;
      [now apply not_dot_free | destruct dataset; [congruence|simpl; lia]
      | reflexivity | reflexivity |].
    reflexivity.
Qed.

Lemma id_part_elim (w : string) :
  id_part w = true ->
  w <> EmptyString /\ free_of "." w = true /\ free_of ":" w = true.
Proof.
  unfold id_part. intros H.
  apply andb_true_iff in H as [H Hc]. apply andb_true_iff in H as [H0 Hd].
  apply negb_true_iff, String.eqb_neq in H0. auto.
Qed.

Lemma free_of_cons (x c : ascii) (s : string) :
  free_of x (String c s) = negb (Ascii.eqb x c) && free_of x s.
Proof. reflexivity. Qed.

(** X12: a legacy identifier [prefix:project.dataset.resource], whose
    prefix may itself hold dots and colons (a domain, as in
    [example.com:project]), parses to the project [prefix:project] and
    the two other parts.  With two parts only, [prefix:project.dataset],
    the default project is returned, with [prefix:project] in the place
    of the dataset and the dataset in the place of the resource. *)
Theorem parse_3_part_id_legacy (prefix project dataset resource name : string)
    (default_project : option string) :
  all_chars not_space prefix = true -> prefix <> EmptyString ->
  id_part project = true -> id_part dataset = true ->
  id_part resource = true ->
  _parse_3_part_id
    (prefix +:+ ":" +:+ project +:+ "." +:+ dataset +:+ "." +:+ resource)
    default_project name
  = Ok (Some (prefix +:+ ":" +:+ project), dataset, resource)
  /\ (is_set default_project = true ->
      _parse_3_part_id (prefix +:+ ":" +:+ project +:+ "." +:+ dataset)
        default_project name
      = Ok (default_project, prefix +:+ ":" +:+ project, dataset)).
Proof.
  intros Hpre Hpre0 Hp Hd Hr.
  apply id_part_elim in Hp as (Hp0 & Hpd & Hpc).
  apply id_part_elim in Hd as (Hd0 & Hdd & Hdc).
  apply id_part_elim in Hr as (Hr0 & Hrd & Hrc).
  split.
  - destruct (prefix_match_3 prefix project dataset resource)
      as [whole Hm]; try assumption.
    { rewrite free_of_app, Hpc. cbn [andb].
      change ("." +:+ dataset +:+ "." +:+ resource)
        with (String "." (dataset +:+ "." +:+ resource)).
      rewrite free_of_cons, free_of_app, Hdc. cbn [andb negb].
      change ("." +:+ resource) with (String "." resource).
      now rewrite free_of_cons, Hrc. }
    unfold _parse_3_part_id, _split_id. rewrite Hm.
    cbn [truthy_groups flat_map group String.eqb Ascii.eqb Bool.eqb app].
    destruct dataset as [|cd dataset]; [congruence|].
    destruct resource as [|cr resource]; [congruence|].
    destruct prefix as [|cp prefix]; [congruence|].
    reflexivity.
  - intros Hset.
    destruct (prefix_match_2 prefix project dataset)
      as [whole Hm]; try assumption.
    { rewrite free_of_app, Hpc. cbn [andb].
      change ("." +:+ dataset) with (String "." dataset).
      now rewrite free_of_cons, Hdc. }
    unfold _parse_3_part_id, _split_id. rewrite Hm.
    cbn [truthy_groups flat_map group String.eqb Ascii.eqb Bool.eqb app].
    destruct dataset as [|cd dataset]; [congruence|].
    destruct prefix as [|cp prefix]; [congruence|].
    cbn [String.append List.length Nat.eqb negb andb]. now rewrite Hset.
Qed.

(** ** Optional numbers and null cells *)

Section MoreFields.
Context `{PyRuntime}.

(** X13: an integer of at most 4300 decimal digits, the interpreter's
    limit on the digits of a number, written by [_str_or_none] is read
    back by [_int_or_none]; an integer of more digits is refused by
    [_str_or_none] with a [ValueError]; and [None] stays [None] both
    ways. *)
Theorem int_or_none_of_str_or_none :
  (forall z, Z.abs z < 10 ^ Z.of_nat INT_MAX_STR_DIGITS ->
             (let* text := _str_or_none (VInt z) in _int_or_none text)
             = Ok (VInt z))
  /\ (forall z, 10 ^ Z.of_nat INT_MAX_STR_DIGITS <= Z.abs z ->
                raises ValueError (_str_or_none (VInt z)))
  /\ (let* text := _str_or_none VNone in _int_or_none text) = Ok VNone.
Proof.
  split; [|split; [|reflexivity]]; intros z Hz; cbn [_str_or_none].
  - rewrite int_to_text_within by exact Hz. cbn [bind].
    unfold _int_or_none. rewrite py_int_str_of_int by exact Hz.
    reflexivity.
  - rewrite int_to_text_beyond by exact Hz. eexists. reflexivity.
Qed.

Lemma not_null_nullable (field : SchemaField) :
  mode field = "NULLABLE" -> _not_null VNone (Some field) = false.
Proof. unfold _not_null. intros ->. reflexivity. Qed.

Lemma decoders_null (conv : converter) (field : option SchemaField) :
  _not_null VNone field = false ->
  In conv [ _int_from_json; _interval_from_json; _float_from_json;
            _decimal_from_json; _bool_from_json; _string_from_json;
            _bytes_from_json; _timestamp_from_json; _datetime_from_json;
            _date_from_json; _time_from_json;
            _timestamp_query_param_from_json ] ->
  conv VNone field = Ok VNone.
Proof.
  intros Hnn Hin. simpl in Hin.
  repeat (destruct Hin as [<- | Hin];
          [unfold _int_from_json, _interval_from_json, _float_from_json,
             _decimal_from_json, _bool_from_json, _string_from_json,
             _bytes_from_json, _timestamp_from_json, _datetime_from_json,
             _date_from_json, _time_from_json,
             _timestamp_query_param_from_json;
           rewrite ?Hnn; reflexivity|]).
  contradiction.
Qed.

Lemma record_null (field : option SchemaField) :
  _not_null VNone field = false -> _record_from_json VNone field = Ok VNone.
Proof.
  intros Hnn. destruct field as [f|]; [|reflexivity].
  unfold _record_from_json. destruct f as [n ty m subs].
  cbn [record_from_json]. now rewrite Hnn.
Qed.

Lemma table_null (t : list (string * converter)) (field : option SchemaField) :
  (forall ty conv, In (ty, conv) t -> conv VNone field = Ok VNone) ->
  forall ty conv, table_get t ty = Some conv -> conv VNone field = Ok VNone.
Proof.
  intros Hall ty conv. induction t as [|[k c] t IH]; [discriminate|].
  simpl. destruct (String.eqb k ty).
  - intros E. inversion E; subst. apply (Hall k). now left.
  - apply IH. intros ty' conv' Hin. apply (Hall ty'). now right.
Qed.

Lemma tables_null (field : option SchemaField) :
  _not_null VNone field = false ->
  forall ty conv, In (ty, conv) _QUERY_PARAMS_FROM_JSON ->
                  conv VNone field = Ok VNone.
Proof.
  intros Hnn ty conv Hin.
  unfold _QUERY_PARAMS_FROM_JSON, _CELLDATA_FROM_JSON, scalar_from_json in Hin.
  cbn [app In] in Hin.
  repeat (destruct Hin as [E | Hin];
          [inversion E; subst;
           first [ apply record_null; exact Hnn
                 | apply decoders_null; [exact Hnn | simpl; tauto] ] |]).
  contradiction.
Qed.

(** X14: a null cell of a NULLABLE column decodes to [None], whatever
    the column's type: through [_field_from_json], for a type that has a
    decoder and for one that has none, and through every decoder of the
    two tables, [_CELLDATA_FROM_JSON] and [_QUERY_PARAMS_FROM_JSON].  A
    decoder called without a field descriptor does the same. *)
Theorem null_cell_decoding (field : SchemaField) :
  mode field = "NULLABLE" ->
  _field_from_json VNone field = Ok VNone
  /\ (forall ty conv,
        table_get _CELLDATA_FROM_JSON ty = Some conv
        \/ table_get _QUERY_PARAMS_FROM_JSON ty = Some conv ->
        conv VNone (Some field) = Ok VNone /\ conv VNone None = Ok VNone).
Proof.
  intros Hmode. pose proof (not_null_nullable field Hmode) as Hnn.
  assert (Htab : forall ty conv,
             table_get _CELLDATA_FROM_JSON ty = Some conv
             \/ table_get _QUERY_PARAMS_FROM_JSON ty = Some conv ->
             conv VNone (Some field) = Ok VNone
             /\ conv VNone None = Ok VNone).
  { intros ty conv Hget.
    assert (Hall : forall field', _not_null VNone field' = false ->
                                  conv VNone field' = Ok VNone).
    { intros field' Hnn'. destruct Hget as [Hget|Hget].
      - apply (table_null _CELLDATA_FROM_JSON field') with (ty := ty);
          [|exact Hget].
        intros ty' conv' Hin. apply (tables_null field' Hnn' ty').
        now right.
      - apply (table_null _QUERY_PARAMS_FROM_JSON field') with (ty := ty);
          [|exact Hget].
        apply tables_null. exact Hnn'. }
    split; apply Hall; [exact Hnn | reflexivity]. }
  split; [|exact Htab].
  unfold _field_from_json.
  assert (Hrep : is_mode "REPEATED" field = false).
  { unfold is_mode. now rewrite Hmode. }
  rewrite Hrep.
  destruct (table_get _CELLDATA_FROM_JSON (field_type field)) as [conv|] eqn:E;
    [|reflexivity].
  apply (Htab (field_type field) conv). now left.
Qed.
End MoreFields.

(** ** The index of a field *)

Lemma index_from_get (schema : list SchemaField) :
  forall (i : nat) (mapping : gmap string nat) (n : string),
    ~ In n (map name schema) ->
    index_from i schema mapping !! n = mapping !! n.
Proof.
  induction schema as [|f schema IH]; intros i mapping n Hn; [reflexivity|].
  cbn [index_from]. rewrite IH by (intros Hin; apply Hn; now right).
  apply lookup_insert_ne. intros E. apply Hn. now left.
Qed.

Lemma index_from_nth (schema : list SchemaField) :
  forall (i j : nat) (mapping : gmap string nat) (f : SchemaField),
    List.NoDup (map name schema) ->
    nth_error schema j = Some f ->
    index_from i schema mapping !! name f = Some (i + j)%nat.
Proof.
  induction schema as [|g schema IH]; intros i j mapping f Hnd Hj.
  - destruct j; discriminate Hj.
  - cbn [map] in Hnd. inversion Hnd as [|? ? Hnotin Hnd']; subst.
    cbn [index_from]. destruct j as [|j].
    + simpl in Hj. inversion Hj; subst.
      rewrite index_from_get by exact Hnotin.
      rewrite lookup_insert_eq. f_equal. lia.
    + simpl in Hj. rewrite (IH (S i) j _ f Hnd' Hj). f_equal. lia.
Qed.

(** X15: when no two fields of a schema share a name,
    [_field_to_index_mapping] maps the name of every field to the
    position of that field, and maps no other name. *)
Theorem field_to_index_mapping_positions (schema : list SchemaField) :
  List.NoDup (map name schema) ->
  (forall j f, nth_error schema j = Some f ->
               _field_to_index_mapping schema !! name f = Some j)
  /\ (forall n, ~ In n (map name schema) ->
                _field_to_index_mapping schema !! n = None).
Proof.
  intros Hnd. unfold _field_to_index_mapping. split.
  - intros j f Hj. now rewrite (index_from_nth schema 0 j ∅ f Hnd Hj).
  - intros n Hn. now rewrite index_from_get, lookup_empty.
Qed.

Section MoreEncoders.
Context `{PyRuntime}.

Lemma math_float_ok (v : pyval) (f : spec_float) :
  math_float v = Ok f -> py_float v = Ok f.
Proof. destruct v; try discriminate; exact (fun E => E). Qed.

Lemma float_checked_finite (v : pyval) (r : spec_float) :
  (let* f := math_float v in
   if is_nan f || is_inf f then Ok (VStr (py_str v))
   else let* f' := py_float v in Ok (VFloat f')) = Ok (VFloat r) ->
  is_nan r = false /\ is_inf r = false.
Proof.
  destruct (math_float v) as [f|e] eqn:Ef; [|discriminate].
  cbn [bind]. rewrite (math_float_ok v f Ef).
  destruct (is_nan f || is_inf f) eqn:E; [discriminate|].
  cbn [bind]. intros Hr. inversion Hr; subst.
  now apply orb_false_iff in E.
Qed.

(** X16: [_float_to_json] never returns a float that JSON cannot hold:
    whatever the value, a float it returns is neither NaN nor
    infinite. *)
Theorem float_to_json_finite (value : pyval) (f : spec_float) :
  _float_to_json value = Ok (VFloat f) ->
  is_nan f = false /\ is_inf f = false.
Proof.
  unfold _float_to_json.
  destruct value as [| | | |s| | | | | | | | |]; try discriminate;
    try (cbn [bind]; apply float_checked_finite).
  destruct (py_float (VStr s)) as [x|e]; [|discriminate].
  cbn [bind]. apply float_checked_finite.
Qed.

Lemma mapM_length {A B} (g : A -> result B) (l : list A) (r : list B) :
  mapM g l = Ok r -> List.length r = List.length l.
Proof.
  revert r. induction l as [|x l IH]; intros r Hr.
  - inversion Hr. reflexivity.
  - simpl in Hr. destruct (g x) as [y|e]; [|discriminate Hr].
    simpl in Hr. destruct (mapM g l) as [ys|e]; [|discriminate Hr].
    inversion Hr; subst. simpl. now rewrite (IH ys eq_refl).
Qed.

Lemma mapM_nth {A B} (g : A -> result B) (l : list A) (r : list B) :
  mapM g l = Ok r ->
  forall i x, nth_error l i = Some x ->
              exists y, nth_error r i = Some y /\ g x = Ok y.
Proof.
  revert r. induction l as [|a l IH]; intros r Hr i x Hi.
  - destruct i; discriminate Hi.
  - simpl in Hr. destruct (g a) as [b|e] eqn:Ea; [|discriminate Hr].
    simpl in Hr. destruct (mapM g l) as [ys|e]; [|discriminate Hr].
    inversion Hr; subst. destruct i as [|i].
    + simpl in Hi. inversion Hi; subst. exists b. now split.
    + simpl in Hi. simpl. now apply (IH ys eq_refl).
Qed.

(** X17: a REPEATED field is encoded item by item.  The list
    [_field_to_json] returns for a list or a tuple has one entry per
    item, in the same order: [None] for an item that is [None], and for
    any other item what [_single_field_to_json] makes of it. *)
Theorem repeated_field_to_json_items (field : SchemaField)
    (items : list pyval) (row_value wire : pyval) :
  mode field = "REPEATED" ->
  row_value = VList items \/ row_value = VTuple items ->
  _field_to_json field row_value = Ok wire ->
  exists values,
    wire = VList values
    /\ List.length values = List.length items
    /\ forall i item, nth_error items i = Some item ->
         exists value,
           nth_error values i = Some value
           /\ _single_field_to_json field item = Ok value
           /\ (item = VNone -> value = VNone).
Proof.
  intros Hmode Hrow. rewrite field_to_json_eq.
  assert (Hrep : is_mode "REPEATED" field = true).
  { unfold is_mode. now rewrite Hmode. }
  assert (Hnone : is_none row_value = false) by now destruct Hrow; subst.
  assert (Hiter : py_iter row_value = Ok items) by now destruct Hrow; subst.
  rewrite Hnone, Hrep. unfold _repeated_field_to_json. rewrite Hiter.
  cbn [bind].
  destruct (mapM (_single_field_to_json field) items) as [values|e] eqn:Em;
    [|discriminate].
  intros E. inversion E; subst. exists values. split; [reflexivity|].
  split; [exact (mapM_length _ _ _ Em)|].
  intros i item Hi.
  destruct (mapM_nth _ _ _ Em i item Hi) as (value & Hv & Hs).
  exists value. split; [exact Hv|]. split; [exact Hs|].
  intros ->. unfold _single_field_to_json in Hs. simpl in Hs. congruence.
Qed.
End MoreEncoders.

(** ** Records by position *)

Section PositionalRows.
Context `{PyRuntime}.
Variable encode : SchemaField -> pyval -> result pyval.

Lemma dict_get_skip (k k' : string) (v : pyval) (row : pydict) :
  k <> k' -> dict_get ((k, v) :: row) k' = dict_get row k'.
Proof.
  intros Hne. simpl. destruct (String.eqb_spec k k'); [tauto|reflexivity].
Qed.

(** Reading the items by name gives what reading them by position
    gives, while the names that are still to come are not among those
    already passed. *)
Lemma encode_named_positional (subfields : list SchemaField) :
  forall (items : list pyval) (passed : pydict) (record : pydict),
    List.length items = List.length subfields ->
    List.NoDup (map name subfields) ->
    (forall f, In f subfields -> ~ In (name f) (dict_keys passed)) ->
    encode_named encode subfields (passed ++ row_of subfields items) record
    = encode_positional encode subfields items record.
Proof.
  induction subfields as [|f subfields IH];
    intros items passed record Hlen Hnd Hpassed; [reflexivity|].
  destruct items as [|item items]; [discriminate Hlen|].
  cbn [map] in Hnd. inversion Hnd as [|? ? Hnotin Hnd']; subst.
  cbn [encode_named encode_positional].
  assert (Hget : dict_get (passed ++ row_of (f :: subfields) (item :: items))
                          (name f) = Some item).
  { assert (Hp : ~ In (name f) (dict_keys passed))
      by (apply Hpassed; now left).
    clear -Hp. induction passed as [|[k v] passed IHp].
    - simpl. now rewrite String.eqb_refl.
    - simpl in Hp. cbn [app]. rewrite dict_get_skip by tauto.
      apply IHp. tauto. }
  rewrite Hget.
  destruct (store_subfield encode record f item) as [record'|e];
    [|reflexivity].
  cbn [bind].
  change (passed ++ row_of (f :: subfields) (item :: items))
    with (passed ++ [(name f, item)] ++ row_of subfields items).
  rewrite app_assoc. apply IH.
  - simpl in Hlen. lia.
  - exact Hnd'.
  - intros g Hg. unfold dict_keys. rewrite map_app. cbn [map fst].
    rewrite in_app_iff. intros [Hin|[E|[]]].
    + apply (Hpassed g); [now right | exact Hin].
    + apply Hnotin. rewrite E. now apply in_map.
Qed.

Lemma include_unknown_known (entries : pydict) (processed : list string)
    (record : pydict) :
  (forall k, In k (dict_keys entries) -> In k processed) ->
  include_unknown entries processed record = record.
Proof.
  revert record. induction entries as [|[k v] entries IH];
    intros record Hall; [reflexivity|].
  cbn [include_unknown]. assert (Hk : mem k processed = true).
  { apply mem_In. apply Hall. now left. }
  rewrite Hk. cbn [orb]. apply IH. intros k' Hk'. apply Hall. now right.
Qed.

Lemma row_of_keys (fields : list SchemaField) (items : list pyval) :
  forall k, In k (dict_keys (row_of fields items)) -> In k (map name fields).
Proof.
  unfold dict_keys, row_of. revert items.
  induction fields as [|f fields IH]; intros items k; [now simpl|].
  destruct items as [|item items]; [now simpl|].
  cbn [map combine fst]. intros [E|Hin]; [now left|right].
  now apply (IH items).
Qed.
End PositionalRows.

Section PositionalClaim.
Context `{PyRuntime}.

(** X18: a record given by position is encoded like the record given by
    name.  When no two subfields share a name and the tuple (or list)
    has one item per subfield, [_record_field_to_json] returns for it
    what it returns for the dict that gives every subfield's name the
    item at its position, errors included. *)
Theorem record_positional_as_named (fields : list SchemaField)
    (items : list pyval) (row_value : pyval) :
  List.NoDup (map name fields) ->
  List.length items = List.length fields ->
  row_value = VTuple items \/ row_value = VList items ->
  _record_field_to_json fields row_value
  = _record_field_to_json fields (VDict (row_of fields items)).
Proof.
  intros Hnd Hlen Hrow. unfold _record_field_to_json.
  assert (Hpos : record_field_to_json_with _field_to_json fields row_value
                 = let* record := encode_positional _field_to_json fields
                                    items [] in
                   Ok (VDict record)).
  { destruct Hrow; subst; cbn [record_field_to_json_with py_sequence bind];
      rewrite Hlen, Nat.eqb_refl; reflexivity. }
  rewrite Hpos. cbn [record_field_to_json_with].
  pose proof (encode_named_positional _field_to_json fields items []
                [] Hlen Hnd (fun _ _ Hin => Hin)) as E.
  cbn [app] in E. rewrite E.
  destruct (encode_positional _field_to_json fields items []) as [record|e];
    [|reflexivity].
  cbn [bind]. rewrite include_unknown_known; [reflexivity|].
  apply row_of_keys.
Qed.
End PositionalClaim.

(** ** Replacing text *)

Lemma replace_spent (old new : string) (s : string) :
  replace_from old new 0 (Some O) s = s.
Proof.
  induction s as [|c s IH]; [reflexivity|].
  cbn [replace_from]. rewrite andb_false_r. now rewrite IH.
Qed.

Lemma replace_absent (x : ascii) (old new : string) (count : option nat)
    (s : string) :
  free_of x s = true ->
  replace_from (String x old) new 0 count s = s.
Proof.
  unfold free_of. induction s as [|c s IH]; [reflexivity|].
  cbn [all_chars]. intros Hs. apply andb_true_iff in Hs as [Hc Hs].
  apply negb_true_iff in Hc.
  cbn [replace_from starts_with]. rewrite Hc. cbn [andb].
  now rewrite (IH Hs).
Qed.

Lemma replace_first (x : ascii) (new pre rest : string) :
  free_of x pre = true ->
  replace_from (String x EmptyString) new 0 (Some 1%nat)
    (pre +:+ String x rest)
  = pre +:+ new +:+ rest.
Proof.
  unfold free_of. induction pre as [|c pre IH].
  - intros _. cbn [String.append replace_from starts_with].
    rewrite Ascii.eqb_refl. cbn [andb String.length Nat.sub option_map
                                 Nat.pred].
    now rewrite replace_spent.
  - cbn [all_chars]. intros Hs. apply andb_true_iff in Hs as [Hc Hs].
    apply negb_true_iff in Hc.
    cbn [String.append replace_from starts_with]. rewrite Hc. cbn [andb].
    now rewrite (IH Hs).
Qed.

Lemma replace_utc_suffix (body : string) :
  free_of "+" body = true ->
  replace_from "+00:00" EmptyString 0 None (body +:+ "+00:00") = body.
Proof.
  unfold free_of. induction body as [|c body IH]; [reflexivity|].
  cbn [all_chars]. intros Hs. apply andb_true_iff in Hs as [Hc Hs].
  apply negb_true_iff in Hc.
  cbn [String.append replace_from starts_with]. rewrite Hc. cbn [andb].
  now rewrite (IH Hs).
Qed.

Lemma replace_zulu_suffix (body : string) :
  free_of "Z" body = true ->
  replace_from "Z" EmptyString 0 None (body +:+ "Z") = body.
Proof.
  unfold free_of. induction body as [|c body IH]; [reflexivity|].
  cbn [all_chars]. intros Hs. apply andb_true_iff in Hs as [Hc Hs].
  apply negb_true_iff in Hc.
  cbn [String.append replace_from starts_with]. rewrite Hc. cbn [andb].
  now rewrite (IH Hs).
Qed.

(** ** Printed fields hold digits only *)

Lemma digits_free (x : ascii) (s : string) :
  is_digit x = false -> all_chars is_digit s = true -> free_of x s = true.
Proof.
  intros Hx. apply all_chars_impl. intros c Hc.
  apply negb_true_iff. destruct (Ascii.eqb_spec x c); [|reflexivity].
  subst. congruence.
Qed.

Lemma fmt_free (x : ascii) (w : nat) (n : Z) :
  is_digit x = false -> 0 <= n < 10 ^ Z.of_nat (S w) ->
  free_of x (fmt_d0 (S w) n) = true.
Proof.
  intros Hx Hn. rewrite (fmt_d0_fixed w n Hn).
  apply digits_free; [exact Hx | apply fixed_digits_all].
Qed.

Lemma fmt2_free (x : ascii) (n : Z) :
  is_digit x = false -> 0 <= n <= 99 -> free_of x (fmt_d0 2 n) = true.
Proof.
  intros Hx Hn. apply fmt_free; [exact Hx|].
  change (10 ^ Z.of_nat 2) with 100. lia.
Qed.

Lemma fmt4_free (x : ascii) (n : Z) :
  is_digit x = false -> 0 <= n <= 9999 -> free_of x (fmt_d0 4 n) = true.
Proof.
  intros Hx Hn. apply fmt_free; [exact Hx|].
  change (10 ^ Z.of_nat 4) with 10000. lia.
Qed.

Lemma fmt6_free (x : ascii) (n : Z) :
  is_digit x = false -> 0 <= n <= 999999 -> free_of x (fmt_d0 6 n) = true.
Proof.
  intros Hx Hn. apply fmt_free; [exact Hx|].
  change (10 ^ Z.of_nat 6) with 1000000. lia.
Qed.

(** ** Datetimes without a fraction *)

Lemma format_no_fraction :
  format_regex (parse_format _RFC3339_NO_FRACTION) false
  = Some re_no_fraction.
Proof. reflexivity. Qed.

Lemma match_no_fraction (y m d h mi s : Z) :
  valid_ymd y m d = true ->
  valid_hmsu h mi s 0 = true ->
  exists c,
    re_match re_no_fraction
      (fmt_d0 4 y +:+ "-" +:+ fmt_d0 2 m +:+ "-" +:+ fmt_d0 2 d +:+ "T"
       +:+ fmt_d0 2 h +:+ ":" +:+ fmt_d0 2 mi +:+ ":" +:+ fmt_d0 2 s
       +:+ EmptyString)
    = Some (c, EmptyString,
            [("S", fmt_d0 2 s); ("M", fmt_d0 2 mi);
             ("H", fmt_d0 2 h); ("d", fmt_d0 2 d); ("m", fmt_d0 2 m);
             ("Y", fmt_d0 4 y)]).
Proof.
  unfold valid_ymd, valid_hmsu, MINYEAR, MAXYEAR. intros Hv Hw.
  split_valid Hv. split_valid Hw.
  pose proof (days_in_month_le y m).
  eexists. unfold re_match, re_no_fraction.
  repeat match_step. reflexivity.
Qed.

Lemma strptime_no_fraction (y m d h mi s : Z) :
  valid_ymd y m d = true ->
  valid_hmsu h mi s 0 = true ->
  strptime (fmt_d0 4 y +:+ "-" +:+ fmt_d0 2 m +:+ "-" +:+ fmt_d0 2 d +:+ "T"
            +:+ fmt_d0 2 h +:+ ":" +:+ fmt_d0 2 mi +:+ ":" +:+ fmt_d0 2 s)
           _RFC3339_NO_FRACTION
  = Ok (mkDatetime y m d h mi s 0 None).
Proof.
  intros Hv Hw. unfold strptime. rewrite format_no_fraction.
  destruct (match_no_fraction y m d h mi s Hv Hw) as [c Hc].
  rewrite append_nil_r in Hc. rewrite Hc.
  pose proof Hv as Hv'. unfold valid_ymd, MINYEAR, MAXYEAR in Hv'.
  pose proof Hw as Hw'. unfold valid_hmsu in Hw'.
  split_valid Hv'. split_valid Hw'. pose proof (days_in_month_le y m).
  groups. rewrite !int_fmt2, int_fmt4 by lia.
  cbv iota. unfold make_datetime.
  rewrite Hv, Hw. reflexivity.
Qed.

Section IsoDecoding.
Local Opaque fmt_d0 strptime.

Lemma valid_fields (y m d h mi s us : Z) :
  valid_ymd y m d = true -> valid_hmsu h mi s us = true ->
  (0 <= y <= 9999 /\ 0 <= m <= 99 /\ 0 <= d <= 99)
  /\ (0 <= h <= 99 /\ 0 <= mi <= 99 /\ 0 <= s <= 99 /\ 0 <= us <= 999999).
Proof.
  intros Hv Hw. pose proof (days_in_month_le y m).
  unfold valid_ymd, MINYEAR, MAXYEAR in Hv. unfold valid_hmsu in Hw.
  split_valid Hv. split_valid Hw. lia.
Qed.

(** The text of a date and a time holds none of the characters the
    decoders look for, but the separator and the dot of a fraction. *)
Lemma stamp_free (x : ascii) (y m d h mi s : Z) (sep : ascii) :
  is_digit x = false ->
  Ascii.eqb x "-" = false -> Ascii.eqb x ":" = false ->
  Ascii.eqb x sep = false ->
  valid_ymd y m d = true -> valid_hmsu h mi s 0 = true ->
  free_of x (fmt_d0 4 y +:+ "-" +:+ fmt_d0 2 m +:+ "-" +:+ fmt_d0 2 d
             +:+ String sep EmptyString
             +:+ fmt_d0 2 h +:+ ":" +:+ fmt_d0 2 mi +:+ ":" +:+ fmt_d0 2 s)
  = true.
Proof.
  intros Hx H1 H2 H3 Hv Hw.
  destruct (valid_fields y m d h mi s 0 Hv Hw) as [(? & ? & ?) (? & ? & ? & _)].
  rewrite !free_of_app, fmt4_free, !fmt2_free by (assumption || lia).
  unfold free_of. cbn [all_chars]. now rewrite H1, H2, H3.
Qed.

(** X19: [_datetime_from_json] reads what [isoformat] prints.  For a
    naive datetime, with or without microseconds, decoding its ISO text
    gives the datetime back. *)
Theorem datetime_from_json_isoformat (v : datetime) (field : SchemaField) :
  valid_datetime v = true -> dt_tzinfo v = None ->
  _datetime_from_json (VStr (datetime_isoformat "T" v)) (Some field)
  = Ok (VDatetime v).
Proof.
  intros Hv Htz. destruct v as [y m d h mi s us tz]. simpl in Htz. subst tz.
  unfold valid_datetime in Hv. simpl in Hv. rewrite andb_true_r in Hv.
  apply andb_true_iff in Hv as [Hd Ht].
  unfold _datetime_from_json. cbn [_not_null is_none negb orb py_contains bind].
  unfold datetime_isoformat, date_isoformat, format_time, format_offset,
    datetime_date.
  cbn [year month day dt_year dt_month dt_day dt_hour dt_minute dt_second
       dt_microsecond dt_tzinfo].
  rewrite append_nil_r, !append_assoc. cbn [String.append].
  destruct (Z.eqb_spec us 0) as [->|Hus].
  - rewrite append_nil_r.
    pose proof (stamp_free "." y m d h mi s "T" eq_refl eq_refl eq_refl
                  eq_refl Hd Ht) as F.
    cbn [String.append] in F. rewrite contains_char, F. cbn [negb bind].
    unfold py_strptime.
    pose proof (strptime_no_fraction y m d h mi s Hd Ht) as E.
    cbn [String.append] in E. rewrite E. reflexivity.
  - pose proof (contains_dot (fmt_d0 4 y) (fmt_d0 2 m) (fmt_d0 2 d)
                  (fmt_d0 2 h) (fmt_d0 2 mi) (fmt_d0 2 s) (fmt_d0 6 us)) as C.
    cbn [String.append] in C. rewrite C. cbn [bind]. unfold py_strptime.
    pose proof (strptime_micros y m d h mi s us Hd Ht) as E.
    cbn [String.append] in E. rewrite E. reflexivity.
Qed.
End IsoDecoding.

Ltac norm_text :=
  repeat first [ rewrite append_assoc | progress cbn [String.append] ].

Section TimestampParameters.
Context `{PyRuntime}.
Local Opaque fmt_d0 strptime.

Lemma valid_hmsu_zero (h mi s us : Z) :
  valid_hmsu h mi s us = true -> valid_hmsu h mi s 0 = true.
Proof.
  unfold valid_hmsu. intros Hv. split_valid Hv.
  repeat (apply andb_true_iff; split); apply Z.leb_le; lia.
Qed.

(** Decoding the text of a query parameter that was printed from the
    UTC reading [u]. *)
Lemma decode_param_text (u : datetime) (field : option SchemaField) :
  valid_datetime u = true ->
  _timestamp_query_param_from_json (VStr (param_text u)) field
  = Ok (VDatetime (replace_tzinfo u (Some 0))).
Proof.
  destruct u as [y m d h mi s us tz]. unfold valid_datetime.
  cbn [dt_year dt_month dt_day dt_hour dt_minute dt_second dt_microsecond
       dt_tzinfo].
  intros Hv. apply andb_true_iff in Hv as [Hv _].
  apply andb_true_iff in Hv as [Hd Ht].
  pose proof (valid_hmsu_zero h mi s us Ht) as Ht0.
  destruct (valid_fields y m d h mi s us Hd Ht)
    as [(? & ? & ?) (? & ? & ? & ?)].
  unfold _timestamp_query_param_from_json.
  cbn [_not_null is_none negb orb].
  unfold param_text, date_isoformat, time_isoformat, format_time,
    format_offset, datetime_date, datetime_time, replace_tzinfo.
  cbn [year month day hour minute second microsecond tzinfo
       dt_year dt_month dt_day dt_hour dt_minute dt_second dt_microsecond].
  unfold str_replace.
  rewrite append_nil_r.
  set (date_text := fmt_d0 4 y +:+ "-" +:+ fmt_d0 2 m +:+ "-" +:+ fmt_d0 2 d).
  change (" " +:+ ?x) with (String " " x).
  assert (Hdate : free_of " " date_text = true).
  { unfold date_text.
    rewrite !free_of_app, fmt4_free, !fmt2_free by (reflexivity || lia).
    reflexivity. }
  rewrite (replace_first " " "T" date_text _ Hdate).
  unfold date_text. clear Hdate date_text.
  destruct (Z.eqb_spec us 0) as [->|Hus]; norm_text.
  - 
    pose proof (stamp_free "Z" y m d h mi s "T" eq_refl eq_refl eq_refl
                  eq_refl Hd Ht0) as FZ.
    pose proof (stamp_free "+" y m d h mi s "T" eq_refl eq_refl eq_refl
                  eq_refl Hd Ht0) as FP.
    pose proof (stamp_free "." y m d h mi s "T" eq_refl eq_refl eq_refl
                  eq_refl Hd Ht0) as FD.
    cbn [String.append] in FZ, FP, FD.
    set (body := fmt_d0 4 y +:+ String "-" (fmt_d0 2 m +:+ String "-"
                   (fmt_d0 2 d +:+ String "T" (fmt_d0 2 h +:+ String ":"
                      (fmt_d0 2 mi +:+ String ":" (fmt_d0 2 s)))))) in *.
    replace (fmt_d0 4 y +:+ String "-" (fmt_d0 2 m +:+ String "-"
               (fmt_d0 2 d +:+ String "T" (fmt_d0 2 h +:+ String ":"
                  (fmt_d0 2 mi +:+ String ":" (fmt_d0 2 s +:+ "+00:00"))))))
      with (body +:+ "+00:00")
      by (unfold body; norm_text; reflexivity).
    rewrite (replace_absent "Z" EmptyString EmptyString None).
    2:{ rewrite free_of_app, FZ. reflexivity. }
    rewrite (replace_utc_suffix body FP).
    rewrite contains_char, FD. cbn [negb].
    pose proof (strptime_no_fraction y m d h mi s Hd Ht0) as E.
    cbn [String.append] in E. fold body in E. rewrite E. reflexivity.
  - pose proof (stamp_free "Z" y m d h mi s "T" eq_refl eq_refl eq_refl
                  eq_refl Hd Ht0) as FZ.
    pose proof (stamp_free "+" y m d h mi s "T" eq_refl eq_refl eq_refl
                  eq_refl Hd Ht0) as FP.
    cbn [String.append] in FZ, FP.
    set (stamp := fmt_d0 4 y +:+ "-" +:+ fmt_d0 2 m +:+ "-" +:+ fmt_d0 2 d
                  +:+ "T" +:+ fmt_d0 2 h +:+ ":" +:+ fmt_d0 2 mi +:+ ":"
                  +:+ fmt_d0 2 s) in *.
    set (body := stamp +:+ "." +:+ fmt_d0 6 us).
    assert (Hbody : forall x, is_digit x = false -> Ascii.eqb x "." = false ->
                      free_of x stamp = true -> free_of x body = true).
    { intros x Hx Hdot Hs. unfold body.
      rewrite !free_of_app, Hs, fmt6_free by (assumption || lia).
      unfold free_of. cbn [all_chars]. now rewrite Hdot. }
    replace (fmt_d0 4 y +:+ String "-" (fmt_d0 2 m +:+ String "-"
               (fmt_d0 2 d +:+ String "T" (fmt_d0 2 h +:+ String ":"
                  (fmt_d0 2 mi +:+ String ":"
                     (fmt_d0 2 s +:+ String "." (fmt_d0 6 us +:+ "+00:00")))))))
      with (body +:+ "+00:00")
      by (unfold body, stamp; norm_text; reflexivity).
    rewrite (replace_absent "Z" EmptyString EmptyString None).
    2:{ rewrite free_of_app, (Hbody "Z"%char eq_refl eq_refl FZ). reflexivity. }
    rewrite (replace_utc_suffix body (Hbody "+"%char eq_refl eq_refl FP)).
    assert (Hdot : contains body "." = true).
    { unfold body, stamp. rewrite !append_assoc. apply contains_dot. }
    rewrite Hdot.
    pose proof (strptime_micros y m d h mi s us Hd Ht) as E.
    replace (fmt_d0 4 y +:+ "-" +:+ fmt_d0 2 m +:+ "-" +:+ fmt_d0 2 d +:+ "T"
             +:+ fmt_d0 2 h +:+ ":" +:+ fmt_d0 2 mi +:+ ":" +:+ fmt_d0 2 s
             +:+ "." +:+ fmt_d0 6 us) with body in E
      by (unfold body, stamp; norm_text; reflexivity).
    rewrite E. reflexivity.
Qed.
End TimestampParameters.

Section TimestampClaims.
Context `{PyRuntime}.

Lemma wall_us_replace (v : datetime) (tz : option Z) :
  wall_us (replace_tzinfo v tz) = wall_us v.
Proof. reflexivity. Qed.

(** X20: a timestamp written as a query parameter is read back as the
    same instant, in UTC.  For a valid datetime that
    [_timestamp_to_json_parameter] encodes,
    [_timestamp_query_param_from_json] decodes the text to a datetime in
    UTC whose reading is that of the datetime less its UTC offset; for a
    naive datetime or one in UTC this is the datetime itself, marked as
    UTC. *)
Theorem timestamp_parameter_roundtrip (v : datetime) (wire : pyval)
    (field : SchemaField) :
  valid_datetime v = true ->
  _timestamp_to_json_parameter (VDatetime v) = Ok wire ->
  exists u,
    _timestamp_query_param_from_json wire (Some field) = Ok (VDatetime u)
    /\ valid_datetime u = true
    /\ dt_tzinfo u = Some 0
    /\ wall_us u = wall_us v - utc_offset v
    /\ (has_other_zone v = None -> u = replace_tzinfo v (Some 0)).
Proof.
  intros Hv. unfold _timestamp_to_json_parameter.
  destruct (has_other_zone v) as [off|] eqn:Hz.
  - pose proof (datetime_add_us_spec (replace_tzinfo v None) (- off)) as Hadd.
    destruct (representable (wall_us (replace_tzinfo v None) + - off)).
    + destruct Hadd as (u & Hu & Hymd & Hhms & Htz & Hwall).
      rewrite Hu. cbn [bind]. intros E. inversion E; subst wire. clear E.
      assert (Hvalid : valid_datetime u = true).
      { unfold valid_datetime. rewrite Hymd, Hhms, Htz. reflexivity. }
      exists (replace_tzinfo u (Some 0)).
      split; [exact (decode_param_text u (Some field) Hvalid)|].
      split; [|split; [reflexivity|split]].
      * unfold valid_datetime, replace_tzinfo.
        cbn [dt_year dt_month dt_day dt_hour dt_minute dt_second
             dt_microsecond dt_tzinfo].
        now rewrite Hymd, Hhms.
      * rewrite wall_us_replace, Hwall, wall_us_replace.
        unfold has_other_zone in Hz. unfold utc_offset.
        destruct (dt_tzinfo v) as [o|]; [|discriminate Hz].
        destruct (o =? 0); [discriminate Hz|]. inversion Hz. lia.
      * discriminate.
    + rewrite Hadd. discriminate.
  - cbn [bind]. intros E. inversion E; subst wire. clear E.
    exists (replace_tzinfo v (Some 0)).
    split; [exact (decode_param_text v (Some field) Hv)|].
    split; [|split; [reflexivity|split; [|reflexivity]]].
    + unfold valid_datetime in *. unfold replace_tzinfo.
      cbn [dt_year dt_month dt_day dt_hour dt_minute dt_second
           dt_microsecond dt_tzinfo].
      apply andb_true_iff in Hv as [Hv _]. now rewrite Hv.
    + rewrite wall_us_replace. unfold has_other_zone in Hz.
      unfold utc_offset. destruct (dt_tzinfo v) as [o|]; [|lia].
      destruct (Z.eqb_spec o 0); [lia | discriminate Hz].
Qed.

(** The counts of microseconds of the years 1 to 9999 have 18 digits at
    most. *)
Lemma epoch_count_within_limit (us : Z) :
  -62135596800000000 <= us <= 253402300799999999 ->
  Z.abs us < 10 ^ Z.of_nat INT_MAX_STR_DIGITS.
Proof.
  intros Hrange.
  assert (Hpow : 10 ^ 18 <= 10 ^ Z.of_nat INT_MAX_STR_DIGITS).
  { apply Z.pow_le_mono_r; [lia|]. vm_compute. discriminate. }
  change (10 ^ 18) with 1000000000000000000 in Hpow. lia.
Qed.

(** X21: [_timestamp_from_json] reads a count of microseconds since the
    epoch, given as a number or as its decimal text.  For a count that
    falls in the years 1 to 9999 it returns a valid datetime in UTC
    whose reading is that many microseconds after the epoch's.  For any
    other count it raises an [OverflowError] when the count is given as
    a number, or as a text of at most 4300 digits, the interpreter's
    limit on the digits of a number; a text of more digits is refused
    with a [ValueError] before the count is looked at. *)
Theorem timestamp_from_json_epoch (us : Z) (wire : pyval)
    (field : SchemaField) :
  wire = VInt us \/ wire = VStr (str_of_int us) ->
  (-62135596800000000 <= us <= 253402300799999999 ->
   exists v,
     _timestamp_from_json wire (Some field) = Ok (VDatetime v)
     /\ valid_datetime v = true
     /\ dt_tzinfo v = Some 0
     /\ wall_us v = wall_us EPOCH + us)
  /\ (us < -62135596800000000 \/ 253402300799999999 < us ->
      wire = VInt us \/ Z.abs us < 10 ^ Z.of_nat INT_MAX_STR_DIGITS ->
      _timestamp_from_json wire (Some field) = raise OverflowError)
  /\ (wire = VStr (str_of_int us) ->
      10 ^ Z.of_nat INT_MAX_STR_DIGITS <= Z.abs us ->
      raises ValueError (_timestamp_from_json wire (Some field))).
Proof.
  intros Hwire.
  assert (Hrun : wire = VInt us
                 \/ Z.abs us < 10 ^ Z.of_nat INT_MAX_STR_DIGITS ->
                 _timestamp_from_json wire (Some field)
                 = let* v := datetime_add_us EPOCH us in Ok (VDatetime v)).
  { intros Hin. unfold _timestamp_from_json, datetime_from_microseconds.
    destruct Hwire as [-> | ->].
    - reflexivity.
    - destruct Hin as [Hin | Hin]; [discriminate Hin|].
      cbn [_not_null is_none negb orb].
      rewrite py_int_str_of_int by exact Hin. reflexivity. }
  pose proof (datetime_add_us_spec EPOCH us) as Hadd.
  unfold representable in Hadd.
  change (wall_us EPOCH) with 62135683200000000 in *.
  unfold DAY_US, MAXORDINAL in Hadd.
  split; [|split].
  3: { intros -> Hbig. unfold _timestamp_from_json.
       cbn [_not_null is_none negb orb].
       rewrite py_int_str_of_int_beyond by exact Hbig.
       eexists. reflexivity. }
  - intros Hrange.
    rewrite Hrun by (right; apply epoch_count_within_limit; exact Hrange).
    destruct ((86400000000 <=? 62135683200000000 + us)
              && (62135683200000000 + us <? (3652059 + 1) * 86400000000))
      eqn:Hr.
    + destruct Hadd as (u & Hu & Hymd & Hhms & Htz & Hwall).
      exists u. rewrite Hu. split; [reflexivity|].
      split; [|split; [exact Htz | exact Hwall]].
      unfold valid_datetime. now rewrite Hymd, Hhms, Htz.
    + exfalso. apply andb_false_iff in Hr as [Hr|Hr];
        [apply Z.leb_gt in Hr | apply Z.ltb_ge in Hr]; lia.
  - intros Hout Hin. rewrite (Hrun Hin).
    destruct ((86400000000 <=? 62135683200000000 + us)
              && (62135683200000000 + us <? (3652059 + 1) * 86400000000))
      eqn:Hr.
    + exfalso. apply andb_true_iff in Hr as [Hlo Hhi].
      apply Z.leb_le in Hlo. apply Z.ltb_lt in Hhi. lia.
    + rewrite Hadd. reflexivity.
Qed.
End TimestampClaims.

(** ** Records read from the wire *)

Section RecordDecoding.
Context `{PyRuntime}.

Lemma table_get_app {A} (t u : list (string * A)) (k : string) :
  table_get (t ++ u) k
  = match table_get t k with Some a => Some a | None => table_get u k end.
Proof.
  induction t as [|[k' a] t IH]; [reflexivity|].
  simpl. destruct (String.eqb k' k); [reflexivity | exact IH].
Qed.

Lemma scalar_not_record :
  table_get scalar_from_json "RECORD" = None.
Proof. reflexivity. Qed.

(** What the loop of [_record_from_json] does with one cell: the
    decoder of the subfield's type is looked up first, so a type without
    one is a [KeyError]; otherwise the cell is decoded as
    [_field_from_json] decodes it. *)
Lemma record_cell (subfield : SchemaField) (cell : pyval) (A : Type)
    (k : pyval -> result A) :
  (let* conv :=
     if String.eqb (field_type subfield) "RECORD"
     then Ok (record_from_json subfield)
     else
       match table_get scalar_from_json (field_type subfield) with
       | Some c => Ok (fun v => c v (Some subfield))
       | None => raise KeyError
       end in
   let* cv := py_getitem cell "v" in
   let* v :=
     if is_mode "REPEATED" subfield then convert_items conv cv
     else conv cv in
   k v)
  = match table_get _CELLDATA_FROM_JSON (field_type subfield) with
    | Some _ => let* v := cell_from_json cell subfield in k v
    | None => raise KeyError
    end.
Proof.
  unfold cell_from_json, _field_from_json, _CELLDATA_FROM_JSON.
  rewrite table_get_app. cbn [table_get].
  destruct (String.eqb_spec (field_type subfield) "RECORD") as [E|N].
  - rewrite E, scalar_not_record. cbn [String.eqb Ascii.eqb Bool.eqb bind].
    destruct (py_getitem cell "v") as [cv|e]; reflexivity.
  - destruct (table_get scalar_from_json (field_type subfield)) as [c|] eqn:Ec.
    + cbn [bind].
      destruct (py_getitem cell "v") as [cv|e]; reflexivity.
    + destruct (String.eqb_spec "RECORD" (field_type subfield)) as [E|_];
        [congruence | reflexivity].
Qed.

Lemma first_names (n : nat) (subfields : list SchemaField) (k : string) :
  In k (map name (firstn n subfields)) -> In k (map name subfields).
Proof.
  revert n. induction subfields as [|sub subfields IH]; intros n Hin.
  - now destruct n.
  - destruct n as [|n]; [contradiction|].
    simpl in Hin. destruct Hin as [E|Hin]; [now left|right].
    now apply (IH n).
Qed.

(** What a record that was decoded tells about its cells. *)
Lemma record_from_json_ok (field : SchemaField) (row : pydict)
    (cells : list pyval) (wire : pyval) :
  dict_get row "f" = Some (VList cells) ->
  _record_from_json (VDict row) (Some field) = Ok wire ->
  exists record,
    wire = VDict record
    /\ (forall i sub,
          nth_error (fields field) i = Some sub ->
          (i < List.length cells)%nat ->
          table_get _CELLDATA_FROM_JSON (field_type sub) <> None)
    /\ (List.NoDup (map name (fields field)) ->
        forall i sub cell,
          nth_error (fields field) i = Some sub ->
          nth_error cells i = Some cell ->
          exists v, cell_from_json cell sub = Ok v
                    /\ dict_get record (name sub) = Some v)
    /\ (forall k,
          ~ In k (map name (firstn (List.length cells) (fields field))) ->
          dict_get record k = None).
Proof.
  intros Hf. destruct field as [n ty m subs]. cbn [fields] in *.
  unfold _record_from_json. cbn [record_from_json].
  cbn [_not_null is_none negb orb py_getitem]. rewrite Hf.
  cbn [of_option bind py_iter fields].
  set (loop := fix loop (subfields : list SchemaField) (cells : list pyval)
                   (record : pydict) {struct subfields} : result pyval :=
                 match subfields, cells with
                 | subfield :: subfields', cell :: cells' => _
                 | _, _ => Ok (VDict record)
                 end).
  assert (Hloop : forall subfields cells0 record0 wire0,
             loop subfields cells0 record0 = Ok wire0 ->
             exists record,
               wire0 = VDict record
               /\ (forall i sub,
                     nth_error subfields i = Some sub ->
                     (i < List.length cells0)%nat ->
                     table_get _CELLDATA_FROM_JSON (field_type sub) <> None)
               /\ (List.NoDup (map name subfields) ->
                   forall i sub cell,
                     nth_error subfields i = Some sub ->
                     nth_error cells0 i = Some cell ->
                     exists v, cell_from_json cell sub = Ok v
                               /\ dict_get record (name sub) = Some v)
               /\ (forall k,
                     ~ In k (map name (firstn (List.length cells0) subfields)) ->
                     dict_get record k = dict_get record0 k)).
  { clear. induction subfields as [|sub subfields IH];
      intros cells0 record0 wire0 Hrun.
    - simpl in Hrun. inversion Hrun; subst. exists record0.
      split; [reflexivity|]. split; [|split; [|reflexivity]].
      + intros i sub Hi. destruct i; discriminate Hi.
      + intros _ i sub cell Hi. destruct i; discriminate Hi.
    - destruct cells0 as [|cell cells0].
      + simpl in Hrun. inversion Hrun; subst. exists record0.
        split; [reflexivity|]. split; [|split; [|reflexivity]].
        * intros i s0 _ Hlt. simpl in Hlt. lia.
        * intros _ i s0 c0 _ Hc. destruct i; discriminate Hc.
      + unfold loop in Hrun. cbn beta iota fix in Hrun. fold loop in Hrun.
        rewrite (record_cell sub cell) in Hrun.
        destruct (table_get _CELLDATA_FROM_JSON (field_type sub)) as [conv|]
          eqn:Econv; [|discriminate Hrun].
        destruct (cell_from_json cell sub) as [v|e] eqn:Ev;
          [|discriminate Hrun].
        cbn [bind] in Hrun.
        destruct (IH cells0 _ wire0 Hrun)
          as (record & Hw & Htypes & Hcells & Hrest).
        exists record. split; [exact Hw|]. split; [|split].
        * intros i s0 Hi Hlt. destruct i as [|i].
          -- simpl in Hi. inversion Hi; subst. congruence.
          -- simpl in Hi, Hlt. apply (Htypes i s0 Hi). lia.
        * intros Hnd. cbn [map] in Hnd.
          inversion Hnd as [|? ? Hnotin Hnd']; subst.
          intros i s0 c0 Hi Hc. destruct i as [|i].
          -- simpl in Hi, Hc. inversion Hi; inversion Hc; subst.
             exists v. split; [exact Ev|].
             rewrite Hrest.
             ++ apply dict_get_set_eq.
             ++ intros Hin. apply Hnotin.
                exact (first_names _ _ _ Hin).
          -- simpl in Hi, Hc. apply (Hcells Hnd' i s0 c0 Hi Hc).
        * intros k Hk. cbn [List.length firstn map] in Hk.
          rewrite Hrest by (intros Hin; apply Hk; now right).
          apply dict_get_set_ne. intros E. apply Hk. now left. }
  intros Hrun. destruct (Hloop subs cells [] wire Hrun)
    as (record & Hw & Htypes & Hcells & Hrest).
  exists record. split; [exact Hw|]. split; [exact Htypes|].
  split; [exact Hcells|].
  intros k Hk. now rewrite (Hrest k Hk).
Qed.

(** X22: inside a record every cell is decoded as [_field_from_json]
    decodes it, and stored under the name of its subfield.  When no two
    subfields share a name and [_record_from_json] returns, the result
    is a dict that holds, for every subfield that has a cell at its
    position, what [_field_from_json] returns for that cell's value, and
    holds nothing under any other name: subfields beyond the last cell
    are left out, cells beyond the last subfield are ignored. *)
Theorem record_from_json_cells (field : SchemaField) (row : pydict)
    (cells : list pyval) (wire : pyval) :
  dict_get row "f" = Some (VList cells) ->
  List.NoDup (map name (fields field)) ->
  _record_from_json (VDict row) (Some field) = Ok wire ->
  exists record,
    wire = VDict record
    /\ (forall i sub cell,
          nth_error (fields field) i = Some sub ->
          nth_error cells i = Some cell ->
          exists v, cell_from_json cell sub = Ok v
                    /\ dict_get record (name sub) = Some v)
    /\ (forall k,
          ~ In k (map name (firstn (List.length cells) (fields field))) ->
          dict_get record k = None).
Proof.
  intros Hf Hnd Hrun.
  destruct (record_from_json_ok field row cells wire Hf Hrun)
    as (record & Hw & _ & Hcells & Hrest).
  exists record. split; [exact Hw|]. split; [exact (Hcells Hnd) | exact Hrest].
Qed.

(** X23: inside a record a type without a decoder is an error, not a
    pass-through.  [_record_from_json] never returns when a subfield
    that has a cell is of a type that [_CELLDATA_FROM_JSON] does not
    list, and when that subfield is the first one it raises a
    [KeyError], before it looks at the cell. *)
Theorem record_from_json_unregistered_subfield (field : SchemaField)
    (row : pydict) (cells : list pyval) (i : nat) (sub : SchemaField) :
  dict_get row "f" = Some (VList cells) ->
  nth_error (fields field) i = Some sub ->
  (i < List.length cells)%nat ->
  table_get _CELLDATA_FROM_JSON (field_type sub) = None ->
  (forall wire, _record_from_json (VDict row) (Some field) <> Ok wire)
  /\ (i = O -> _record_from_json (VDict row) (Some field) = raise KeyError).
Proof.
  intros Hf Hi Hlt Hty. split.
  - intros wire Hrun.
    destruct (record_from_json_ok field row cells wire Hf Hrun)
      as (record & _ & Htypes & _).
    exact (Htypes i sub Hi Hlt Hty).
  - intros ->. destruct field as [n ty m subs]. cbn [fields] in Hi.
    destruct subs as [|s0 subs]; [discriminate Hi|].
    simpl in Hi. inversion Hi; subst s0.
    destruct cells as [|cell cells]; [simpl in Hlt; lia|].
    unfold _record_from_json. cbn [record_from_json].
    cbn [_not_null is_none negb orb py_getitem]. rewrite Hf.
    cbn [of_option bind py_iter fields].
    rewrite (record_cell sub cell). now rewrite Hty.
Qed.
End RecordDecoding.

Section RowTimestamps.
Context `{PyRuntime}.
Local Opaque fmt_d0 strptime.

(** What [_timestamp_to_json_row] prints for a year the platform writes
    with four digits. *)
Lemma strftime_zulu (y m d h mi s us : Z) :
  strftime_pads_year = true \/ 1000 <= y <= 9999 ->
  strftime strftime_pads_year (mkDatetime y m d h mi s us None)
           _RFC3339_MICROS
  = (fmt_d0 4 y +:+ "-" +:+ fmt_d0 2 m +:+ "-" +:+ fmt_d0 2 d +:+ "T"
     +:+ fmt_d0 2 h +:+ ":" +:+ fmt_d0 2 mi +:+ ":" +:+ fmt_d0 2 s
     +:+ "." +:+ fmt_d0 6 us) +:+ "Z".
Proof.
  intros Hy. unfold strftime. simpl. norm_text.
  destruct strftime_pads_year; [reflexivity|].
  destruct Hy as [Hy|Hy]; [discriminate Hy|].
  now rewrite (str_of_int_four_digits y Hy).
Qed.

Lemma stamp_micros_free (x : ascii) (y m d h mi s us : Z) :
  is_digit x = false ->
  Ascii.eqb x "-" = false -> Ascii.eqb x ":" = false ->
  Ascii.eqb x "T" = false -> Ascii.eqb x "." = false ->
  valid_ymd y m d = true -> valid_hmsu h mi s us = true ->
  free_of x (fmt_d0 4 y +:+ "-" +:+ fmt_d0 2 m +:+ "-" +:+ fmt_d0 2 d
             +:+ "T" +:+ fmt_d0 2 h +:+ ":" +:+ fmt_d0 2 mi +:+ ":"
             +:+ fmt_d0 2 s +:+ "." +:+ fmt_d0 6 us)
  = true.
Proof.
  intros Hx H1 H2 H3 H4 Hv Hw.
  destruct (valid_fields y m d h mi s us Hv Hw)
    as [(? & ? & ?) (? & ? & ? & ?)].
  rewrite !free_of_app, fmt4_free, !fmt2_free, fmt6_free
    by (assumption || lia).
  unfold free_of. cbn [all_chars]. now rewrite H1, H2, H3, H4.
Qed.

(** X24: the text [_timestamp_to_json_row] prints for a naive datetime,
    which it takes to be in UTC, is read by
    [_timestamp_query_param_from_json] as that datetime in UTC, in the
    years the platform's [strftime] writes with four digits. *)
Theorem timestamp_row_text_as_parameter (v : datetime)
    (field : SchemaField) :
  valid_datetime v = true -> dt_tzinfo v = None ->
  strftime_pads_year = true \/ 1000 <= dt_year v ->
  exists text,
    _timestamp_to_json_row (VDatetime v) = Ok (VStr text)
    /\ _timestamp_query_param_from_json (VStr text) (Some field)
       = Ok (VDatetime (replace_tzinfo v (Some 0))).
Proof.
  intros Hv Htz Hy. destruct v as [y m d h mi s us tz].
  simpl in Htz, Hy. subst tz.
  unfold valid_datetime in Hv. simpl in Hv. rewrite andb_true_r in Hv.
  apply andb_true_iff in Hv as [Hd Ht].
  assert (Hy' : strftime_pads_year = true \/ 1000 <= y <= 9999).
  { destruct Hy as [Hy|Hy]; [now left|right].
    pose proof Hd as Hmax. unfold valid_ymd, MAXYEAR in Hmax.
    rewrite !andb_true_iff, !Z.leb_le in Hmax. lia. }
  eexists. split.
  - unfold _timestamp_to_json_row, to_utc_if_zoned. cbn [dt_tzinfo bind].
    rewrite (strftime_zulu y m d h mi s us Hy'). reflexivity.
  - set (body := fmt_d0 4 y +:+ "-" +:+ fmt_d0 2 m +:+ "-" +:+ fmt_d0 2 d
                 +:+ "T" +:+ fmt_d0 2 h +:+ ":" +:+ fmt_d0 2 mi +:+ ":"
                 +:+ fmt_d0 2 s +:+ "." +:+ fmt_d0 6 us).
    pose proof (stamp_micros_free " " y m d h mi s us eq_refl eq_refl eq_refl
                  eq_refl eq_refl Hd Ht) as FS.
    pose proof (stamp_micros_free "Z" y m d h mi s us eq_refl eq_refl eq_refl
                  eq_refl eq_refl Hd Ht) as FZ.
    pose proof (stamp_micros_free "+" y m d h mi s us eq_refl eq_refl eq_refl
                  eq_refl eq_refl Hd Ht) as FP.
    fold body in FS, FZ, FP.
    unfold _timestamp_query_param_from_json, str_replace.
    cbn [_not_null is_none negb orb].
    rewrite (replace_absent " " EmptyString "T" (Some 1%nat)).
    2:{ rewrite free_of_app, FS. reflexivity. }
    rewrite (replace_zulu_suffix body FZ).
    rewrite (replace_absent "+" "00:00" EmptyString None body FP).
    assert (Hdot : contains body "." = true) by apply contains_dot.
    rewrite Hdot.
    pose proof (strptime_micros y m d h mi s us Hd Ht) as E.
    fold body in E. rewrite E. reflexivity.
Qed.
End RowTimestamps.

(** ** The statements at work *)

Lemma set_sub_prop_then_get_witness :
  match Props._set_sub_prop one_empty_dict (Props.PRef 1%positive)
          ["a"; "b"] (Props.PInt 7) with
  | Ok h' =>
      Props._get_sub_prop h' (Props.PRef 1%positive) ["a"; "b"] Props.PNone
      = Ok (Props.PInt 7)
  | Err _ => False
  end.
Proof.
  assert (Hnd : List.NoDup ["a"; "b"]).
  { repeat constructor; simpl; intuition discriminate. }
  destruct (Props._set_sub_prop one_empty_dict (Props.PRef 1%positive)
              ["a"; "b"] (Props.PInt 7)) as [h'|e] eqn:E.
  - exact (set_sub_prop_then_get _ _ _ _ _ _ Hnd E).
  - vm_compute in E. discriminate E.
Defined.

Lemma del_sub_prop_then_get_witness :
  match Props._del_sub_prop number_under_a (Props.PRef 1%positive) ["a"] with
  | Ok h' =>
      Props._get_sub_prop h' (Props.PRef 1%positive) ["a"] (Props.PStr "gone")
      = Ok (Props.PStr "gone")
  | Err _ => False
  end.
Proof.
  assert (Hnd : List.NoDup ["a"]).
  { repeat constructor; simpl; intuition discriminate. }
  destruct (Props._del_sub_prop number_under_a (Props.PRef 1%positive) ["a"])
    as [h'|e] eqn:E.
  - exact (del_sub_prop_then_get _ _ _ _ _ Hnd E).
  - vm_compute in E. discriminate E.
Defined.

Lemma set_sub_prop_through_scalar_witness :
  Props.resolve number_under_a (Props.PRef 1%positive) ["a"]
  = Some (Props.PInt 5)
  /\ raises TypeError
       (Props._set_sub_prop number_under_a (Props.PRef 1%positive)
          (["a"] ++ ["b"]) (Props.PInt 7)).
Proof.
  assert (Hres : Props.resolve number_under_a (Props.PRef 1%positive) ["a"]
                 = Some (Props.PInt 5)) by (vm_compute; reflexivity).
  split; [exact Hres|].
  apply (set_sub_prop_through_scalar _ _ (Props.PInt 5) _ _ _ Hres);
    discriminate.
Defined.

Lemma build_resource_content_witness :
  match _build_resource_from_properties table_object
          ["friendly_name"; "labels"] with
  | Ok partial =>
      partial !! "friendlyName" = Some (VStr "Sales")
      /\ partial !! "friendly_name" = None
  | Err _ => False
  end.
Proof.
  destruct (_build_resource_from_properties table_object
              ["friendly_name"; "labels"]) as [partial|e] eqn:E.
  - split.
    + rewrite (build_resource_content _ _ _ E "friendlyName").
      vm_compute. reflexivity.
    + rewrite (build_resource_content _ _ _ E "friendly_name").
      vm_compute. reflexivity.
  - vm_compute in E. discriminate E.
Defined.

Lemma snake_to_camel_case_no_underscore_witness :
  _snake_to_camel_case "friendly_name" = Some "friendlyName"
  /\ contains "friendlyName" "_" = false.
Proof.
  assert (Hrun : _snake_to_camel_case "friendly_name" = Some "friendlyName")
    by reflexivity.
  split; [exact Hrun|].
  exact (snake_to_camel_case_no_underscore _ _ Hrun).
Defined.

Lemma snake_to_camel_case_one_word_witness :
  _snake_to_camel_case "etag" = Some "etag".
Proof. apply snake_to_camel_case_one_word. reflexivity. Defined.

Lemma snake_to_camel_case_two_words_witness :
  _snake_to_camel_case "fooBar_bazQux" = Some "fooBarBazqux".
Proof.
  exact (snake_to_camel_case_two_words "fooBar" "b" "azQux" eq_refl eq_refl).
Defined.

Lemma split_id_standard_witness :
  _split_id "proj.ds.tbl" = ["proj"; "ds"; "tbl"].
Proof.
  destruct (split_id_standard "proj.ds.tbl" eq_refl) as [Hsplit _].
  exact Hsplit.
Defined.

Lemma parse_3_part_id_standard_witness :
  _parse_3_part_id "proj.ds.tbl" None "table_id"
  = Ok (Some "proj", "ds", "tbl")
  /\ _parse_3_part_id "ds.tbl" (Some "fallback") "table_id"
     = Ok (Some "fallback", "ds", "tbl").
Proof.
  split.
  - exact (proj1 (parse_3_part_id_standard "proj" "ds" "tbl" "table_id" None
                    eq_refl eq_refl eq_refl eq_refl)).
  - exact (proj2 (parse_3_part_id_standard "proj" "ds" "tbl" "table_id"
                    (Some "fallback") eq_refl eq_refl eq_refl eq_refl)
                 eq_refl).
Defined.

Lemma parse_3_part_id_refused_witness :
  _parse_3_part_id "tbl" None "table_id"
  = raise_msg ValueError (not_qualified_message "table_id" "tbl")
  /\ _parse_3_part_id "ds.tbl" (Some EmptyString) "table_id"
     = raise_msg ValueError (no_project_message "table_id" "ds.tbl").
Proof.
  split.
  - apply (proj1 (parse_3_part_id_refused "tbl" "table_id" None eq_refl));
      discriminate.
  - apply (proj2 (parse_3_part_id_refused "ds.tbl" "table_id"
                    (Some EmptyString) eq_refl)); reflexivity.
Defined.

Lemma parse_3_part_id_legacy_witness :
  _parse_3_part_id "example.com:proj.ds.tbl" None "table_id"
  = Ok (Some "example.com:proj", "ds", "tbl").
Proof.
  exact (proj1 (parse_3_part_id_legacy "example.com" "proj" "ds" "tbl"
                  "table_id" None eq_refl ltac:(discriminate)
                  eq_refl eq_refl eq_refl)).
Defined.

Lemma int_or_none_of_str_or_none_witness :
  (let* text := _str_or_none (H := plain_runtime) (VInt 42) in
   _int_or_none text)
  = Ok (VInt 42).
Proof.
  apply (proj1 (int_or_none_of_str_or_none (H := plain_runtime)) 42).
  apply Z.lt_le_trans with (10 ^ 2); [reflexivity|].
  apply Z.pow_le_mono_r; [lia | vm_compute; discriminate].
Defined.

Lemma null_cell_decoding_witness :
  _field_from_json (H := plain_runtime) VNone (nullable_field "TIMESTAMP")
  = Ok VNone.
Proof.
  exact (proj1 (null_cell_decoding (H := plain_runtime)
                  (nullable_field "TIMESTAMP") eq_refl)).
Defined.

Lemma field_to_index_mapping_positions_witness :
  _field_to_index_mapping two_columns !! "tag" = Some 1%nat.
Proof.
  assert (Hnd : List.NoDup (map name two_columns)).
  { simpl. repeat constructor; simpl; intuition discriminate. }
  exact (proj1 (field_to_index_mapping_positions two_columns Hnd) 1%nat
           (mkField "tag" "STRING" "NULLABLE" []) eq_refl).
Defined.

Lemma float_to_json_finite_witness :
  _float_to_json (H := plain_runtime) (VFloat (S754_zero false))
  = Ok (VFloat (S754_zero false))
  /\ is_nan (S754_zero false) = false /\ is_inf (S754_zero false) = false.
Proof.
  assert (Hrun : _float_to_json (H := plain_runtime)
                   (VFloat (S754_zero false))
                 = Ok (VFloat (S754_zero false))) by reflexivity.
  split; [exact Hrun|].
  exact (float_to_json_finite (H := plain_runtime) _ _ Hrun).
Defined.

Lemma repeated_field_to_json_items_witness :
  match _field_to_json (H := plain_runtime) repeated_integers
          (VList [VInt 3; VNone]) with
  | Ok wire => exists values, wire = VList values
                              /\ List.length values = 2%nat
  | Err _ => False
  end.
Proof.
  destruct (_field_to_json (H := plain_runtime) repeated_integers
              (VList [VInt 3; VNone])) as [wire|e] eqn:E.
  - destruct (repeated_field_to_json_items (H := plain_runtime)
                repeated_integers [VInt 3; VNone] _ wire eq_refl
                (or_introl eq_refl) E) as (values & Hw & Hl & _).
    exists values. split; [exact Hw | exact Hl].
  - vm_compute in E. discriminate E.
Defined.

Lemma record_positional_as_named_witness :
  _record_field_to_json (H := plain_runtime) two_columns
    (VTuple [VInt 7; VStr "x"])
  = _record_field_to_json (H := plain_runtime) two_columns
      (VDict [("id", VInt 7); ("tag", VStr "x")]).
Proof.
  assert (Hnd : List.NoDup (map name two_columns)).
  { simpl. repeat constructor; simpl; intuition discriminate. }
  exact (record_positional_as_named (H := plain_runtime) two_columns
           [VInt 7; VStr "x"] _ Hnd eq_refl (or_introl eq_refl)).
Defined.

Lemma datetime_from_json_isoformat_witness :
  _datetime_from_json
    (VStr (datetime_isoformat "T" new_year_half_past_noon))
    (Some (nullable_field "DATETIME"))
  = Ok (VDatetime new_year_half_past_noon).
Proof.
  exact (datetime_from_json_isoformat new_year_half_past_noon
           (nullable_field "DATETIME") eq_refl eq_refl).
Defined.

Lemma timestamp_parameter_roundtrip_witness :
  match _timestamp_to_json_parameter (VDatetime new_year_half_past_noon) with
  | Ok wire =>
      _timestamp_query_param_from_json wire
        (Some (nullable_field "TIMESTAMP"))
      = Ok (VDatetime (replace_tzinfo new_year_half_past_noon (Some 0)))
  | Err _ => False
  end.
Proof.
  destruct (_timestamp_to_json_parameter (VDatetime new_year_half_past_noon))
    as [wire|e] eqn:E.
  - destruct (timestamp_parameter_roundtrip new_year_half_past_noon wire
                (nullable_field "TIMESTAMP") eq_refl E)
      as (u & Hu & _ & _ & _ & Hsame).
    rewrite Hu, (Hsame eq_refl). reflexivity.
  - vm_compute in E. discriminate E.
Defined.

Lemma timestamp_from_json_epoch_witness :
  exists v,
    _timestamp_from_json (VStr "0")
      (Some (nullable_field "TIMESTAMP")) = Ok (VDatetime v)
    /\ valid_datetime v = true
    /\ dt_tzinfo v = Some 0
    /\ wall_us v = wall_us EPOCH + 0.
Proof.
  apply (proj1 (timestamp_from_json_epoch 0 (VStr "0")
                  (nullable_field "TIMESTAMP") (or_intror eq_refl))).
  lia.
Defined.

Lemma record_from_json_cells_witness :
  match _record_from_json (H := plain_runtime) (VDict pair_row)
          (Some pair_record) with
  | Ok wire =>
      exists record, wire = VDict record
                     /\ dict_get record "id" = Some (VInt 7)
  | Err _ => False
  end.
Proof.
  assert (Hnd : List.NoDup (map name (fields pair_record))).
  { simpl. repeat constructor; simpl; intuition discriminate. }
  destruct (_record_from_json (H := plain_runtime) (VDict pair_row)
              (Some pair_record)) as [wire|e] eqn:E.
  - destruct (record_from_json_cells (H := plain_runtime) pair_record
                pair_row _ wire eq_refl Hnd E) as (record & Hw & Hcells & _).
    exists record. split; [exact Hw|].
    destruct (Hcells O (mkField "id" "INTEGER" "REQUIRED" [])
                (cell_of (VStr "7")) eq_refl eq_refl) as (v & Hv & Hget).
    vm_compute in Hv. inversion Hv; subst v. exact Hget.
  - vm_compute in E. discriminate E.
Defined.

Lemma record_from_json_unregistered_subfield_witness :
  _record_from_json (H := plain_runtime) (VDict document_row)
    (Some document_record)
  = raise KeyError.
Proof.
  exact (proj2 (record_from_json_unregistered_subfield (H := plain_runtime)
                  document_record document_row _ O
                  (mkField "payload" "JSON" "NULLABLE" [])
                  eq_refl eq_refl ltac:(simpl; lia) eq_refl) eq_refl).
Defined.

Lemma timestamp_row_text_as_parameter_witness :
  exists text,
    _timestamp_to_json_row (H := plain_runtime)
      (VDatetime new_year_half_past_noon) = Ok (VStr text)
    /\ _timestamp_query_param_from_json (VStr text)
         (Some (nullable_field "TIMESTAMP"))
       = Ok (VDatetime (replace_tzinfo new_year_half_past_noon (Some 0))).
Proof.
  apply (timestamp_row_text_as_parameter (H := plain_runtime)
           new_year_half_past_noon (nullable_field "TIMESTAMP")
           eq_refl eq_refl).
  right. simpl. lia.
Defined.
